(** * WmtsLayer: tile negotiation, addressing, retrieval and traversal

    A shallow embedding of [WmtsLayer] (WebWorldWind), the WMTS image layer
    of the virtual globe, and the properties of its tile-matrix negotiation,
    tile addressing, retrieval pipeline, Mercator unprojection and quadtree
    traversal.

    JavaScript numbers are modelled exactly: integral quantities (matrix
    dimensions, rows, columns, pixel sizes, array indices) as [Z], all other
    numbers as rationals [Q].  Rational division is only used with the
    divisor the source divides by; statements that depend on a quotient carry
    the hypothesis that the divisor is not zero. *)

From Stdlib Require Import ZArith QArith Qround String Ascii Lia Lqa
  DecimalString DecimalZ.
From stdpp Require Import base list gmap strings.

#[local] Open Scope Z_scope.

(** ** JavaScript strings, arrays and truthiness *)

Module Js.

(** [String.prototype.indexOf]: position of the first occurrence, or -1. *)
Definition indexOf (s pattern : string) : Z :=
  match String.index 0 pattern s with
  | Some i => Z.of_nat i
  | None => -1
  end.

(** [Array.prototype.indexOf] on an array of strings. *)
Fixpoint arrayIndexOfFrom (i : Z) (a : list string) (x : string) : Z :=
  match a with
  | [] => -1
  | y :: a' => if String.eqb y x then i else arrayIndexOfFrom (i + 1) a' x
  end.

Definition arrayIndexOf (a : list string) (x : string) : Z :=
  arrayIndexOfFrom 0 a x.

(** [a.splice(index, 1)] for an index inside the array. *)
Definition splice1 (index : Z) (a : list string) : list string :=
  delete (Z.to_nat index) a.

(** The replacement text of [String.prototype.replace] for a string
    pattern, which captures nothing: in the replacement, [$$] stands for a
    dollar sign, [$&] for the matched text, [$`] for the text before the
    match and [$'] for the text after it; any other character stands for
    itself, a dollar sign before a digit or anything else included. *)
Fixpoint getSubstitution (matched before after replacement : string)
    : string :=
  match replacement with
  | EmptyString => EmptyString
  | String c tail =>
      if Ascii.eqb c "$" then
        match tail with
        | EmptyString => String c EmptyString
        | String d rest =>
            if Ascii.eqb d "$"
            then String d (getSubstitution matched before after rest)
            else if Ascii.eqb d "&"
            then matched +:+ getSubstitution matched before after rest
            else if Ascii.eqb d "`"
            then before +:+ getSubstitution matched before after rest
            else if Ascii.eqb d "'"
            then after +:+ getSubstitution matched before after rest
            else String c (getSubstitution matched before after tail)
        end
      else String c (getSubstitution matched before after tail)
  end.

(** [String.prototype.replace] with a string pattern: only the first
    occurrence is replaced. *)
Definition replace (s pattern replacement : string) : string :=
  match String.index 0 pattern s with
  | Some i =>
      let before := String.substring 0 i s in
      let after :=
        String.substring (i + String.length pattern)
                         (String.length s - (i + String.length pattern)) s in
      before +:+ getSubstitution pattern before after replacement +:+ after
  | None => s
  end.

(** Decimal rendering of an integer, as string concatenation does. *)
Definition ofZ (z : Z) : string := NilZero.string_of_int (Z.to_int z).

(** A string-valued property that may be [undefined]. *)
Definition truthy (s : option string) : bool :=
  match s with
  | Some s => negb (String.eqb s EmptyString)
  | None => false
  end.

(** Concatenating a possibly undefined string. *)
Definition str (s : option string) : string :=
  match s with
  | Some s => s
  | None => "undefined"
  end.

Definition lowerChar (c : ascii) : ascii :=
  let n := nat_of_ascii c in
  if ((65 <=? n) && (n <=? 90))%nat then ascii_of_nat (n + 32) else c.

Fixpoint toLowerCase (s : string) : string :=
  match s with
  | EmptyString => EmptyString
  | String c s' => String (lowerChar c) (toLowerCase s')
  end.

End Js.

(** ** Errors *)

Inductive Error :=
| ArgumentError (message : string)
| TypeError (message : string).

Inductive result (A : Type) :=
| Ok (a : A)
| Throw (e : Error).

Arguments Ok {A} a.
Arguments Throw {A} e.

(** ** Data model *)

(** Modelled from the spec: [Sector] (geom/Sector is not part of the layer
    file): a geographic bounding box; its height and width are the
    differences of its edges. *)
Record Sector := mkSector {
  minLatitude : Q;
  maxLatitude : Q;
  minLongitude : Q;
  maxLongitude : Q
}.

Definition deltaLatitude (s : Sector) : Q := maxLatitude s - minLatitude s.
Definition deltaLongitude (s : Sector) : Q := maxLongitude s - minLongitude s.

Record BoundingBox := mkBoundingBox {
  lowerCorner : Q * Q;
  upperCorner : Q * Q;
  crs : string
}.

Record TileMatrix := mkTileMatrix {
  identifier : string;
  levelNumber : Z;
  matrixWidth : Z;
  matrixHeight : Z;
  tileWidth : Z;
  tileHeight : Z;
  topLeftCorner : Q * Q;
  scaleDenominator : Q
}.

Record TileMatrixSet := mkTileMatrixSet {
  tmsIdentifier : string;
  supportedCRS : string;
  wellKnownScaleSet : option string;
  tmsBoundingBox : option BoundingBox;
  tileMatrix : list TileMatrix
}.

(** ** Coordinate reference systems *)

Definition isEpsg4326Crs (crs : string) : bool :=
  (Js.indexOf crs "EPSG" >=? 0) && (Js.indexOf crs "4326" >=? 0).

Definition isEpsg3857Crs (crs : string) : bool :=
  (Js.indexOf crs "EPSG" >=? 0)
  && ((Js.indexOf crs "3857" >=? 0) || (Js.indexOf crs "900913" >=? 0)).

Definition isOGCCrs84 (crs : string) : bool :=
  (Js.indexOf crs "OGC" >=? 0) && (Js.indexOf crs "CRS84" >=? 0).

(** ** Capabilities negotiation *)

(** The part of a [WmtsLayerCapabilities] object the layer reads.
    [getLayerSupportedTileMatrixSets] and [getGetTileKvpAddress] hold what
    the methods of these names return. *)
Module Caps.

Record Style := mkStyle {
  styleIdentifier : option string;
  isDefault : bool
}.

Record Dimension := mkDimension {
  dimensionIdentifier : string;
  default : option string
}.

Record ResourceUrl := mkResourceUrl {
  format : string;
  template : option string
}.

Record t := mk {
  identifier : option string;
  style : list Style;
  dimension : option (list Dimension);
  formats : list string;
  resourceUrl : option (list ResourceUrl);
  getGetTileKvpAddress : option string;
  boundingBox : option (list BoundingBox);
  wgs84BoundingBox : option BoundingBox;
  titles : list string;
  getLayerSupportedTileMatrixSets : list TileMatrixSet
}.

End Caps.

(** One pass of the level loop of [convertTileMatrixSets]: [j] is the loop
    index, the accumulator holds [compatibleTileMatrices] and
    [previousHeight]. *)
Definition levelStep (crs : string) (j : nat) (tileMatrix : TileMatrix)
    (acc : list TileMatrix * Z) : list TileMatrix * Z :=
  let '(compatibleTileMatrices, previousHeight) := acc in
  if (j =? 0)%nat then (compatibleTileMatrices ++ [tileMatrix], previousHeight)
  else if
    (* Aspect ratio check - dependent on crs *)
    (if isEpsg3857Crs crs
     then negb (matrixHeight tileMatrix =? matrixWidth tileMatrix)
     else if isEpsg4326Crs crs || isOGCCrs84 crs
     then negb (matrixHeight tileMatrix * 2 =? matrixWidth tileMatrix)
     else true)
  then acc
  else if
    (* Quad division check *)
    negb (Z.rem (matrixHeight tileMatrix) 2 =? 0)
    || negb (Z.rem (matrixWidth tileMatrix) 2 =? 0)
  then acc
  else if
    (* Image squareness *)
    negb (tileHeight tileMatrix =? tileWidth tileMatrix)
  then acc
  else if
    (* Image size *)
    negb (tileHeight tileMatrix =? 256)
  then acc
  else if (previousHeight =? 0) || (2 * previousHeight =? matrixHeight tileMatrix)
  then (compatibleTileMatrices ++ [tileMatrix], matrixHeight tileMatrix)
  else acc.

Fixpoint levelLoop (crs : string) (j : nat) (levels : list TileMatrix)
    (acc : list TileMatrix * Z) : list TileMatrix * Z :=
  match levels with
  | [] => acc
  | tileMatrix :: levels' =>
      levelLoop crs (S j) levels' (levelStep crs j tileMatrix acc)
  end.

(** [compatibleTileMatrices] once the level loop of one candidate set is
    over. *)
Definition compatibleLevels (tileMatrixSet : TileMatrixSet) : list TileMatrix :=
  fst (levelLoop (supportedCRS tileMatrixSet) 0 (tileMatrix tileMatrixSet) ([], 0)).

Definition convertedTileMatrixSet (tileMatrixSet : TileMatrixSet)
    (compatibleTileMatrices : list TileMatrix) : TileMatrixSet :=
  {| tmsIdentifier := tmsIdentifier tileMatrixSet;
     supportedCRS := supportedCRS tileMatrixSet;
     wellKnownScaleSet :=
       if Js.truthy (wellKnownScaleSet tileMatrixSet)
       then wellKnownScaleSet tileMatrixSet else None;
     tmsBoundingBox := tmsBoundingBox tileMatrixSet;
     tileMatrix := compatibleTileMatrices |}.

(** One pass of the outer loop of [convertTileMatrixSets]. *)
Definition convertStep (convertedTileMatrixSets : list TileMatrixSet)
    (tileMatrixSet : TileMatrixSet) : list TileMatrixSet :=
  let crs := supportedCRS tileMatrixSet in
  if negb (isEpsg4326Crs crs || isEpsg3857Crs crs || isOGCCrs84 crs)
  then convertedTileMatrixSets
  else
    let compatibleTileMatrices := compatibleLevels tileMatrixSet in
    if (1 <? length compatibleTileMatrices)%nat
    then convertedTileMatrixSets
           ++ [convertedTileMatrixSet tileMatrixSet compatibleTileMatrices]
    else convertedTileMatrixSets.

Definition convertTileMatrixSets (layerCaps : option Caps.t)
    : result (list TileMatrixSet) :=
  match layerCaps with
  | None => Throw (ArgumentError "No layer configuration specified.")
  | Some layerCaps =>
      Ok (fold_left convertStep
            (Caps.getLayerSupportedTileMatrixSets layerCaps) [])
  end.

(** The configuration object handed to the constructor. *)
Module Config.

Record t := mk {
  layerIdentifier : option string;
  styleIdentifier : option string;
  timeString : option string;
  imageFormat : option string;
  resourceUrl : option string;
  serviceUrl : option string;
  tileMatrixSet : option TileMatrixSet;
  boundingBox : option (list BoundingBox);
  wgs84BoundingBox : option BoundingBox;
  title : option string
}.

End Config.

(** The default style: the first style flagged as default. *)
Fixpoint defaultStyle (style : list Caps.Style) : option string :=
  match style with
  | [] => None
  | s :: style' =>
      if Caps.isDefault s then Caps.styleIdentifier s else defaultStyle style'
  end.

(** The default time string: the default of the first dimension named
    "time", whatever its case. *)
Fixpoint defaultTime (dimension : list Caps.Dimension) : option string :=
  match dimension with
  | [] => None
  | d :: dimension' =>
      if String.eqb (Js.toLowerCase (Caps.dimensionIdentifier d)) "time"
      then Caps.default d else defaultTime dimension'
  end.

Definition chooseImageFormat (formats : list string) : option string :=
  if Js.arrayIndexOf formats "image/png" >=? 0 then Some "image/png"%string
  else if Js.arrayIndexOf formats "image/jpeg" >=? 0 then Some "image/jpeg"%string
  else if Js.arrayIndexOf formats "image/tiff" >=? 0 then Some "image/tiff"%string
  else if Js.arrayIndexOf formats "image/gif" >=? 0 then Some "image/gif"%string
  else head formats.

(** The template of the first resource URL whose format is the chosen
    one. *)
Fixpoint chooseResourceUrl (imageFormat : option string)
    (resourceUrl : list Caps.ResourceUrl) : option string :=
  match resourceUrl with
  | [] => None
  | r :: resourceUrl' =>
      match imageFormat with
      | Some f =>
          if String.eqb f (Caps.format r) then Caps.template r
          else chooseResourceUrl imageFormat resourceUrl'
      | None => chooseResourceUrl imageFormat resourceUrl'
      end
  end.

(** [highestResTileMatrixSet.length]: the objects built by
    [convertTileMatrixSets] carry [identifier], [supportedCRS],
    [wellKnownScaleSet], [boundingBox] and [tileMatrix]; they have no
    [length] property, so the expression is [undefined]. *)
Definition lengthProperty (tileMatrixSet : TileMatrixSet) : option Z := None.

(** [a > b] for a number [a] and a possibly undefined [b]: a comparison
    with [undefined] is false. *)
Definition greaterThan (a : Z) (b : option Z) : bool :=
  match b with
  | Some b => a >? b
  | None => false
  end.

(** One pass of the selection loop of [createConfigurationFromLayer]: the
    variables are [highestResTileMatrixSet] and the loop's own [tms], which
    is function-scoped and outlives the loop. *)
Definition selectStep (vars : option TileMatrixSet * option TileMatrixSet)
    (tms : TileMatrixSet) : option TileMatrixSet * option TileMatrixSet :=
  let '(highestResTileMatrixSet, _) := vars in
  match highestResTileMatrixSet with
  | None => (Some tms, Some tms)
  | Some highest =>
      if greaterThan (Z.of_nat (length (tileMatrix tms))) (lengthProperty highest)
      then (Some tms, Some tms)
      else (highestResTileMatrixSet, Some tms)
  end.

Section Configuration.

(** [WmsUrlBuilder.fixGetMapString], which completes a KVP service
    address. *)
Variable fixGetMapString : string -> string.

Definition createConfigurationFromLayer (layerCaps : option Caps.t)
    : result Config.t :=
  match layerCaps with
  | None => Throw (ArgumentError "No layer configuration specified.")
  | Some caps =>
      let styleIdentifier := defaultStyle (Caps.style caps) in
      let timeString :=
        match Caps.dimension caps with
        | Some dimension => defaultTime dimension
        | None => None
        end in
      let imageFormat := chooseImageFormat (Caps.formats caps) in
      if negb (Js.truthy imageFormat)
      then Throw (ArgumentError
                    "Layer does not provide a supported image format.")
      else
        let '(resourceUrl, serviceUrl) :=
          match Caps.resourceUrl caps with
          | Some (r :: rs) => (chooseResourceUrl imageFormat (r :: rs), None)
          | _ =>
              let serviceUrl := Caps.getGetTileKvpAddress caps in
              (None,
               if Js.truthy serviceUrl
               then option_map fixGetMapString serviceUrl
               else serviceUrl)
          end in
        if negb (Js.truthy resourceUrl) && negb (Js.truthy serviceUrl)
        then Throw (ArgumentError
               "No resource URL or KVP GetTile service URL specified in WMTS capabilities.")
        else
          match convertTileMatrixSets layerCaps with
          | Throw e => Throw e
          | Ok compatibleTileMatrixSets =>
              if (0 <? length compatibleTileMatrixSets)%nat
              then
                let '(_, tms) :=
                  fold_left selectStep compatibleTileMatrixSets (None, None) in
                Ok {| Config.layerIdentifier := Caps.identifier caps;
                      Config.styleIdentifier := styleIdentifier;
                      Config.timeString := timeString;
                      Config.imageFormat := imageFormat;
                      Config.resourceUrl := resourceUrl;
                      Config.serviceUrl := serviceUrl;
                      Config.tileMatrixSet := tms;
                      Config.boundingBox := Caps.boundingBox caps;
                      Config.wgs84BoundingBox := Caps.wgs84BoundingBox caps;
                      Config.title :=
                        match Caps.titles caps with
                        | value :: _ => Some value
                        | [] => Caps.identifier caps
                        end |}
              else Throw (ArgumentError
                            "No supported Tile Matrix Set could be found.")
          end
  end.

End Configuration.

(** ** Tiles, images and the collaborators of the layer *)

(** A [WmtsLayerTile] as the layer builds it.  The layer resets the tile's
    [fallbackTile] to null whenever it accepts the tile and never reads it;
    the field is left out. *)
Module Tile.

Record t := mk {
  sector : Sector;
  tileMatrix : TileMatrix;
  row : Z;
  column : Z;
  imagePath : string
}.

End Tile.

(** A decoded image, or a canvas: its dimensions and the RGBA bytes that
    [getImageData] returns for it, four per pixel, row by row. *)
Record Image := mkImage {
  width : nat;
  height : nat;
  data : list Z
}.

(** Modelled from the spec: [WWMath.clamp] (util/WWMath is not part of the
    layer file): the value, limited to the interval between the two
    bounds. *)
Definition clamp (value minimum maximum : Q) : Q :=
  if Qlt_le_dec maximum value then maximum
  else if Qlt_le_dec value minimum then minimum
  else value.

(** What the layer consumes from the rest of the library: the remaining
    [WWMath] and [WWUtil] functions, textures, the GPU resource cache of the
    draw context, the absent-resource list, the tile cache with the tile's
    own subdivision, and the per-frame tests on a tile.  The tests on a tile
    are taken after [tile.update(dc)], which every caller runs first. *)
Class Collaborators := {
  gudermannianInverse : Q -> Q;
  epsg3857ToEpsg4326 : Q -> Q -> Q * Q;
  suffixForMimeType : string -> string;

  Texture : Type;
  newTexture : Image -> Texture;
  size : Texture -> Z;
  creationTime : Texture -> Q;

  GpuResourceCache : Type;
  containsResource : GpuResourceCache -> string -> bool;
  resourceForKey : GpuResourceCache -> string -> option Texture;
  putResource : GpuResourceCache -> string -> Texture -> Z -> GpuResourceCache;

  AbsentResourceList : Type;
  newAbsentResourceList : Z -> Z -> AbsentResourceList;
  isResourceAbsent : AbsentResourceList -> string -> bool * AbsentResourceList;
  markResourceAbsent : AbsentResourceList -> string -> AbsentResourceList;
  unmarkResourceAbsent : AbsentResourceList -> string -> AbsentResourceList;

  MemoryCache : Type;
  newMemoryCache : Z -> Z -> MemoryCache;
  subdivideToCache :
    Tile.t -> option TileMatrix ->
    (TileMatrix -> Z -> Z -> result (option Tile.t)) ->
    MemoryCache -> list Tile.t * MemoryCache;

  DrawContext : Type;
  mustSubdivide : DrawContext -> Tile.t -> Q -> bool;
  intersectsFrustum : DrawContext -> Tile.t -> bool;
  projectionLimits : DrawContext -> option Sector;
  overlaps : Sector -> Sector -> bool;
  intersects : Sector -> Sector -> bool
}.

Section Layer.

Context {W : Collaborators}.

(** ** The layer object *)

Record Layer := mkLayer {
  layerIdentifier : option string;
  styleIdentifier : option string;
  timeString : option string;
  imageFormat : string;
  resourceUrl : option string;
  serviceUrl : option string;
  tileMatrixSet : TileMatrixSet;
  sector : option Sector;
  cachePath : string;
  displayName : option string;
  detailControl : Q;
  expiration : option Q;
  currentTiles : list Tile.t;
  currentTilesInvalid : bool;
  tileCache : MemoryCache;
  currentRetrievals : list string;
  absentResourceList : AbsentResourceList;
  topLevelTiles : option (list (option Tile.t));
  currentAncestorTile : option Tile.t
}.

Definition setCurrentTiles (v : list Tile.t) (l : Layer) : Layer :=
  mkLayer (layerIdentifier l) (styleIdentifier l) (timeString l)
    (imageFormat l) (resourceUrl l) (serviceUrl l) (tileMatrixSet l)
    (sector l) (cachePath l) (displayName l) (detailControl l) (expiration l)
    v (currentTilesInvalid l) (tileCache l) (currentRetrievals l)
    (absentResourceList l) (topLevelTiles l) (currentAncestorTile l).

Definition setCurrentTilesInvalid (v : bool) (l : Layer) : Layer :=
  mkLayer (layerIdentifier l) (styleIdentifier l) (timeString l)
    (imageFormat l) (resourceUrl l) (serviceUrl l) (tileMatrixSet l)
    (sector l) (cachePath l) (displayName l) (detailControl l) (expiration l)
    (currentTiles l) v (tileCache l) (currentRetrievals l)
    (absentResourceList l) (topLevelTiles l) (currentAncestorTile l).

Definition setTileCache (v : MemoryCache) (l : Layer) : Layer :=
  mkLayer (layerIdentifier l) (styleIdentifier l) (timeString l)
    (imageFormat l) (resourceUrl l) (serviceUrl l) (tileMatrixSet l)
    (sector l) (cachePath l) (displayName l) (detailControl l) (expiration l)
    (currentTiles l) (currentTilesInvalid l) v (currentRetrievals l)
    (absentResourceList l) (topLevelTiles l) (currentAncestorTile l).

Definition setCurrentRetrievals (v : list string) (l : Layer) : Layer :=
  mkLayer (layerIdentifier l) (styleIdentifier l) (timeString l)
    (imageFormat l) (resourceUrl l) (serviceUrl l) (tileMatrixSet l)
    (sector l) (cachePath l) (displayName l) (detailControl l) (expiration l)
    (currentTiles l) (currentTilesInvalid l) (tileCache l) v
    (absentResourceList l) (topLevelTiles l) (currentAncestorTile l).

Definition setAbsentResourceList (v : AbsentResourceList) (l : Layer) : Layer :=
  mkLayer (layerIdentifier l) (styleIdentifier l) (timeString l)
    (imageFormat l) (resourceUrl l) (serviceUrl l) (tileMatrixSet l)
    (sector l) (cachePath l) (displayName l) (detailControl l) (expiration l)
    (currentTiles l) (currentTilesInvalid l) (tileCache l)
    (currentRetrievals l) v (topLevelTiles l) (currentAncestorTile l).

Definition setTopLevelTiles (v : option (list (option Tile.t))) (l : Layer)
    : Layer :=
  mkLayer (layerIdentifier l) (styleIdentifier l) (timeString l)
    (imageFormat l) (resourceUrl l) (serviceUrl l) (tileMatrixSet l)
    (sector l) (cachePath l) (displayName l) (detailControl l) (expiration l)
    (currentTiles l) (currentTilesInvalid l) (tileCache l)
    (currentRetrievals l) (absentResourceList l) v (currentAncestorTile l).

Definition setCurrentAncestorTile (v : option Tile.t) (l : Layer) : Layer :=
  mkLayer (layerIdentifier l) (styleIdentifier l) (timeString l)
    (imageFormat l) (resourceUrl l) (serviceUrl l) (tileMatrixSet l)
    (sector l) (cachePath l) (displayName l) (detailControl l) (expiration l)
    (currentTiles l) (currentTilesInvalid l) (tileCache l)
    (currentRetrievals l) (absentResourceList l) (topLevelTiles l) v.

(** [new Sector(lower[1], upper[1], lower[0], upper[0])] *)
Definition sectorOfBoundingBox (b : BoundingBox) : Sector :=
  mkSector (snd (lowerCorner b)) (snd (upperCorner b))
           (fst (lowerCorner b)) (fst (upperCorner b)).

(** The sector the constructor determines: an error, a sector, or no
    sector at all (the field stays undefined). *)
Definition constructorSector (config : Config.t) (tms : TileMatrixSet)
    : result (option Sector) :=
  match Config.wgs84BoundingBox config, Config.boundingBox config with
  | None, None =>
      match tmsBoundingBox tms with
      | Some b => Ok (Some (sectorOfBoundingBox b))
      | None => Throw (ArgumentError
          "No bounding box was specified in the layer or tile matrix set capabilities.")
      end
  | Some b, _ => Ok (Some (sectorOfBoundingBox b))
  | None, Some _ =>
      match tmsBoundingBox tms with
      | Some b =>
          if isEpsg4326Crs (crs b) then Ok (Some (sectorOfBoundingBox b))
          else if isEpsg4326Crs (supportedCRS tms)
          then Throw (ArgumentError
            "No EPSG:4326 bounding box was specified in the layer or tile matrix set capabilities.")
          else Ok None
      | None =>
          if isEpsg4326Crs (supportedCRS tms)
          then Throw (ArgumentError
            "No EPSG:4326 bounding box was specified in the layer or tile matrix set capabilities.")
          else Ok None
      end
  end.

(** The constructor, [new WmtsLayer(config)]. *)
Definition WmtsLayer (config : option Config.t) : result Layer :=
  match config with
  | None => Throw (ArgumentError "No layer configuration specified.")
  | Some config =>
      match Config.imageFormat config with
      | None => Throw (ArgumentError
                         "Layer does not provide a supported image format.")
      | Some imageFormat =>
          if String.eqb imageFormat EmptyString
          then Throw (ArgumentError
                        "Layer does not provide a supported image format.")
          else if negb (Js.truthy (Config.resourceUrl config))
                  && negb (Js.truthy (Config.serviceUrl config))
          then Throw (ArgumentError
            "No resource URL or KVP GetTile service URL specified in WMTS capabilities.")
          else
            match Config.tileMatrixSet config with
            | None => Throw (ArgumentError
                               "No supported Tile Matrix Set could be found.")
            | Some tms =>
                match constructorSector config tms with
                | Throw e => Throw e
                | Ok sector =>
                    let url :=
                      if Js.truthy (Config.resourceUrl config)
                      then Config.resourceUrl config
                      else Config.serviceUrl config in
                    let cachePath :=
                      (Js.str url +:+ Js.str (Config.layerIdentifier config)
                       +:+ Js.str (Config.styleIdentifier config)
                       +:+ tmsIdentifier tms)%string in
                    Ok {| layerIdentifier := Config.layerIdentifier config;
                          styleIdentifier := Config.styleIdentifier config;
                          timeString := Config.timeString config;
                          imageFormat := imageFormat;
                          resourceUrl := Config.resourceUrl config;
                          serviceUrl := Config.serviceUrl config;
                          tileMatrixSet := tms;
                          sector := sector;
                          cachePath :=
                            if Js.truthy (Config.timeString config)
                            then cachePath +:+ Js.str (Config.timeString config)
                            else cachePath;
                          displayName := Config.title config;
                          detailControl := 1.75;
                          expiration := None;
                          currentTiles := [];
                          currentTilesInvalid := true;
                          tileCache := newMemoryCache 500 400;
                          currentRetrievals := [];
                          absentResourceList := newAbsentResourceList 3 50000;
                          topLevelTiles := None;
                          currentAncestorTile := None |}
                end
            end
      end
  end.

(** ** Tile addressing *)

Definition makeTile (layer : Layer) (sector : Sector) (tileMatrix : TileMatrix)
    (row column : Z) : Tile.t :=
  let path :=
    (cachePath layer +:+ "-layer/" +:+ identifier tileMatrix +:+ "/"
     +:+ Js.ofZ row +:+ "/" +:+ Js.ofZ column +:+ "."
     +:+ suffixForMimeType (imageFormat layer))%string in
  Tile.mk sector tileMatrix row column path.

(** [this.sector.deltaLatitude()] and the like fail with a TypeError when
    the constructor left the sector undefined.

    The edges of a tile are computed here in exact arithmetic, on
    rationals.  The program computes them in double precision and rounds
    after every operation: rows, columns, matrices and image paths are the
    same, but an equation between two computed edges that holds here holds
    of the program only up to rounding.  The statements about edges say
    so. *)
Definition noSector : Error :=
  TypeError "this.sector is undefined".

Definition createTile4326 (layer : Layer) (tileMatrix : TileMatrix)
    (row column : Z) : result Tile.t :=
  match sector layer with
  | None => Throw noSector
  | Some layerSector =>
      let tileDeltaLat :=
        deltaLatitude layerSector / inject_Z (matrixHeight tileMatrix) in
      let tileDeltaLon :=
        deltaLongitude layerSector / inject_Z (matrixWidth tileMatrix) in
      let maxLat := fst (topLeftCorner tileMatrix) - inject_Z row * tileDeltaLat in
      let minLat := maxLat - tileDeltaLat in
      let minLon := snd (topLeftCorner tileMatrix) + tileDeltaLon * inject_Z column in
      let maxLon := minLon + tileDeltaLon in
      Ok (makeTile layer (mkSector minLat maxLat minLon maxLon)
            tileMatrix row column)
  end%Q.

Definition createTileCrs84 (layer : Layer) (tileMatrix : TileMatrix)
    (row column : Z) : result Tile.t :=
  match sector layer with
  | None => Throw noSector
  | Some layerSector =>
      let tileDeltaLat :=
        deltaLatitude layerSector / inject_Z (matrixHeight tileMatrix) in
      let tileDeltaLon :=
        deltaLongitude layerSector / inject_Z (matrixWidth tileMatrix) in
      let maxLat := snd (topLeftCorner tileMatrix) - inject_Z row * tileDeltaLat in
      let minLat := maxLat - tileDeltaLat in
      let minLon := fst (topLeftCorner tileMatrix) + tileDeltaLon * inject_Z column in
      let maxLon := minLon + tileDeltaLon in
      Ok (makeTile layer (mkSector minLat maxLat minLon maxLon)
            tileMatrix row column)
  end%Q.

(** The values [computeTileMatrixValues3857] stores on the tile matrix the
    first time a tile of it is made. *)
Record MatrixValues3857 := mkMatrixValues3857 {
  tileMatrixDeltaX : Q;
  tileMatrixDeltaY : Q;
  mapWidth : Z;
  mapHeight : Z
}.

Definition computeTileMatrixValues3857 (tileMatrix : TileMatrix)
    : MatrixValues3857 :=
  (let pixelSpan := scaleDenominator tileMatrix * 0.28e-3 in
   let tileSpanX := inject_Z (tileWidth tileMatrix) * pixelSpan in
   let tileSpanY := inject_Z (tileHeight tileMatrix) * pixelSpan in
   let tileMatrixMaxX :=
     fst (topLeftCorner tileMatrix)
     + tileSpanX * inject_Z (matrixWidth tileMatrix) in
   let tileMatrixMinY :=
     snd (topLeftCorner tileMatrix)
     - tileSpanY * inject_Z (matrixHeight tileMatrix) in
   let bottomRightCorner := (tileMatrixMaxX, tileMatrixMinY) in
   let topLeftCorner := topLeftCorner tileMatrix in
   {| tileMatrixDeltaX := fst bottomRightCorner - fst topLeftCorner;
      tileMatrixDeltaY := snd topLeftCorner - snd bottomRightCorner;
      mapWidth := (tileWidth tileMatrix * matrixWidth tileMatrix)%Z;
      mapHeight := (tileHeight tileMatrix * matrixHeight tileMatrix)%Z |})%Q.

Definition createTile3857 (layer : Layer) (tileMatrix : TileMatrix)
    (row column : Z) : Tile.t :=
  (let v := computeTileMatrixValues3857 tileMatrix in
   let mapWidth := inject_Z (mapWidth v) in
   let mapHeight := inject_Z (mapHeight v) in
   let swX :=
     clamp (inject_Z column * inject_Z (tileWidth tileMatrix) - 0.5) 0 mapWidth in
   let neY :=
     clamp (inject_Z row * inject_Z (tileHeight tileMatrix) - 0.5) 0 mapHeight in
   let neX := clamp (swX + inject_Z (tileWidth tileMatrix) + 0.5) 0 mapWidth in
   let swY := clamp (neY + inject_Z (tileHeight tileMatrix) + 0.5) 0 mapHeight in
   let swLon :=
     fst (topLeftCorner tileMatrix) + (swX / mapWidth) * tileMatrixDeltaX v in
   let swLat :=
     snd (topLeftCorner tileMatrix) - (swY / mapHeight) * tileMatrixDeltaY v in
   let swDegrees := epsg3857ToEpsg4326 swLon swLat in
   let neLon :=
     fst (topLeftCorner tileMatrix) + (neX / mapWidth) * tileMatrixDeltaX v in
   let neLat :=
     snd (topLeftCorner tileMatrix) - (neY / mapHeight) * tileMatrixDeltaY v in
   let neDegrees := epsg3857ToEpsg4326 neLon neLat in
   makeTile layer
     (mkSector (fst swDegrees) (fst neDegrees) (snd swDegrees) (snd neDegrees))
     tileMatrix row column)%Q.

(** [createTile] returns a tile, or nothing at all (undefined) when no
    branch applies. *)
Definition createTile (layer : Layer) (tileMatrix : TileMatrix)
    (row column : Z) : result (option Tile.t) :=
  if isEpsg4326Crs (supportedCRS (tileMatrixSet layer)) then
    match createTile4326 layer tileMatrix row column with
    | Ok tile => Ok (Some tile)
    | Throw e => Throw e
    end
  else if isEpsg3857Crs (supportedCRS (tileMatrixSet layer)) then
    Ok (Some (createTile3857 layer tileMatrix row column))
  else if isOGCCrs84 (supportedCRS (tileMatrixSet layer)) then
    match createTileCrs84 layer tileMatrix row column with
    | Ok tile => Ok (Some tile)
    | Throw e => Throw e
    end
  else Ok None.

(** The loops of [createTopLevelTiles]: the tiles pushed, row by row, and
    the error that stopped the loops, if any. *)
Fixpoint pushTopLevelTiles (layer : Layer) (tileMatrix : TileMatrix)
    (cells : list (Z * Z)) (tiles : list (option Tile.t))
    : list (option Tile.t) * option Error :=
  match cells with
  | [] => (tiles, None)
  | (j, i) :: cells' =>
      match createTile layer tileMatrix j i with
      | Ok tile => pushTopLevelTiles layer tileMatrix cells' (tiles ++ [tile])
      | Throw e => (tiles, Some e)
      end
  end.

(** The cells of a matrix in the order of the loops: for each row [j], each
    column [i]. *)
Definition matrixCells (tileMatrix : TileMatrix) : list (Z * Z) :=
  j ← seqZ 0 (matrixHeight tileMatrix);
  i ← seqZ 0 (matrixWidth tileMatrix);
  [(j, i)].

(** ** Textures and Mercator unprojection *)

(** Reading [data[k]] of an image to store it in another image's data: a
    read outside the array is undefined and is stored as 0. *)
Definition getByte (data : list Z) (k : Z) : Z :=
  if k <? 0 then 0 else default 0 (data !! Z.to_nat k).

(** [data[k] = v] on the fixed-length data of an image: a write outside
    the array is ignored. *)
Definition setByte (data : list Z) (k : Z) (v : Z) : list Z :=
  if k <? 0 then data else <[Z.to_nat k := v]> data.

(** [srcRow] for the destination row [y] of an image of the given
    height. *)
Definition sourceRow (sector : Sector) (height y : nat) : Z :=
  (let tMin := gudermannianInverse (minLatitude sector) in
   let tMax := gudermannianInverse (maxLatitude sector) in
   let sy := 1 - inject_Z (Z.of_nat y) / (inject_Z (Z.of_nat height) - 1) in
   let lat := sy * deltaLatitude sector + minLatitude sector in
   let g := gudermannianInverse lat in
   let dy := 1 - (g - tMin) / (tMax - tMin) in
   let dy := clamp dy 0 1 in
   Qfloor (dy * (inject_Z (Z.of_nat height) - 1)))%Q.

(** The body of the loop on [x]. *)
Definition copyPixel (src : list Z) (width : nat) (srcRow : Z) (y x : nat)
    (dest : list Z) : list Z :=
  let kSrc := 4 * (Z.of_nat x + srcRow * Z.of_nat width) in
  let kDest := 4 * (Z.of_nat x + Z.of_nat y * Z.of_nat width) in
  let dest := setByte dest kDest (getByte src kSrc) in
  let dest := setByte dest (kDest + 1) (getByte src (kSrc + 1)) in
  let dest := setByte dest (kDest + 2) (getByte src (kSrc + 2)) in
  setByte dest (kDest + 3) (getByte src (kSrc + 3)).

(** The body of the loop on [y]. *)
Definition unprojectRow (sector : Sector) (image : Image) (y : nat)
    (dest : list Z) : list Z :=
  let srcRow := sourceRow sector (height image) y in
  fold_left (fun dest x => copyPixel (data image) (width image) srcRow y x dest)
    (seq 0 (width image)) dest.

(** [destImageData] when the loops are over (the outermost loop of the
    source runs once): created blank by [createImageData] with the
    dimensions of the image, then filled row by row. *)
Definition destImageData (sector : Sector) (image : Image) : Image :=
  mkImage (width image) (height image)
    (fold_left (fun dest y => unprojectRow sector image y dest)
       (seq 0 (height image))
       (replicate (4 * width image * height image) 0)).

(** The scratch canvases are only used to read the image's data and to
    hold [destImageData] for the texture. *)
Definition createTexture3857 (tile : Tile.t) (image : Image) : Texture :=
  newTexture (destImageData (Tile.sector tile) image).

Definition createTexture (layer : Layer) (tile : Tile.t) (image : Image)
    : option Texture :=
  if isEpsg4326Crs (supportedCRS (tileMatrixSet layer)) then
    Some (newTexture image)
  else if isEpsg3857Crs (supportedCRS (tileMatrixSet layer)) then
    Some (createTexture3857 tile image)
  else if isOGCCrs84 (supportedCRS (tileMatrixSet layer)) then
    Some (newTexture image)
  else None.

(** ** The retrieval pipeline *)

(** An image element whose [src] has been set, with the variables its
    [onload] and [onerror] callbacks captured. *)
Record Retrieval := mkRetrieval {
  url : string;
  tile : Tile.t;
  imagePath : string
}.

(** The layer together with what it acts on outside itself: the GPU
    resource cache of the draw context, the image loads under way, and the
    redraw events sent to the canvas. *)
Record State := mkState {
  layer : Layer;
  gpuResourceCache : GpuResourceCache;
  imageLoads : list Retrieval;
  redrawEvents : nat
}.

Definition onLayer (f : Layer -> Layer) (st : State) : State :=
  mkState (f (layer st)) (gpuResourceCache st) (imageLoads st)
    (redrawEvents st).

Definition resourceUrlForTile (layer : Layer) (tile : Tile.t)
    (imageFormat : string) : string :=
  if Js.truthy (resourceUrl layer) then
    let url := Js.str (resourceUrl layer) in
    let url := Js.replace url "{Style}" (Js.str (styleIdentifier layer)) in
    let url := Js.replace url "{TileMatrixSet}" (tmsIdentifier (tileMatrixSet layer)) in
    let url := Js.replace url "{TileMatrix}" (identifier (Tile.tileMatrix tile)) in
    let url := Js.replace url "{TileCol}" (Js.ofZ (Tile.column tile)) in
    let url := Js.replace url "{TileRow}" (Js.ofZ (Tile.row tile)) in
    if Js.truthy (timeString layer)
    then Js.replace url "{Time}" (Js.str (timeString layer))
    else url
  else
    (let url := Js.str (serviceUrl layer)
                +:+ "service=WMTS&request=GetTile&version=1.0.0" in
     let url := url +:+ "&Layer=" +:+ Js.str (layerIdentifier layer) in
     let url :=
       if Js.truthy (styleIdentifier layer)
       then url +:+ "&Style=" +:+ Js.str (styleIdentifier layer) else url in
     let url := url +:+ "&Format=" +:+ imageFormat in
     let url :=
       if Js.truthy (timeString layer)
       then url +:+ "&Time=" +:+ Js.str (timeString layer) else url in
     let url := url +:+ "&TileMatrixSet=" +:+ tmsIdentifier (tileMatrixSet layer) in
     let url := url +:+ "&TileMatrix=" +:+ identifier (Tile.tileMatrix tile) in
     let url := url +:+ "&TileRow=" +:+ Js.ofZ (Tile.row tile) in
     url +:+ "&TileCol=" +:+ Js.ofZ (Tile.column tile))%string.

Definition retrieveTileImage (tile : Tile.t) (st : State) : State :=
  if Js.arrayIndexOf (currentRetrievals (layer st)) (Tile.imagePath tile) <? 0
  then
    let '(absent, absentList) :=
      isResourceAbsent (absentResourceList (layer st)) (Tile.imagePath tile) in
    let st := onLayer (setAbsentResourceList absentList) st in
    if absent then st
    else
      let url := resourceUrlForTile (layer st) tile (imageFormat (layer st)) in
      if String.eqb url EmptyString
      then onLayer (setCurrentTilesInvalid true) st
      else
        mkState
          (setCurrentRetrievals
             (currentRetrievals (layer st) ++ [Tile.imagePath tile]) (layer st))
          (gpuResourceCache st)
          (imageLoads st ++ [mkRetrieval url tile (Tile.imagePath tile)])
          (redrawEvents st)
  else st.

Definition removeFromCurrentRetrievals (imagePath : string) (layer : Layer)
    : Layer :=
  let index := Js.arrayIndexOf (currentRetrievals layer) imagePath in
  if index >? -1
  then setCurrentRetrievals (Js.splice1 index (currentRetrievals layer)) layer
  else layer.

(** [image.onload] of a retrieval, for the image that arrived. *)
Definition onload (r : Retrieval) (image : Image) (st : State) : State :=
  let texture := createTexture (layer st) (tile r) image in
  let st := onLayer (removeFromCurrentRetrievals (imagePath r)) st in
  match texture with
  | Some texture =>
      mkState
        (setAbsentResourceList
           (unmarkResourceAbsent (absentResourceList (layer st)) (imagePath r))
           (setCurrentTilesInvalid true (layer st)))
        (putResource (gpuResourceCache st) (imagePath r) texture (size texture))
        (imageLoads st)
        (S (redrawEvents st))
  | None => st
  end.

(** [image.onerror] of a retrieval. *)
Definition onerror (r : Retrieval) (st : State) : State :=
  let st := onLayer (removeFromCurrentRetrievals (imagePath r)) st in
  onLayer
    (fun layer =>
       setAbsentResourceList
         (markResourceAbsent (absentResourceList layer) (imagePath r)) layer)
    st.

(** ** The quadtree traversal *)

(** How a call of the traversal ends: it returns, it throws (the state is
    what the call had done before), or the model runs out of fuel. *)
Inductive Outcome :=
| Returned (st : State)
| Thrown (e : Error) (st : State)
| OutOfFuel.

Definition isTileVisible (dc : DrawContext) (tile : Tile.t) : bool :=
  match projectionLimits dc with
  | Some limits =>
      if negb (overlaps (Tile.sector tile) limits) then false
      else intersectsFrustum dc tile
  | None => intersectsFrustum dc tile
  end.

Definition isTextureExpired (layer : Layer) (texture : Texture) : bool :=
  match expiration layer with
  | Some expiration => Qle_bool (creationTime texture) expiration
  | None => false
  end.

Definition isTileTextureInMemory (st : State) (tile : Tile.t) : bool :=
  containsResource (gpuResourceCache st) (Tile.imagePath tile).

(** The local variable [s] of [tileMeetsRenderingCriteria]. *)
Definition detailFor (layer : Layer) (tile : Tile.t) : Q :=
  if Qle_bool 75 (minLatitude (Tile.sector tile))
     || Qle_bool (maxLatitude (Tile.sector tile)) (-75)
  then (detailControl layer * 1.2)%Q
  else detailControl layer.

Definition tileMeetsRenderingCriteria (layer : Layer) (dc : DrawContext)
    (tile : Tile.t) : bool :=
  let s := detailFor layer tile in
  (levelNumber (Tile.tileMatrix tile)
     =? Z.of_nat (length (tileMatrix (tileMatrixSet layer))) - 1)
  || negb (mustSubdivide dc tile s).

Definition pushCurrentTile (tile : Tile.t) (st : State) : State :=
  onLayer (fun layer => setCurrentTiles (currentTiles layer ++ [tile]) layer) st.

Definition addTile (dc : DrawContext) (tile : Tile.t) (st : State) : State :=
  match resourceForKey (gpuResourceCache st) (Tile.imagePath tile) with
  | Some texture =>
      let st := pushCurrentTile tile st in
      if isTextureExpired (layer st) texture
      then retrieveTileImage tile st
      else st
  | None =>
      let st := retrieveTileImage tile st in
      match currentAncestorTile (layer st) with
      | Some ancestor =>
          if isTileTextureInMemory st ancestor
          then pushCurrentTile ancestor st
          else st
      | None => st
      end
  end.

(** [a[k]] for an array index computed as a number. *)
Definition at_ {A : Type} (a : list A) (k : Z) : option A :=
  if k <? 0 then None else a !! Z.to_nat k.

(** The [finally] block of [addTileOrDescendants]. *)
Definition restoreAncestor (ancestorTile : option Tile.t) (st : State)
    : State :=
  match ancestorTile with
  | Some ancestor => onLayer (setCurrentAncestorTile (Some ancestor)) st
  | None => st
  end.

Definition finally (ancestorTile : option Tile.t) (o : Outcome) : Outcome :=
  match o with
  | Returned st => Returned (restoreAncestor ancestorTile st)
  | Thrown e st => Thrown e (restoreAncestor ancestorTile st)
  | OutOfFuel => OutOfFuel
  end.

(** The loop over [subTiles]; [descend] is the recursive call. *)
Fixpoint childLoop (descend : Tile.t -> State -> Outcome) (dc : DrawContext)
    (subTiles : list Tile.t) (st : State) : Outcome :=
  match subTiles with
  | [] => Returned st
  | child :: subTiles' =>
      match sector (layer st) with
      | None => Thrown noSector st
      | Some layerSector =>
          if intersects layerSector (Tile.sector child)
             && isTileVisible dc child
          then
            match descend child st with
            | Returned st => childLoop descend dc subTiles' st
            | o => o
            end
          else childLoop descend dc subTiles' st
      end
  end.

Fixpoint addTileOrDescendants (fuel : nat) (dc : DrawContext) (tile : Tile.t)
    (st : State) : Outcome :=
  match fuel with
  | O => OutOfFuel
  | S fuel =>
      if tileMeetsRenderingCriteria (layer st) dc tile
      then Returned (addTile dc tile st)
      else
        let becomesAncestor :=
          isTileTextureInMemory st tile
          || (levelNumber (Tile.tileMatrix tile) =? 0) in
        let ancestorTile :=
          if becomesAncestor then currentAncestorTile (layer st) else None in
        let st :=
          if becomesAncestor
          then onLayer (setCurrentAncestorTile (Some tile)) st else st in
        let nextLevel :=
          at_ (tileMatrix (tileMatrixSet (layer st)))
              (levelNumber (Tile.tileMatrix tile) + 1) in
        let '(subTiles, cache) :=
          subdivideToCache tile nextLevel (createTile (layer st))
            (tileCache (layer st)) in
        let st := onLayer (setTileCache cache) st in
        finally ancestorTile
          (childLoop (addTileOrDescendants fuel dc) dc subTiles st)
  end.

Definition createTopLevelTiles (st : State) : Outcome :=
  match at_ (tileMatrix (tileMatrixSet (layer st))) 0 with
  | None =>
      Thrown (TypeError "tileMatrix is undefined")
        (onLayer (setTopLevelTiles (Some [])) st)
  | Some tileMatrix =>
      let '(tiles, error) :=
        pushTopLevelTiles (layer st) tileMatrix (matrixCells tileMatrix) [] in
      let st := onLayer (setTopLevelTiles (Some tiles)) st in
      match error with
      | Some e => Thrown e st
      | None => Returned st
      end
  end.

(** The loop of [assembleTiles] over the top-level tiles. *)
Fixpoint topLevelLoop (fuel : nat) (dc : DrawContext)
    (tiles : list (option Tile.t)) (st : State) : Outcome :=
  match tiles with
  | [] => Returned st
  | None :: _ => Thrown (TypeError "tile is undefined") st
  | Some tile :: tiles' =>
      let st := onLayer (setCurrentAncestorTile None) st in
      if isTileVisible dc tile
      then
        match addTileOrDescendants fuel dc tile st with
        | Returned st => topLevelLoop fuel dc tiles' st
        | o => o
        end
      else topLevelLoop fuel dc tiles' st
  end.

Definition assembleTiles (fuel : nat) (dc : DrawContext) (st : State)
    : Outcome :=
  let st := onLayer (setCurrentTiles []) st in
  let created :=
    match topLevelTiles (layer st) with
    | None | Some [] => createTopLevelTiles st
    | Some _ => Returned st
    end in
  match created with
  | Returned st =>
      topLevelLoop fuel dc (default [] (topLevelTiles (layer st))) st
  | o => o
  end.
End Layer.

(** ** Rendering a frame *)

Section Rendering.

Context {W : Collaborators}.

(** The modelview-projection matrices of the navigator state, compared by
    [Matrix.equals]. *)
Variable Matrix : Type.
Variable equals : Matrix -> Matrix -> bool.

(** What [doRender] reads of the draw context: whether [dc.terrain] is
    set, [dc.navigatorState.modelviewProjection], [dc.globeStateKey], and
    the draw context the traversal is given. *)
Record Frame := mkFrame {
  terrain : bool;
  modelviewProjection : Matrix;
  globeStateKey : string;
  drawContext : DrawContext
}.

(** The layer with what [doRender] keeps from one frame to the next, and
    what it has handed over so far: the lists given to
    [dc.surfaceTileRenderer.renderTiles], in the order of the calls, and
    the image tile count of [dc.frameStatistics]. *)
Record Renderer := mkRenderer {
  state : State;
  lasTtMVP : option Matrix;
  lastGlobeStateKey : option string;
  inCurrentFrame : bool;
  renderTiles : list (list Tile.t);
  imageTileCount : Z
}.

(** How a call of [doRender] ends. *)
Inductive Rendered :=
| Drawn (r : Renderer)
| Failed (e : Error) (r : Renderer)
| Unfinished.

Definition doRender (fuel : nat) (dc : Frame) (this : Renderer) : Rendered :=
  if negb (terrain dc) then Drawn this
  else
    let assembled :=
      if currentTilesInvalid (layer (state this))
         || match lasTtMVP this with
            | None => true
            | Some last => negb (equals (modelviewProjection dc) last)
            end
         || match lastGlobeStateKey this with
            | None => true
            | Some key => negb (String.eqb (globeStateKey dc) key)
            end
      then
        assembleTiles fuel (drawContext dc)
          (onLayer (setCurrentTilesInvalid false) (state this))
      else Returned (state this) in
    match assembled with
    | Returned st =>
        let lasTtMVP := Some (modelviewProjection dc) in
        let lastGlobeStateKey := Some (globeStateKey dc) in
        if 0 <? Z.of_nat (length (currentTiles (layer st)))
        then
          Drawn (mkRenderer st lasTtMVP lastGlobeStateKey true
                   (renderTiles this ++ [currentTiles (layer st)])
                   (imageTileCount this
                    + Z.of_nat (length (currentTiles (layer st)))))
        else
          Drawn (mkRenderer st lasTtMVP lastGlobeStateKey (inCurrentFrame this)
                   (renderTiles this) (imageTileCount this))
    | Thrown e st =>
        Failed e
          (mkRenderer st (lasTtMVP this) (lastGlobeStateKey this)
             (inCurrentFrame this) (renderTiles this) (imageTileCount this))
    | OutOfFuel => Unfinished
    end.

End Rendering.

Arguments mkFrame {W Matrix}.
Arguments terrain {W Matrix}.
Arguments modelviewProjection {W Matrix}.
Arguments globeStateKey {W Matrix}.
Arguments drawContext {W Matrix}.
Arguments mkRenderer {W Matrix}.
Arguments state {W Matrix}.
Arguments lasTtMVP {W Matrix}.
Arguments lastGlobeStateKey {W Matrix}.
Arguments inCurrentFrame {W Matrix}.
Arguments renderTiles {W Matrix}.
Arguments imageTileCount {W Matrix}.
Arguments Drawn {W Matrix}.
Arguments Failed {W Matrix}.
Arguments Unfinished {W Matrix}.
Arguments doRender {W Matrix}.

(** ** A small world to run the layer in

    Collaborators simple enough to compute with: textures are images, the
    GPU resource cache is a finite map from keys to textures, the absent list
    is a set of keys that never expires, a tile subdivides into the four
    tiles of the next matrix that cover it, and a tile must subdivide when
    its texel size on screen, halved at every level, exceeds the detail
    control.  The inverse Gudermannian function, which no rational function
    computes, is replaced by the identity, which is increasing as it is. *)
Module Sample.

Definition quadrants (row column : Z) : list (Z * Z) :=
  [(2 * row, 2 * column); (2 * row, 2 * column + 1);
   (2 * row + 1, 2 * column); (2 * row + 1, 2 * column + 1)].

Definition subdivide (tile : Tile.t) (level : option TileMatrix)
    (createTile : TileMatrix -> Z -> Z -> result (option Tile.t))
    (cache : gset string) : list Tile.t * gset string :=
  match level with
  | None => ([], cache)
  | Some level =>
      let children :=
        omap (fun '(r, c) =>
                match createTile level r c with
                | Ok child => child
                | Throw _ => None
                end)
             (quadrants (Tile.row tile) (Tile.column tile)) in
      (children, list_to_set (Tile.imagePath <$> children) ∪ cache)
  end.

(** The draw context is the texel size, in pixels, of a tile of level 0. *)
Definition texelSize (dc : Q) (tile : Tile.t) : Q :=
  (dc / inject_Z (2 ^ levelNumber (Tile.tileMatrix tile)))%Q.

#[export] Instance collaborators : Collaborators := {|
  gudermannianInverse := fun latitude => latitude;
  epsg3857ToEpsg4326 := fun easting northing => (northing, easting);
  suffixForMimeType := fun _ => "png"%string;
  Texture := Image;
  newTexture := fun image => image;
  size := fun texture => Z.of_nat (4 * width texture * height texture);
  creationTime := fun _ => 0%Q;
  GpuResourceCache := gmap string Image;
  containsResource := fun cache key => bool_decide (is_Some (cache !! key));
  resourceForKey := fun cache key => cache !! key;
  putResource := fun cache key texture _ => <[key := texture]> cache;
  AbsentResourceList := gset string;
  newAbsentResourceList := fun _ _ => ∅;
  isResourceAbsent := fun absent key => (bool_decide (key ∈ absent), absent);
  markResourceAbsent := fun absent key => {[key]} ∪ absent;
  unmarkResourceAbsent := fun absent key => absent ∖ {[key]};
  MemoryCache := gset string;
  newMemoryCache := fun _ _ => ∅;
  subdivideToCache := subdivide;
  DrawContext := Q;
  mustSubdivide := fun dc tile s => negb (Qle_bool (texelSize dc tile) s);
  intersectsFrustum := fun _ _ => true;
  projectionLimits := fun _ => None;
  overlaps := fun _ _ => true;
  intersects := fun _ _ => true
|}.

Definition level (n : Z) (w h : Z) : TileMatrix :=
  {| identifier := Js.ofZ n; levelNumber := n;
     matrixWidth := w; matrixHeight := h;
     tileWidth := 256; tileHeight := 256;
     topLeftCorner := (90, -180)%Q; scaleDenominator := 1 |}.

(** A geographic pyramid of three levels, and a coarser one of two. *)
Definition geographic3 : TileMatrixSet :=
  {| tmsIdentifier := "EPSG:4326"; supportedCRS := "urn:ogc:def:crs:EPSG::4326";
     wellKnownScaleSet := None; tmsBoundingBox := None;
     tileMatrix := [level 0 2 1; level 1 4 2; level 2 8 4] |}.

Definition geographic2 : TileMatrixSet :=
  {| tmsIdentifier := "EPSG:4326-coarse";
     supportedCRS := "urn:ogc:def:crs:EPSG::4326";
     wellKnownScaleSet := None; tmsBoundingBox := None;
     tileMatrix := [level 0 2 1; level 1 4 2] |}.

(** A set whose first level after level 0 has four times its height. *)
Definition skipping : TileMatrixSet :=
  {| tmsIdentifier := "EPSG:4326-skip";
     supportedCRS := "urn:ogc:def:crs:EPSG::4326";
     wellKnownScaleSet := None; tmsBoundingBox := None;
     tileMatrix := [level 0 2 1; level 1 8 4] |}.

(** A set in a coordinate system the layer does not know. *)
Definition utm : TileMatrixSet :=
  {| tmsIdentifier := "UTM33"; supportedCRS := "urn:ogc:def:crs:EPSG::32633";
     wellKnownScaleSet := None; tmsBoundingBox := None;
     tileMatrix := [level 0 1 1; level 1 2 2] |}.

Definition world : BoundingBox :=
  {| lowerCorner := (-180, -90)%Q; upperCorner := (180, 90)%Q;
     crs := "urn:ogc:def:crs:OGC:2:84" |}.

Definition caps (sets : list TileMatrixSet) : Caps.t :=
  {| Caps.identifier := Some "imagery"%string;
     Caps.style := [Caps.mkStyle (Some "default"%string) true];
     Caps.dimension := None;
     Caps.formats := ["image/jpeg"; "image/png"]%string;
     Caps.resourceUrl :=
       Some [Caps.mkResourceUrl "image/png"
               (Some "https://tiles.example/{Style}/{TileMatrixSet}/{TileMatrix}/{TileRow}/{TileCol}.png"%string)];
     Caps.getGetTileKvpAddress := None;
     Caps.boundingBox := None;
     Caps.wgs84BoundingBox := Some world;
     Caps.titles := ["Imagery"%string];
     Caps.getLayerSupportedTileMatrixSets := sets |}.

Definition config (tms : TileMatrixSet) : Config.t :=
  {| Config.layerIdentifier := Some "imagery"%string;
     Config.styleIdentifier := Some "default"%string;
     Config.timeString := None;
     Config.imageFormat := Some "image/png"%string;
     Config.resourceUrl :=
       Some "https://tiles.example/{Style}/{TileMatrixSet}/{TileMatrix}/{TileRow}/{TileCol}.png"%string;
     Config.serviceUrl := None;
     Config.tileMatrixSet := Some tms;
     Config.boundingBox := None;
     Config.wgs84BoundingBox := Some world;
     Config.title := Some "Imagery"%string |}.

(** The layer the constructor builds for a tile matrix set; when the
    constructor throws, a layer without configuration that is never used. *)
Definition blank : Layer :=
  mkLayer None None None EmptyString None None geographic2 None EmptyString
    None 0 None [] true ∅ [] ∅ None None.

Definition layerFor (tms : TileMatrixSet) : Layer :=
  match WmtsLayer (Some (config tms)) with
  | Ok layer => layer
  | Throw _ => blank
  end.

Definition start (tms : TileMatrixSet) (cache : gmap string Image) : State :=
  mkState (layerFor tms) cache [] 0.

Definition pixel : Image := mkImage 1 1 [10; 20; 30; 255].

(** An image one pixel wide and two pixels high. *)
Definition strip : Image := mkImage 1 2 [10; 20; 30; 255; 40; 50; 60; 255].

(** A frame in which the texels of level 0 are 4 pixels wide. *)
Definition near : @DrawContext collaborators := 4%Q.

(** A tile between the latitudes 80 and 85. *)
Definition polarTile : Tile.t :=
  Tile.mk (mkSector 80 85 0 45) (level 0 2 1) 0 0 "polar".

(** The tile of level 0, row 0, column 0 of a layer. *)
Definition topLeftTile (tms : TileMatrixSet) : Tile.t :=
  match createTile (layerFor tms) (level 0 2 1) 0 0 with
  | Ok (Some tile) => tile
  | _ => Tile.mk (mkSector 0 0 0 0) (level 0 2 1) 0 0 EmptyString
  end.

End Sample.

(** The collaborators of [Sample] under a flat projection whose limits no
    tile overlaps: every tile is in the frustum and none is visible. *)
Module Flat.

#[export] Instance collaborators : Collaborators := {|
  gudermannianInverse := @gudermannianInverse Sample.collaborators;
  epsg3857ToEpsg4326 := @epsg3857ToEpsg4326 Sample.collaborators;
  suffixForMimeType := @suffixForMimeType Sample.collaborators;
  Texture := Image;
  newTexture := fun image => image;
  size := fun texture => Z.of_nat (4 * width texture * height texture);
  creationTime := fun _ => 0%Q;
  GpuResourceCache := gmap string Image;
  containsResource := fun cache key => bool_decide (is_Some (cache !! key));
  resourceForKey := fun cache key => cache !! key;
  putResource := fun cache key texture _ => <[key := texture]> cache;
  AbsentResourceList := gset string;
  newAbsentResourceList := fun _ _ => ∅;
  isResourceAbsent := fun absent key => (bool_decide (key ∈ absent), absent);
  markResourceAbsent := fun absent key => {[key]} ∪ absent;
  unmarkResourceAbsent := fun absent key => absent ∖ {[key]};
  MemoryCache := gset string;
  newMemoryCache := fun _ _ => ∅;
  subdivideToCache := Sample.subdivide;
  DrawContext := Q;
  mustSubdivide := @mustSubdivide Sample.collaborators;
  intersectsFrustum := fun _ _ => true;
  projectionLimits := fun _ => Some (mkSector (-85) 85 (-180) 180);
  overlaps := fun _ _ => false;
  intersects := fun _ _ => true
|}.

(** A layer of [Sample.geographic2] with its top-level tiles made. *)
Definition blank : Layer :=
  mkLayer None None None EmptyString None None Sample.geographic2 None
    EmptyString None 0 None [] true ∅ [] ∅ None None.

Definition start : State :=
  match WmtsLayer (Some (Sample.config Sample.geographic2)) with
  | Ok layer =>
      match createTopLevelTiles (mkState layer ∅ [] 0) with
      | Returned st => st
      | _ => mkState blank ∅ [] 0
      end
  | Throw _ => mkState blank ∅ [] 0
  end.

End Flat.

(** A layer of [Sample.geographic2] that is addressed with key-value pairs,
    a frame on it, and the renderer before its first frame: the top left
    tile has its texture. *)
Module Kvp.

Definition config : Config.t :=
  {| Config.layerIdentifier := Some "imagery"%string;
     Config.styleIdentifier := Some "default"%string;
     Config.timeString := None;
     Config.imageFormat := Some "image/png"%string;
     Config.resourceUrl := None;
     Config.serviceUrl := Some "https://tiles.example/wmts?"%string;
     Config.tileMatrixSet := Some Sample.geographic2;
     Config.boundingBox := None;
     Config.wgs84BoundingBox := Some Sample.world;
     Config.title := Some "Imagery"%string |}.

Definition layer : @Layer Sample.collaborators :=
  match WmtsLayer (Some config) with
  | Ok layer => layer
  | Throw _ => Sample.blank
  end.

Definition topLeftTile : Tile.t :=
  match createTile layer (Sample.level 0 2 1) 0 0 with
  | Ok (Some tile) => tile
  | _ => Tile.mk (mkSector 0 0 0 0) (Sample.level 0 2 1) 0 0 EmptyString
  end.

Definition start : @State Sample.collaborators :=
  mkState layer {[Tile.imagePath topLeftTile := Sample.pixel]} [] 0.

Definition frame : @Frame Sample.collaborators Z :=
  mkFrame true 7 "globe" Sample.near.

Definition renderer : @Renderer Sample.collaborators Z :=
  mkRenderer start None None false [] 0.

(** The layer after the traversal of its first frame. *)
Definition assembled : @State Sample.collaborators :=
  match assembleTiles 2 Sample.near start with
  | Returned st => st
  | _ => start
  end.

(** The renderer after its first frame. *)
Definition drawn : @Renderer Sample.collaborators Z :=
  match doRender Z.eqb 2 frame renderer with
  | Drawn next => next
  | _ => renderer
  end.

End Kvp.

(** A CRS84 layer described by a bounding box that is not in WGS84: the
    constructor accepts the configuration and determines no sector. *)
Module Regional.

Definition level (n : Z) (w h : Z) : TileMatrix :=
  {| identifier := Js.ofZ n; levelNumber := n;
     matrixWidth := w; matrixHeight := h;
     tileWidth := 256; tileHeight := 256;
     topLeftCorner := (-180, 90)%Q; scaleDenominator := 1 |}.

Definition set : TileMatrixSet :=
  {| tmsIdentifier := "CRS84"; supportedCRS := "urn:ogc:def:crs:OGC:1.3:CRS84";
     wellKnownScaleSet := None; tmsBoundingBox := None;
     tileMatrix := [level 0 2 1; level 1 4 2] |}.

Definition box : BoundingBox :=
  {| lowerCorner := (-20037508, -20037508)%Q;
     upperCorner := (20037508, 20037508)%Q;
     crs := "urn:ogc:def:crs:EPSG::3857" |}.

Definition config : Config.t :=
  {| Config.layerIdentifier := Some "imagery"%string;
     Config.styleIdentifier := Some "default"%string;
     Config.timeString := None;
     Config.imageFormat := Some "image/png"%string;
     Config.resourceUrl := None;
     Config.serviceUrl := Some "https://tiles.example/wmts?"%string;
     Config.tileMatrixSet := Some set;
     Config.boundingBox := Some [box];
     Config.wgs84BoundingBox := None;
     Config.title := Some "Imagery"%string |}.

Definition layer : @Layer Sample.collaborators :=
  match WmtsLayer (Some config) with
  | Ok layer => layer
  | Throw _ => Sample.blank
  end.

End Regional.

(** A geographic set whose second level has an odd height, and a frame
    close enough for every tile to have to subdivide. *)
Module Dropped.

Definition set : TileMatrixSet :=
  {| tmsIdentifier := "EPSG:4326-odd";
     supportedCRS := "urn:ogc:def:crs:EPSG::4326";
     wellKnownScaleSet := None; tmsBoundingBox := None;
     tileMatrix :=
       [Sample.level 0 2 1; Sample.level 1 6 3; Sample.level 2 4 2] |}.

Definition close : @DrawContext Sample.collaborators := 16%Q.

End Dropped.

(** ** Vocabulary of the statements *)

(** The coordinate systems the layer knows. *)
Definition supportedCrs (crs : string) : bool :=
  isEpsg4326Crs crs || isEpsg3857Crs crs || isOGCCrs84 crs.

(** The aspect ratio of a matrix follows the convention of the coordinate
    system: square for EPSG:3857, twice as wide as high otherwise. *)
Definition aspectRatioMatches (crs : string) (m : TileMatrix) : Prop :=
  if isEpsg3857Crs crs then matrixHeight m = matrixWidth m
  else matrixWidth m = 2 * matrixHeight m.

(** What a level other than level 0 must satisfy by itself to be kept. *)
Definition conforming (crs : string) (m : TileMatrix) : Prop :=
  aspectRatioMatches crs m
  /\ Z.even (matrixHeight m) = true /\ Z.even (matrixWidth m) = true
  /\ tileHeight m = tileWidth m /\ tileHeight m = 256.

(** Every level of the list is twice as high as the one before it. *)
Definition doubling (levels : list TileMatrix) : Prop :=
  forall (i : nat) a b,
    levels !! i = Some a -> levels !! S i = Some b ->
    matrixHeight b = 2 * matrixHeight a.

(** Every level of the list is twice as high as the one before it, unless
    that one has height 0. *)
Definition doublingNonZero (levels : list TileMatrix) : Prop :=
  forall (i : nat) a b,
    levels !! i = Some a -> levels !! S i = Some b ->
    matrixHeight a <> 0 -> matrixHeight b = 2 * matrixHeight a.

(** The height the level loop holds in [previousHeight]. *)
Definition lastHeight (levels : list TileMatrix) : Z :=
  match last levels with
  | Some m => matrixHeight m
  | None => 0
  end.

(** A candidate set survives the negotiation: its coordinate system is
    known and the level loop keeps at least two of its levels. *)
Definition survives (set : TileMatrixSet) : Prop :=
  supportedCrs (supportedCRS set) = true
  /\ (1 < length (compatibleLevels set))%nat.

#[global] Instance survives_dec (set : TileMatrixSet) : Decision (survives set).
Proof. unfold survives. apply _. Defined.

(** The set [convertTileMatrixSets] builds from a candidate. *)
Definition converted (set : TileMatrixSet) : TileMatrixSet :=
  convertedTileMatrixSet set (compatibleLevels set).

(** The sector of the tile lies entirely poleward of 75 degrees. *)
Definition poleward (tile : Tile.t) : Prop :=
  (75 <= minLatitude (Tile.sector tile))%Q
  \/ (maxLatitude (Tile.sector tile) <= -75)%Q.

Section Events.

Context {W : Collaborators}.







(** At most one retrieval is in flight per image path, and the in-flight
    list names exactly the image loads under way. *)
Definition oneRetrievalPerPath (st : State) : Prop :=
  NoDup (currentRetrievals (layer st))
  /\ imagePath <$> imageLoads st = currentRetrievals (layer st).

(** The property holds of the state an outcome carries. *)
Definition after (P : State -> Prop) (o : Outcome) : Prop :=
  match o with
  | Returned st => P st
  | Thrown _ st => P st
  | OutOfFuel => True
  end.

(** A property of the state that the steps of the traversal keep. *)
Record Kept (P : State -> Prop) : Prop := mkKept {
  kept_addTile : forall dc tile st, P st -> P (addTile dc tile st);
  kept_ancestor :
    forall a st, P st -> P (onLayer (setCurrentAncestorTile a) st);
  kept_tileCache : forall c st, P st -> P (onLayer (setTileCache c) st);
  kept_topLevelTiles :
    forall t st, P st -> P (onLayer (setTopLevelTiles t) st);
  kept_currentTiles : forall st, P st -> P (onLayer (setCurrentTiles []) st)
}.

(** The texture of the tile is in the GPU resource cache. *)
Definition resident (cache : GpuResourceCache) (tile : Tile.t) : Prop :=
  is_Some (resourceForKey cache (Tile.imagePath tile))
  \/ containsResource cache (Tile.imagePath tile) = true.

(** The levels of the set are numbered by their position. *)
Definition levelsNumbered (tms : TileMatrixSet) : Prop :=
  forall (i : nat) m, tileMatrix tms !! i = Some m -> levelNumber m = Z.of_nat i.

(** A tile subdivides into tiles that the tile factory makes for the next
    level. *)
Definition subdividesIntoNextLevel : Prop :=
  forall tile next factory cache child,
    child ∈ fst (subdivideToCache tile (Some next) factory cache) ->
    exists row column, factory next row column = Ok (Some child).

(** The last level of the layer's tile matrix set. *)
Definition lastLevel (layer : Layer) : Z :=
  Z.of_nat (length (tileMatrix (tileMatrixSet layer))) - 1.

(** What a frame leaves alone: the configuration of the layer that the
    traversal reads, and the GPU resource cache. *)
Definition sameFrame (st0 st : State) : Prop :=
  tileMatrixSet (layer st) = tileMatrixSet (layer st0)
  /\ sector (layer st) = sector (layer st0)
  /\ detailControl (layer st) = detailControl (layer st0)
  /\ gpuResourceCache st = gpuResourceCache st0.

(** The test under which [addTileOrDescendants] makes the tile the
    ancestor of record. *)
Definition recordsAncestor (st : State) (tile : Tile.t) : bool :=
  isTileTextureInMemory st tile || (levelNumber (Tile.tileMatrix tile) =? 0).

(** The top-level tiles, once made, are tiles of level 0. *)
Definition topLevelTilesReady (st : State) : Prop :=
  forall tiles,
    topLevelTiles (layer st) = Some tiles ->
    Forall (fun t => exists tile,
                t = Some tile /\ levelNumber (Tile.tileMatrix tile) = 0)
           tiles.

(** The layer addresses its tiles geographically: its tile matrix set is in
    EPSG:4326, or in OGC CRS84 and not taken for EPSG:3857. *)
Definition geographic (layer : Layer) : Prop :=
  isEpsg4326Crs (supportedCRS (tileMatrixSet layer)) = true
  \/ (isEpsg4326Crs (supportedCRS (tileMatrixSet layer)) = false
      /\ isEpsg3857Crs (supportedCRS (tileMatrixSet layer)) = false
      /\ isOGCCrs84 (supportedCRS (tileMatrixSet layer)) = true).

(** The latitude and the longitude of the top-left corner of a matrix, which
    EPSG:4326 gives in this order and CRS84 in the other. *)
Definition cornerLatitude (layer : Layer) (tm : TileMatrix) : Q :=
  if isEpsg4326Crs (supportedCRS (tileMatrixSet layer))
  then fst (topLeftCorner tm) else snd (topLeftCorner tm).

Definition cornerLongitude (layer : Layer) (tm : TileMatrix) : Q :=
  if isEpsg4326Crs (supportedCRS (tileMatrixSet layer))
  then snd (topLeftCorner tm) else fst (topLeftCorner tm).

(** The character occurs in the string. *)
Fixpoint occurs (a : ascii) (s : string) : Prop :=
  match s with
  | EmptyString => False
  | String b s' => a = b \/ occurs a s'
  end.

(** The characters of a decimal numeral. *)
Definition decimalChar (a : ascii) : bool :=
  existsb (Ascii.eqb a) (list_ascii_of_string "-0123456789").

(** The render list of a call that returned. *)
Definition renderList (o : Outcome) : option (list Tile.t) :=
  match o with
  | Returned st => Some (currentTiles (layer st))
  | _ => None
  end.

(** The ancestor of record left by a call that returned. *)
Definition ancestorLeft (o : Outcome) : option (option Tile.t) :=
  match o with
  | Returned st => Some (currentAncestorTile (layer st))
  | _ => None
  end.

(** The GPU resource cache returns the texture put under a key. *)
Definition cacheKeepsResource : Prop :=
  forall cache key texture size,
    resourceForKey (putResource cache key texture size) key = Some texture.

(** The absent list reports as absent a resource just marked absent. *)
Definition absentListRemembers : Prop :=
  forall absent key,
    fst (isResourceAbsent (markResourceAbsent absent key) key) = true.

(** What a frame may do to a state besides assembling the render list: it
    starts image loads and adds retrievals, after those there were. *)
Definition onlyRequests (st0 st : State) : Prop :=
  sameFrame st0 st
  /\ redrawEvents st = redrawEvents st0
  /\ imageLoads st0 `prefix_of` imageLoads st
  /\ currentRetrievals (layer st0) `prefix_of` currentRetrievals (layer st).

(** The frame can be run: the coordinate system of the layer is a supported
    one, the layer has a sector and at least one level, its levels are
    numbered by position, and tiles subdivide into the next level. *)
Definition runnable (st : State) : Prop :=
  supportedCrs (supportedCRS (tileMatrixSet (layer st))) = true
  /\ is_Some (sector (layer st))
  /\ tileMatrix (tileMatrixSet (layer st)) <> []
  /\ levelsNumbered (tileMatrixSet (layer st))
  /\ subdividesIntoNextLevel.

End Events.

(** * Properties *)

(** Closes an equation between two closed terms by evaluating them. *)
Ltac by_evaluation :=
  match goal with
  | |- ?x = ?y => vm_cast_no_check (@eq_refl _ y)
  end.

(** ** Capabilities negotiation *)

Lemma rem2_even (a : Z) : Z.rem a 2 = 0 -> Z.even a = true.
Proof.
  intros Hrem. rewrite (Z.quot_rem' a 2), Hrem, Z.add_0_r.
  rewrite Z.even_mul. reflexivity.
Qed.

Lemma doublingNonZero_snoc (levels : list TileMatrix) (m : TileMatrix) :
  doublingNonZero levels ->
  (lastHeight levels = 0 \/ matrixHeight m = 2 * lastHeight levels) ->
  doublingNonZero (levels ++ [m]).
Proof.
  intros Hchain Hlast i a b Ha Hb Hnz.
  destruct (decide (S i < length levels)%nat) as [Hlt | Hge].
  - rewrite lookup_app_l in Ha by lia. rewrite lookup_app_l in Hb by lia.
    eauto.
  - assert (S i = length levels) as Hi.
    { apply lookup_lt_Some in Hb. rewrite length_app in Hb. simpl in Hb. lia. }
    rewrite lookup_app_l in Ha by lia.
    rewrite lookup_app_r in Hb by lia.
    replace (S i - length levels)%nat with 0%nat in Hb by lia.
    simpl in Hb. injection Hb as <-.
    assert (last levels = Some a) as Hl.
    { rewrite last_lookup. rewrite <- Hi. simpl. exact Ha. }
    unfold lastHeight in Hlast. rewrite Hl in Hlast.
    destruct Hlast; [contradiction | assumption].
Qed.

Lemma lastHeight_snoc (levels : list TileMatrix) (m : TileMatrix) :
  lastHeight (levels ++ [m]) = matrixHeight m.
Proof. unfold lastHeight. rewrite last_snoc. reflexivity. Qed.

(** A pass of the level loop after level 0 either skips the level or
    appends it; it appends only a conforming level that doubles the
    previous height when there is one. *)
Lemma levelStep_after_level0 (crs : string) (j : nat) (m m0 : TileMatrix)
    (kept : list TileMatrix) :
  supportedCrs crs = true ->
  (0 < j)%nat ->
  levelStep crs j m (m0 :: kept, lastHeight kept) = (m0 :: kept, lastHeight kept)
  \/ (levelStep crs j m (m0 :: kept, lastHeight kept)
        = (m0 :: kept ++ [m], lastHeight (kept ++ [m]))
      /\ conforming crs m
      /\ (lastHeight kept = 0 \/ matrixHeight m = 2 * lastHeight kept)).
Proof.
  intros Hcrs Hj. unfold levelStep.
  destruct (Nat.eqb_spec j 0) as [-> | _]; [lia |].
  destruct (isEpsg3857Crs crs) eqn:H3857.
  - destruct (Z.eqb_spec (matrixHeight m) (matrixWidth m)) as [Hsq | _];
      simpl; [| by left].
    destruct (Z.eqb_spec (Z.rem (matrixHeight m) 2) 0) as [Hh | _];
      simpl; [| by left].
    destruct (Z.eqb_spec (Z.rem (matrixWidth m) 2) 0) as [Hw | _];
      simpl; [| by left].
    destruct (Z.eqb_spec (tileHeight m) (tileWidth m)) as [Ht | _];
      simpl; [| by left].
    destruct (Z.eqb_spec (tileHeight m) 256) as [H256 | _];
      simpl; [| by left].
    destruct (Z.eqb_spec (lastHeight kept) 0) as [Hp | Hp]; simpl.
    + right. rewrite lastHeight_snoc. repeat split; auto using rem2_even.
      unfold aspectRatioMatches. by rewrite H3857.
    + destruct (Z.eqb_spec (2 * lastHeight kept) (matrixHeight m)) as [Hd | _];
        [| by left].
      right. rewrite lastHeight_snoc. repeat split; auto using rem2_even.
      unfold aspectRatioMatches. by rewrite H3857.
  - assert (isEpsg4326Crs crs || isOGCCrs84 crs = true) as ->.
    { unfold supportedCrs in Hcrs. rewrite H3857 in Hcrs.
      destruct (isEpsg4326Crs crs); simpl in *; auto. }
    destruct (Z.eqb_spec (matrixHeight m * 2) (matrixWidth m)) as [Hsq | _];
      simpl; [| by left].
    destruct (Z.eqb_spec (Z.rem (matrixHeight m) 2) 0) as [Hh | _];
      simpl; [| by left].
    destruct (Z.eqb_spec (Z.rem (matrixWidth m) 2) 0) as [Hw | _];
      simpl; [| by left].
    destruct (Z.eqb_spec (tileHeight m) (tileWidth m)) as [Ht | _];
      simpl; [| by left].
    destruct (Z.eqb_spec (tileHeight m) 256) as [H256 | _];
      simpl; [| by left].
    destruct (Z.eqb_spec (lastHeight kept) 0) as [Hp | Hp]; simpl.
    + right. rewrite lastHeight_snoc. repeat split; auto using rem2_even.
      unfold aspectRatioMatches. rewrite H3857. lia.
    + destruct (Z.eqb_spec (2 * lastHeight kept) (matrixHeight m)) as [Hd | _];
        [| by left].
      right. rewrite lastHeight_snoc. repeat split; auto using rem2_even.
      unfold aspectRatioMatches. rewrite H3857. lia.
Qed.

(** The level loop after level 0: what it has kept grows by a sublist of
    the levels it walks, all conforming, in a doubling chain. *)
Lemma levelLoop_after_level0 (crs : string) (levels : list TileMatrix) :
  supportedCrs crs = true ->
  forall (j : nat) (m0 : TileMatrix) (kept : list TileMatrix),
    (0 < j)%nat ->
    Forall (conforming crs) kept ->
    doublingNonZero kept ->
    exists added,
      fst (levelLoop crs j levels (m0 :: kept, lastHeight kept))
        = m0 :: kept ++ added
      /\ added `sublist_of` levels
      /\ Forall (conforming crs) (kept ++ added)
      /\ doublingNonZero (kept ++ added).
Proof.
  intros Hcrs. induction levels as [| m levels IH]; intros j m0 kept Hj Hall Hchain.
  - exists []. rewrite app_nil_r. simpl. repeat split; auto.
  - cbn [levelLoop].
    destruct (levelStep_after_level0 crs j m m0 kept Hcrs Hj)
      as [-> | (-> & Hconf & Hdouble)].
    + destruct (IH (S j) m0 kept) as (added & Hfst & Hsub & Hall' & Hchain');
        [lia | assumption | assumption |].
      exists added. repeat split; auto. by apply sublist_cons.
    + destruct (IH (S j) m0 (kept ++ [m]))
        as (added & Hfst & Hsub & Hall' & Hchain').
      * lia.
      * apply Forall_app. split; [assumption |]. by constructor.
      * by apply doublingNonZero_snoc.
      * exists (m :: added). rewrite <- app_assoc in Hfst, Hall', Hchain'.
        simpl in Hfst, Hall', Hchain'. repeat split; auto.
        by apply sublist_skip.
Qed.

(** What the level loop keeps of a candidate set in a supported coordinate
    system. *)
Lemma compatibleLevels_spec (set : TileMatrixSet) :
  supportedCrs (supportedCRS set) = true ->
  head (compatibleLevels set) = head (tileMatrix set)
  /\ tail (compatibleLevels set) `sublist_of` tail (tileMatrix set)
  /\ Forall (conforming (supportedCRS set)) (tail (compatibleLevels set))
  /\ doublingNonZero (tail (compatibleLevels set)).
Proof.
  intros Hcrs. unfold compatibleLevels.
  destruct (tileMatrix set) as [| m0 levels].
  - simpl. repeat split; auto. intros i a b Ha. by destruct i.
  - simpl.
    destruct (levelLoop_after_level0 (supportedCRS set) levels Hcrs 1 m0 [])
      as (added & Hfst & Hsub & Hall & Hchain).
    + lia.
    + constructor.
    + intros i a b Ha. by destruct i.
    + change (lastHeight []) with 0 in Hfst. rewrite Hfst. simpl.
      repeat split; auto.
Qed.

Lemma convertStep_fold (sets : list TileMatrixSet) :
  forall done,
    fold_left convertStep sets done
    = done ++ (converted <$> filter survives sets).
Proof.
  induction sets as [| set sets IH]; intros done; simpl.
  - by rewrite app_nil_r.
  - rewrite IH. unfold convertStep at 1. fold (supportedCrs (supportedCRS set)).
    rewrite filter_cons.
    destruct (decide (survives set)) as [[Hcrs Hlen] | Hno].
    + rewrite Hcrs. cbn [negb].
      destruct (Nat.ltb_spec 1 (length (compatibleLevels set))); [| lia].
      rewrite fmap_cons, <- app_assoc. reflexivity.
    + destruct (supportedCrs (supportedCRS set)) eqn:Hcrs; cbn [negb];
        [| reflexivity].
      destruct (Nat.ltb_spec 1 (length (compatibleLevels set))) as [Hlen | Hlen];
        [| reflexivity].
      exfalso. apply Hno. split; assumption.
Qed.

(** C3 (as amended).  [convertTileMatrixSets] keeps exactly the candidate
    sets in a supported coordinate system of which the level loop retains at
    least two levels.  Of such a set, level 0 is always retained; a later
    level is retained only if its aspect ratio matches the convention of the
    coordinate system, both matrix dimensions are even, its tiles are square
    and 256 pixels high, and its matrixHeight is exactly double that of the
    level retained before it, when that level is not level 0 and its height
    is not 0: the first level retained after level 0 is not compared with
    level 0. *)
Theorem convertTileMatrixSets_retains_conforming_chain
    (caps : Caps.t) (sets : list TileMatrixSet) :
  convertTileMatrixSets (Some caps) = Ok sets ->
  (forall set', set' ∈ sets <->
     exists set, set ∈ Caps.getLayerSupportedTileMatrixSets caps
                 /\ survives set /\ set' = converted set)
  /\ (forall set,
        set ∈ Caps.getLayerSupportedTileMatrixSets caps ->
        supportedCrs (supportedCRS set) = true ->
        tileMatrix (converted set) = compatibleLevels set
        /\ head (compatibleLevels set) = head (tileMatrix set)
        /\ tail (compatibleLevels set) `sublist_of` tail (tileMatrix set)
        /\ Forall (conforming (supportedCRS set)) (tail (compatibleLevels set))
        /\ doublingNonZero (tail (compatibleLevels set))).
Proof.
  intros Hconv. simpl in Hconv. injection Hconv as <-.
  rewrite convertStep_fold. simpl. split.
  - intros set'. rewrite list_elem_of_fmap. split.
    + intros (set & -> & Hin). apply list_elem_of_filter in Hin as [Hs Hin].
      exists set. auto.
    + intros (set & Hin & Hs & ->). exists set. split; [reflexivity |].
      apply list_elem_of_filter. auto.
  - intros set _ Hcrs. split; [reflexivity |].
    by apply compatibleLevels_spec.
Qed.

Lemma convertTileMatrixSets_retains_conforming_chain_witness :
  (forall set', set' ∈ [converted Sample.geographic3] <->
     exists set, set ∈ [Sample.geographic3; Sample.utm]
                 /\ survives set /\ set' = converted set)
  /\ (forall set,
        set ∈ [Sample.geographic3; Sample.utm] ->
        supportedCrs (supportedCRS set) = true ->
        tileMatrix (converted set) = compatibleLevels set
        /\ head (compatibleLevels set) = head (tileMatrix set)
        /\ tail (compatibleLevels set) `sublist_of` tail (tileMatrix set)
        /\ Forall (conforming (supportedCRS set)) (tail (compatibleLevels set))
        /\ doublingNonZero (tail (compatibleLevels set))).
Proof.
  apply (convertTileMatrixSets_retains_conforming_chain
           (Sample.caps [Sample.geographic3; Sample.utm])).
  vm_compute. reflexivity.
Defined.

(** C3 (as stated) fails: of a geographic set whose level 0 is 1 matrix row
    high and whose next level is 4 rows high, both levels are retained,
    although 4 is not the double of 1. *)
Lemma convertTileMatrixSets_ignores_level0_height :
  convertTileMatrixSets (Some (Sample.caps [Sample.skipping]))
    = Ok [converted Sample.skipping]
  /\ tileMatrix (converted Sample.skipping) = tileMatrix Sample.skipping
  /\ ~ doubling (tileMatrix (converted Sample.skipping)).
Proof.
  split; [vm_compute; reflexivity |]. split; [vm_compute; reflexivity |].
  intros Hdouble.
  specialize (Hdouble 0%nat (Sample.level 0 2 1) (Sample.level 1 8 4)
                eq_refl eq_refl).
  vm_compute in Hdouble. discriminate.
Qed.

(** The selection loop leaves in [tms] the last set it visited. *)
Lemma selectStep_fold (sets : list TileMatrixSet) :
  forall vars,
    snd (fold_left selectStep sets vars)
    = match last sets with
      | Some tms => Some tms
      | None => snd vars
      end.
Proof.
  induction sets as [| tms sets IH]; intros vars; [reflexivity |].
  cbn [fold_left]. rewrite IH.
  destruct sets as [| tms' sets'].
  - destruct vars as [[highest |] t]; reflexivity.
  - rewrite last_cons_cons.
    destruct (last (tms' :: sets')) eqn:Hlast; [reflexivity |].
    apply last_None in Hlast. discriminate.
Qed.

(** Whatever the capabilities, the configuration holds the last compatible
    set, not the one with the most levels. *)
Lemma createConfigurationFromLayer_tileMatrixSet
    (fixGetMapString : string -> string) (caps : Caps.t) (config : Config.t) :
  createConfigurationFromLayer fixGetMapString (Some caps) = Ok config ->
  Config.tileMatrixSet config
  = last (converted <$> filter survives (Caps.getLayerSupportedTileMatrixSets caps)).
Proof.
  unfold createConfigurationFromLayer.
  destruct (negb (Js.truthy _)); [discriminate |].
  destruct (match Caps.resourceUrl caps with Some (r :: rs) => _ | _ => _ end)
    as [resourceUrl serviceUrl].
  destruct (negb _ && negb _); [discriminate |].
  simpl convertTileMatrixSets. rewrite convertStep_fold. simpl app.
  set (sets := converted <$> _).
  destruct (0 <? length sets)%nat eqn:Hlen; [| discriminate].
  pose proof (selectStep_fold sets (None, None)) as Hsel.
  destruct (fold_left selectStep sets (None, None)) as [highest tms].
  intros [= <-]. simpl in *. rewrite Hsel.
  destruct (last sets) eqn:Hlast; [reflexivity |].
  apply last_None in Hlast. rewrite Hlast in Hlen. discriminate.
Qed.

(** C1 (defect of the code).  For capabilities that offer a pyramid of
    three levels followed by one of two, both compatible,
    [createConfigurationFromLayer] sets [config.tileMatrixSet] to the set of
    two levels, the last one visited, although the first has more levels. *)
Theorem createConfigurationFromLayer_takes_last_visited
    (fixGetMapString : string -> string) :
  convertTileMatrixSets
    (Some (Sample.caps [Sample.geographic3; Sample.geographic2]))
    = Ok [converted Sample.geographic3; converted Sample.geographic2]
  /\ (exists config,
        createConfigurationFromLayer fixGetMapString
          (Some (Sample.caps [Sample.geographic3; Sample.geographic2]))
        = Ok config
        /\ Config.tileMatrixSet config = Some (converted Sample.geographic2))
  /\ (length (tileMatrix (converted Sample.geographic2))
      < length (tileMatrix (converted Sample.geographic3)))%nat.
Proof.
  split; [vm_compute; reflexivity |]. split.
  - eexists. split; vm_compute; reflexivity.
  - vm_compute. lia.
Qed.

(** ** Tile addressing *)

Section Addressing.

Context {W : Collaborators}.

Lemma createTile_4326 (layer : Layer) (tm : TileMatrix) (row column : Z) :
  isEpsg4326Crs (supportedCRS (tileMatrixSet layer)) = true ->
  createTile layer tm row column
  = match createTile4326 layer tm row column with
    | Ok tile => Ok (Some tile)
    | Throw e => Throw e
    end.
Proof. intros Hcrs. unfold createTile. by rewrite Hcrs. Qed.

Lemma createTile_crs84 (layer : Layer) (tm : TileMatrix) (row column : Z) :
  isEpsg4326Crs (supportedCRS (tileMatrixSet layer)) = false ->
  isEpsg3857Crs (supportedCRS (tileMatrixSet layer)) = false ->
  isOGCCrs84 (supportedCRS (tileMatrixSet layer)) = true ->
  createTile layer tm row column
  = match createTileCrs84 layer tm row column with
    | Ok tile => Ok (Some tile)
    | Throw e => Throw e
    end.
Proof. intros H1 H2 H3. unfold createTile. by rewrite H1, H2, H3. Qed.

(** A tile is made for the matrix, row and column asked for. *)
Lemma createTile_address (layer : Layer) (tm : TileMatrix) (row column : Z)
    (tile : Tile.t) :
  createTile layer tm row column = Ok (Some tile) ->
  Tile.tileMatrix tile = tm /\ Tile.row tile = row /\ Tile.column tile = column.
Proof.
  unfold createTile, createTile4326, createTileCrs84, createTile3857.
  destruct (isEpsg4326Crs _).
  { destruct (sector layer); intros [= <-]; auto. }
  destruct (isEpsg3857Crs _).
  { intros [= <-]; auto. }
  destruct (isOGCCrs84 _); [| discriminate].
  destruct (sector layer); intros [= <-]; auto.
Qed.




(** C10.  When the coordinate system of the layer's tile matrix set is
    none of EPSG:4326, EPSG:3857 (or 900913) and OGC CRS84, [createTile]
    returns undefined without throwing and makes no tile, and
    [createTexture] returns undefined for a decoded image. *)
Theorem unsupported_crs_yields_undefined (layer : Layer) (tm : TileMatrix)
    (row column : Z) (tile : Tile.t) (image : Image) :
  isEpsg4326Crs (supportedCRS (tileMatrixSet layer)) = false ->
  isEpsg3857Crs (supportedCRS (tileMatrixSet layer)) = false ->
  isOGCCrs84 (supportedCRS (tileMatrixSet layer)) = false ->
  createTile layer tm row column = Ok None
  /\ createTexture layer tile image = None.
Proof.
  intros H1 H2 H3. unfold createTile, createTexture.
  rewrite H1, H2, H3. split; reflexivity.
Qed.

(** ** The rendering criterion *)

Lemma detailFor_poleward (layer : Layer) (tile : Tile.t) :
  poleward tile -> detailFor layer tile = (detailControl layer * 1.2)%Q.
Proof.
  intros Hpole. unfold detailFor.
  destruct Hpole as [Hn | Hs].
  - apply Qle_bool_iff in Hn. by rewrite Hn.
  - apply Qle_bool_iff in Hs. rewrite Hs. by rewrite orb_true_r.
Qed.

Lemma detailFor_not_poleward (layer : Layer) (tile : Tile.t) :
  ~ poleward tile -> detailFor layer tile = detailControl layer.
Proof.
  intros Hpole. unfold detailFor.
  destruct (Qle_bool 75 _) eqn:Hn.
  { exfalso. apply Hpole. left. by apply Qle_bool_iff. }
  destruct (Qle_bool _ (-75)) eqn:Hs.
  { exfalso. apply Hpole. right. by apply Qle_bool_iff. }
  reflexivity.
Qed.

Lemma WmtsLayer_detailControl (config : option Config.t) (layer : Layer) :
  WmtsLayer config = Ok layer -> detailControl layer = 1.75%Q.
Proof.
  unfold WmtsLayer. intros Hnew.
  repeat match type of Hnew with
         | match ?x with _ => _ end = _ => destruct x; try discriminate
         | (if ?b then _ else _) = _ => destruct b; try discriminate
         end.
  all: by injection Hnew as <-.
Qed.

(** [tileMeetsRenderingCriteria] is true for a tile whose matrix has the
    level number [length - 1]; for any other tile it is the negation of
    [tile.mustSubdivide(dc, s)], where [s] is the layer's detailControl
    (1.75 as the constructor sets it) multiplied by 1.2 exactly when the
    sector of the tile lies entirely poleward of 75 degrees.  With the
    default, a tile at latitude 80 is judged against 2.1. *)
Lemma tileMeetsRenderingCriteria_spec (layer : Layer) (dc : DrawContext)
    (tile : Tile.t) :
  (levelNumber (Tile.tileMatrix tile)
     = Z.of_nat (length (tileMatrix (tileMatrixSet layer))) - 1 ->
   tileMeetsRenderingCriteria layer dc tile = true)
  /\ (levelNumber (Tile.tileMatrix tile)
        <> Z.of_nat (length (tileMatrix (tileMatrixSet layer))) - 1 ->
      tileMeetsRenderingCriteria layer dc tile
      = negb (mustSubdivide dc tile (detailFor layer tile)))
  /\ (poleward tile -> detailFor layer tile = (detailControl layer * 1.2)%Q)
  /\ (~ poleward tile -> detailFor layer tile = detailControl layer)
  /\ (forall config, WmtsLayer config = Ok layer ->
                     detailControl layer = 1.75%Q)
  /\ (detailControl layer = 1.75%Q ->
      (80 <= minLatitude (Tile.sector tile))%Q ->
      (detailFor layer tile == 2.1)%Q).
Proof.
  repeat split.
  - intros Hlast. unfold tileMeetsRenderingCriteria.
    apply Z.eqb_eq in Hlast. by rewrite Hlast.
  - intros Hlast. unfold tileMeetsRenderingCriteria.
    apply Z.eqb_neq in Hlast. by rewrite Hlast.
  - apply detailFor_poleward.
  - apply detailFor_not_poleward.
  - intros config. apply WmtsLayer_detailControl.
  - intros Hdefault H80. rewrite detailFor_poleward.
    + rewrite Hdefault. reflexivity.
    + left. eapply Qle_trans; [| exact H80]. discriminate.
Qed.

End Addressing.



Lemma unsupported_crs_yields_undefined_witness :
  createTile (Sample.layerFor Sample.utm) (Sample.level 0 1 1) 0 0 = Ok None
  /\ createTexture (Sample.layerFor Sample.utm) Sample.polarTile Sample.pixel
     = None.
Proof.
  apply (unsupported_crs_yields_undefined (Sample.layerFor Sample.utm));
    vm_compute; reflexivity.
Defined.

Lemma tileMeetsRenderingCriteria_spec_witness :
  (detailFor (Sample.layerFor Sample.geographic2) Sample.polarTile == 2.1)%Q
  /\ tileMeetsRenderingCriteria (Sample.layerFor Sample.geographic2) Sample.near
       Sample.polarTile
     = negb (mustSubdivide Sample.near Sample.polarTile
               (detailFor (Sample.layerFor Sample.geographic2) Sample.polarTile)).
Proof.
  destruct (tileMeetsRenderingCriteria_spec
              (Sample.layerFor Sample.geographic2) Sample.near Sample.polarTile)
    as (_ & Hother & _ & _ & Hdefault & H80).
  split.
  - apply H80.
    + apply (Hdefault (Some (Sample.config Sample.geographic2))).
      by_evaluation.
    + vm_compute. discriminate.
  - apply Hother. vm_compute. discriminate.
Defined.

(** C8.  The last level of the set a layer has negotiated is not always
    accepted.  Of the levels 2x1, 6x3 and 4x2, numbered 0, 1 and 2,
    [convertTileMatrixSets] drops the second, whose height is odd; the set
    of the layer has two levels, and the matrix of its last level still has
    the level number 2, which is not [length - 1].  A tile of that level
    that would have to subdivide does not meet the rendering criteria. *)
Theorem tileMeetsRenderingCriteria_misses_last_level :
  let config := Sample.config (converted Dropped.set) in
  let layer := Sample.layerFor (converted Dropped.set) in
  let final := Sample.level 2 4 2 in
  createConfigurationFromLayer (fun s => s)
    (Some (Sample.caps [Dropped.set])) = Ok config
  /\ WmtsLayer (Some config) = Ok layer
  /\ tileMatrix (tileMatrixSet layer) = [Sample.level 0 2 1; final]
  /\ last (tileMatrix (tileMatrixSet layer)) = Some final
  /\ levelNumber final = 2
  /\ lastLevel layer = 1
  /\ exists tile,
       createTile layer final 0 0 = Ok (Some tile)
       /\ mustSubdivide Dropped.close tile (detailFor layer tile) = true
       /\ tileMeetsRenderingCriteria layer Dropped.close tile = false.
Proof.
  intros config layer final.
  split; [vm_compute; reflexivity |].
  split; [by_evaluation |].
  split; [vm_compute; reflexivity |].
  split; [vm_compute; reflexivity |].
  split; [reflexivity |].
  split; [vm_compute; reflexivity |].
  eexists. split; [reflexivity |]. split; by_evaluation.
Qed.

(** ** The retrieval pipeline *)

Lemma arrayIndexOfFrom_absent (a : list string) (x : string) :
  x ∉ a -> forall i, Js.arrayIndexOfFrom i a x = -1.
Proof.
  induction a as [| y a IH]; intros Hnot i; [reflexivity |].
  simpl. apply not_elem_of_cons in Hnot as [Hne Hnot].
  destruct (String.eqb_spec y x) as [-> | _]; [contradiction |].
  by apply IH.
Qed.

Lemma arrayIndexOfFrom_present (a : list string) (x : string) :
  x ∈ a ->
  forall i, exists n : nat,
    Js.arrayIndexOfFrom i a x = i + Z.of_nat n
    /\ a !! n = Some x
    /\ forall m : nat, (m < n)%nat -> a !! m <> Some x.
Proof.
  induction a as [| y a IH]; intros Hin i.
  - by apply elem_of_nil in Hin.
  - simpl. destruct (String.eqb_spec y x) as [-> | Hne].
    + exists 0%nat. repeat split; [lia | lia].
    + apply elem_of_cons in Hin as [-> | Hin]; [contradiction |].
      destruct (IH Hin (i + 1)) as (n & Hidx & Hn & Hfirst).
      exists (S n). repeat split; [lia | assumption |].
      intros [| m] Hm; simpl; [congruence |]. apply Hfirst. lia.
Qed.

Lemma arrayIndexOf_negative (a : list string) (x : string) :
  (Js.arrayIndexOf a x <? 0) = true <-> x ∉ a.
Proof.
  unfold Js.arrayIndexOf. split.
  - intros Hneg Hin.
    destruct (arrayIndexOfFrom_present a x Hin 0) as (n & Hidx & _).
    rewrite Hidx in Hneg. apply Z.ltb_lt in Hneg. lia.
  - intros Hnot. by rewrite arrayIndexOfFrom_absent.
Qed.

Section Retrieval.

Context {W : Collaborators}.




(** What a call of [retrieveTileImage] comes to. *)
Lemma retrieveTileImage_cases (tile : Tile.t) (st : State) :
  ((Tile.imagePath tile ∈ currentRetrievals (layer st))
   /\ retrieveTileImage tile st = st)
  \/ ((Tile.imagePath tile ∉ currentRetrievals (layer st))
      /\ exists l,
           currentRetrievals l = currentRetrievals (layer st)
           /\ currentAncestorTile l = currentAncestorTile (layer st)
           /\ currentTiles l = currentTiles (layer st)
           /\ tileMatrixSet l = tileMatrixSet (layer st)
           /\ sector l = sector (layer st)
           /\ detailControl l = detailControl (layer st)
           /\ (retrieveTileImage tile st
                 = mkState l (gpuResourceCache st) (imageLoads st)
                     (redrawEvents st)
               \/ exists url,
                    retrieveTileImage tile st
                    = mkState
                        (setCurrentRetrievals
                           (currentRetrievals l ++ [Tile.imagePath tile]) l)
                        (gpuResourceCache st)
                        (imageLoads st
                           ++ [mkRetrieval url tile (Tile.imagePath tile)])
                        (redrawEvents st))).
Proof.
  unfold retrieveTileImage.
  destruct (Js.arrayIndexOf _ _ <? 0) eqn:Hidx.
  - right. apply arrayIndexOf_negative in Hidx. split; [assumption |].
    destruct (isResourceAbsent _ _) as [absent absentList].
    destruct absent.
    + exists (setAbsentResourceList absentList (layer st)).
      repeat split. by left.
    + cbn [layer onLayer].
      destruct (String.eqb _ EmptyString).
      * exists (setCurrentTilesInvalid true
                  (setAbsentResourceList absentList (layer st))).
        repeat split. by left.
      * exists (setAbsentResourceList absentList (layer st)).
        repeat split. right. eexists. reflexivity.
  - left. split; [| reflexivity].
    destruct (decide (Tile.imagePath tile ∈ currentRetrievals (layer st)))
      as [Hin | Hnot]; [assumption |].
    apply arrayIndexOf_negative in Hnot. congruence.
Qed.





Lemma pushCurrentTile_oneRetrievalPerPath (tile : Tile.t) (st : State) :
  oneRetrievalPerPath st -> oneRetrievalPerPath (pushCurrentTile tile st).
Proof. intros Hinv. exact Hinv. Qed.



End Retrieval.

(** ** The quadtree traversal *)

Section Traversal.

Context {W : Collaborators}.

Lemma finally_after (P : State -> Prop) (ancestorTile : option Tile.t)
    (o : Outcome) :
  Kept P -> after P o -> after P (finally ancestorTile o).
Proof.
  intros HP Ho.
  destruct o as [st | e st |], ancestorTile as [a |]; simpl in *; auto;
    by apply kept_ancestor.
Qed.

Lemma childLoop_after (P : State -> Prop)
    (descend : Tile.t -> State -> Outcome) (dc : DrawContext)
    (subTiles : list Tile.t) :
  (forall child st, P st -> after P (descend child st)) ->
  forall st, P st -> after P (childLoop descend dc subTiles st).
Proof.
  intros Hdescend. induction subTiles as [| child subTiles IH]; intros st Hst.
  - exact Hst.
  - simpl. destruct (sector (layer st)); [| exact Hst].
    destruct (_ && _); [| by apply IH].
    specialize (Hdescend child st Hst).
    destruct (descend child st); simpl in *; auto.
Qed.

(** A property that the steps of the traversal keep holds when
    [addTileOrDescendants] returns or throws. *)
Lemma addTileOrDescendants_after (P : State -> Prop) :
  Kept P ->
  forall fuel dc tile st, P st -> after P (addTileOrDescendants fuel dc tile st).
Proof.
  intros HP. induction fuel as [| fuel IH]; intros dc tile st Hst; [exact I |].
  simpl. destruct (tileMeetsRenderingCriteria _ _ _).
  { by apply kept_addTile. }
  set (becomesAncestor := isTileTextureInMemory st tile || _).
  set (st1 := if becomesAncestor then _ else st).
  assert (P st1) as Hst1.
  { subst st1. destruct becomesAncestor; [by apply kept_ancestor | assumption]. }
  destruct (subdivideToCache _ _ _ _) as [subTiles cache].
  apply finally_after; [assumption |].
  apply childLoop_after.
  - intros child st' Hst'. by apply IH.
  - by apply kept_tileCache.
Qed.

Lemma createTopLevelTiles_after (P : State -> Prop) (st : State) :
  Kept P -> P st -> after P (createTopLevelTiles st).
Proof.
  intros HP Hst. unfold createTopLevelTiles.
  destruct (at_ _ _) as [tm |]; simpl; [| by apply kept_topLevelTiles].
  destruct (pushTopLevelTiles _ _ _ _) as [tiles [e |]]; simpl;
    by apply kept_topLevelTiles.
Qed.

Lemma topLevelLoop_after (P : State -> Prop) (fuel : nat) (dc : DrawContext)
    (tiles : list (option Tile.t)) :
  Kept P ->
  forall st, P st -> after P (topLevelLoop fuel dc tiles st).
Proof.
  intros HP. induction tiles as [| [tile |] tiles IH]; intros st Hst;
    simpl; try assumption.
  pose proof (kept_ancestor P HP None st Hst) as Hst'.
  destruct (isTileVisible dc tile); [| by apply IH].
  pose proof (addTileOrDescendants_after P HP fuel dc tile _ Hst') as Hafter.
  destruct (addTileOrDescendants _ _ _ _); simpl in *; auto.
Qed.

(** A property that the steps of the traversal keep, and that holds once
    [currentTiles] is emptied, holds when [assembleTiles] returns or
    throws. *)
Lemma assembleTiles_after_reset (P : State -> Prop) (fuel : nat)
    (dc : DrawContext) (st : State) :
  Kept P -> P (onLayer (setCurrentTiles []) st) ->
  after P (assembleTiles fuel dc st).
Proof.
  intros HP Hst0. unfold assembleTiles.
  set (st0 := onLayer (setCurrentTiles []) st) in *.
  assert (after P (match topLevelTiles (layer st0) with
                   | None | Some [] => createTopLevelTiles st0
                   | Some _ => Returned st0
                   end)) as Hcreated.
  { destruct (topLevelTiles (layer st0)) as [[| t ts] |];
      simpl; auto using createTopLevelTiles_after. }
  destruct (match topLevelTiles (layer st0) with
            | None | Some [] => createTopLevelTiles st0
            | Some _ => Returned st0
            end) as [st1 | e st1 |]; simpl in *; auto.
  by apply topLevelLoop_after.
Qed.

Lemma assembleTiles_after (P : State -> Prop) (fuel : nat) (dc : DrawContext)
    (st : State) :
  Kept P -> P st -> after P (assembleTiles fuel dc st).
Proof.
  intros HP Hst. apply assembleTiles_after_reset; [assumption |].
  by apply kept_currentTiles.
Qed.

End Traversal.

(** ** Retrievals in flight *)

Section InFlight.

Context {W : Collaborators}.





Lemma retrieveTileImage_absent (tile : Tile.t) (st : State) :
  fst (isResourceAbsent (absentResourceList (layer st)) (Tile.imagePath tile))
    = true ->
  retrieveTileImage tile st = st
  \/ retrieveTileImage tile st
     = onLayer
         (setAbsentResourceList
            (snd (isResourceAbsent (absentResourceList (layer st))
                    (Tile.imagePath tile))))
         st.
Proof.
  intros Habsent. unfold retrieveTileImage.
  destruct (Js.arrayIndexOf _ _ <? 0); [| by left].
  destruct (isResourceAbsent _ _) as [absent absentList].
  simpl in Habsent. subst absent. by right.
Qed.



Lemma removeFromCurrentRetrievals_only (path : string) (l : Layer) :
  exists retrievals,
    removeFromCurrentRetrievals path l = setCurrentRetrievals retrievals l.
Proof.
  unfold removeFromCurrentRetrievals.
  destruct (_ >? -1); [eauto |].
  exists (currentRetrievals l). by destruct l.
Qed.



End InFlight.


(** ** The ancestor of record and the render list *)

Section Descent.

Context {W : Collaborators}.

Lemma retrieveTileImage_frame (tile : Tile.t) (st : State) :
  sameFrame st (retrieveTileImage tile st)
  /\ currentAncestorTile (layer (retrieveTileImage tile st))
     = currentAncestorTile (layer st)
  /\ currentTiles (layer (retrieveTileImage tile st)) = currentTiles (layer st).
Proof.
  unfold sameFrame.
  destruct (retrieveTileImage_cases tile st)
    as [[_ ->] | (_ & l & _ & Ha & Ht & Hs & Hsec & Hd & [-> | [url ->]])];
    simpl; auto 10.
Qed.

Lemma sameFrame_refl (st : State) : sameFrame st st.
Proof. by unfold sameFrame. Qed.

Lemma sameFrame_trans (st0 st1 st2 : State) :
  sameFrame st0 st1 -> sameFrame st1 st2 -> sameFrame st0 st2.
Proof.
  unfold sameFrame. intros (-> & -> & -> & ->) (-> & -> & -> & ->). done.
Qed.

(** [addTile] pushes at most one tile: the tile itself when its texture is
    cached, else the ancestor of record when its texture is in memory. *)
Lemma addTile_pushes (dc : DrawContext) (tile : Tile.t) (st : State) :
  sameFrame st (addTile dc tile st)
  /\ currentAncestorTile (layer (addTile dc tile st))
     = currentAncestorTile (layer st)
  /\ exists pushed,
       currentTiles (layer (addTile dc tile st))
         = currentTiles (layer st) ++ pushed
       /\ ((pushed = [tile]
            /\ is_Some (resourceForKey (gpuResourceCache st)
                          (Tile.imagePath tile)))
           \/ (exists ancestor,
                 pushed = [ancestor]
                 /\ resourceForKey (gpuResourceCache st) (Tile.imagePath tile)
                    = None
                 /\ currentAncestorTile (layer st) = Some ancestor
                 /\ isTileTextureInMemory st ancestor = true)
           \/ (pushed = []
               /\ resourceForKey (gpuResourceCache st) (Tile.imagePath tile)
                  = None)).
Proof.
  unfold addTile.
  destruct (resourceForKey _ _) as [texture |] eqn:Htexture.
  - destruct (isTextureExpired _ _).
    + destruct (retrieveTileImage_frame tile (pushCurrentTile tile st))
        as (Hframe & Ha & Ht).
      split; [unfold sameFrame in *; simpl in *; exact Hframe |].
      split; [exact Ha |].
      exists [tile]. rewrite Ht. split; [reflexivity |]. left. eauto.
    + split; [by unfold sameFrame |]. split; [reflexivity |].
      exists [tile]. split; [reflexivity |]. left. eauto.
  - destruct (retrieveTileImage_frame tile st) as (Hframe & Ha & Ht).
    destruct (currentAncestorTile (layer (retrieveTileImage tile st)))
      as [ancestor |] eqn:Hancestor.
    + destruct (isTileTextureInMemory (retrieveTileImage tile st) ancestor)
        eqn:Hmem.
      * split; [exact Hframe |]. simpl. split; [congruence |].
        exists [ancestor]. rewrite Ht. split; [reflexivity |].
        right. left. exists ancestor. repeat split; [congruence |].
        unfold isTileTextureInMemory in *.
        destruct Hframe as (_ & _ & _ & <-). exact Hmem.
      * split; [exact Hframe |]. split; [congruence |].
        exists []. rewrite app_nil_r. auto.
    + split; [exact Hframe |]. split; [congruence |].
      exists []. rewrite app_nil_r. auto.
Qed.

Lemma sameFrame_kept (st0 : State) : Kept (sameFrame st0).
Proof.
  constructor; try (intros; assumption).
  intros dc tile st Hst. eapply sameFrame_trans; [exact Hst |].
  apply addTile_pushes.
Qed.

(** The state keeps its ancestor of record through a call entered with
    one. *)
Lemma addTileOrDescendants_keeps_ancestor (fuel : nat) :
  forall dc tile st a,
    currentAncestorTile (layer st) = Some a ->
    after (fun st' => currentAncestorTile (layer st') = Some a)
      (addTileOrDescendants fuel dc tile st).
Proof.
  induction fuel as [| fuel IH]; intros dc tile st a Ha; [exact I |].
  simpl. destruct (tileMeetsRenderingCriteria _ _ _).
  { simpl. by rewrite (proj1 (proj2 (addTile_pushes dc tile st))). }
  destruct (isTileTextureInMemory st tile || _).
  - destruct (subdivideToCache _ _ _ _) as [subTiles cache]. rewrite Ha.
    match goal with
    | |- after _ (finally _ ?o) =>
        assert (after (fun st' => currentAncestorTile (layer st') = Some tile) o)
          as Hloop
    end.
    { apply childLoop_after; [| reflexivity].
      intros child st' Hst'. by apply IH. }
    destruct (childLoop _ _ _ _); simpl; auto.
  - destruct (subdivideToCache _ _ _ _) as [subTiles cache].
    match goal with
    | |- after _ (finally _ ?o) =>
        assert (after (fun st' => currentAncestorTile (layer st') = Some a) o)
          as Hloop
    end.
    { apply childLoop_after; [| exact Ha].
      intros child st' Hst'. by apply IH. }
    destruct (childLoop _ _ _ _); simpl; auto.
Qed.

(** A call entered without an ancestor of record that makes its tile the
    ancestor leaves the tile in the field. *)
Lemma addTileOrDescendants_leaves_tile (fuel : nat) (dc : DrawContext)
    (tile : Tile.t) (st : State) :
  currentAncestorTile (layer st) = None ->
  tileMeetsRenderingCriteria (layer st) dc tile = false ->
  recordsAncestor st tile = true ->
  after (fun st' => currentAncestorTile (layer st') = Some tile)
    (addTileOrDescendants fuel dc tile st).
Proof.
  intros Ha Hmeets Hrecords. destruct fuel as [| fuel]; [exact I |].
  simpl. rewrite Hmeets. unfold recordsAncestor in Hrecords. rewrite Hrecords.
  destruct (subdivideToCache _ _ _ _) as [subTiles cache]. rewrite Ha.
  match goal with
  | |- after _ (finally _ ?o) =>
      assert (after (fun st' => currentAncestorTile (layer st') = Some tile) o)
        as Hloop
  end.
  { apply childLoop_after; [| reflexivity].
    intros child st' Hst'. by apply addTileOrDescendants_keeps_ancestor. }
  destruct (childLoop _ _ _ _); simpl; auto.
Qed.

(** *** The traversal returns *)

Lemma createTile_supported (layer : Layer) (tm : TileMatrix) (row column : Z) :
  supportedCrs (supportedCRS (tileMatrixSet layer)) = true ->
  is_Some (sector layer) ->
  exists tile, createTile layer tm row column = Ok (Some tile).
Proof.
  intros Hcrs [layerSector Hsector].
  unfold createTile, createTile4326, createTileCrs84. rewrite Hsector.
  unfold supportedCrs in Hcrs.
  destruct (isEpsg4326Crs _); [eauto |].
  destruct (isEpsg3857Crs _); [eauto |].
  destruct (isOGCCrs84 _); [eauto | discriminate].
Qed.

Lemma pushTopLevelTiles_made (layer : Layer) (tm : TileMatrix) :
  (forall row column, exists tile,
      createTile layer tm row column = Ok (Some tile)) ->
  forall cells tiles,
    exists made,
      pushTopLevelTiles layer tm cells tiles = (tiles ++ (Some <$> made), None)
      /\ Forall (fun tile => Tile.tileMatrix tile = tm) made.
Proof.
  intros Hmake. induction cells as [| [j i] cells IH]; intros tiles.
  - exists []. simpl. by rewrite app_nil_r.
  - simpl. destruct (Hmake j i) as [tile Htile]. rewrite Htile.
    destruct (IH (tiles ++ [Some tile])) as (made & -> & Hmade).
    exists (tile :: made). rewrite <- app_assoc. split; [reflexivity |].
    constructor; [| assumption].
    by apply createTile_address in Htile as [? _].
Qed.

Lemma childLoop_returns (P : State -> Prop)
    (descend : Tile.t -> State -> Outcome) (dc : DrawContext)
    (subTiles : list Tile.t) :
  (forall st, P st -> is_Some (sector (layer st))) ->
  (forall child, child ∈ subTiles -> forall st, P st ->
     exists st', descend child st = Returned st' /\ P st') ->
  forall st, P st ->
    exists st', childLoop descend dc subTiles st = Returned st' /\ P st'.
Proof.
  intros Hsector. induction subTiles as [| child subTiles IH];
    intros Hdescend st Hst.
  - exists st. by split.
  - simpl. destruct (Hsector st Hst) as [layerSector ->].
    assert (forall child', child' ∈ subTiles -> forall st, P st ->
              exists st', descend child' st = Returned st' /\ P st') as Hrest.
    { intros child' Hin. apply Hdescend. by apply list_elem_of_further. }
    destruct (_ && _); [| by apply IH].
    destruct (Hdescend child (list_elem_of_here _ _) st Hst) as (st' & -> & Hst').
    by apply IH.
Qed.

(** With levels numbered by position and subdivision into the next level,
    a call for a tile between level 0 and the last level returns, given
    fuel for the levels below the tile. *)
Lemma addTileOrDescendants_returns (st0 : State) :
  levelsNumbered (tileMatrixSet (layer st0)) ->
  subdividesIntoNextLevel ->
  is_Some (sector (layer st0)) ->
  forall fuel dc tile st,
    sameFrame st0 st ->
    0 <= levelNumber (Tile.tileMatrix tile) <= lastLevel (layer st0) ->
    lastLevel (layer st0) - levelNumber (Tile.tileMatrix tile) < Z.of_nat fuel ->
    exists st',
      addTileOrDescendants fuel dc tile st = Returned st' /\ sameFrame st0 st'.
Proof.
  intros Hnumbered Hsubdivides Hsector.
  induction fuel as [| fuel IH]; intros dc tile st Hframe Hlevel Hfuel; [lia |].
  pose proof (addTileOrDescendants_after _ (sameFrame_kept st0) (S fuel) dc tile
                st Hframe) as Hafter.
  assert (exists st', addTileOrDescendants (S fuel) dc tile st = Returned st')
    as [st' Hrun]; [| exists st'; by rewrite Hrun in Hafter].
  clear Hafter. simpl.
  destruct (tileMeetsRenderingCriteria _ _ _) eqn:Hmeets; [eauto |].
  unfold tileMeetsRenderingCriteria in Hmeets.
  apply orb_false_iff in Hmeets as [Hlast _]. apply Z.eqb_neq in Hlast.
  destruct Hframe as (Htms & Hsec & Hdetail & Hcache).
  unfold lastLevel in *. rewrite Htms in Hlast.
  set (st1 := if isTileTextureInMemory st tile || _ then _ else st).
  assert (sameFrame st0 st1) as Hframe1.
  { subst st1. destruct (_ || _); by unfold sameFrame. }
  assert (tileMatrixSet (layer st1) = tileMatrixSet (layer st0)) as Htms1
    by apply Hframe1.
  rewrite Htms1.
  set (level := levelNumber (Tile.tileMatrix tile)) in *.
  destruct (lookup_lt_is_Some_2 (tileMatrix (tileMatrixSet (layer st0)))
              (Z.to_nat (level + 1))) as [next Hnext]; [lia |].
  unfold at_. destruct (Z.ltb_spec (level + 1) 0); [lia |]. rewrite Hnext.
  destruct (subdivideToCache _ _ _ _) as [subTiles cache] eqn:Hsub.
  destruct (childLoop_returns (sameFrame st0) (addTileOrDescendants fuel dc) dc
              subTiles) with (st := onLayer (setTileCache cache) st1)
    as (st' & -> & _).
  - intros st2 (_ & -> & _). exact Hsector.
  - intros child Hin st2 Hframe2.
    destruct (Hsubdivides tile next (createTile (layer st1)) (tileCache (layer st1))
                child) as (row & column & Hmade).
    { by rewrite Hsub. }
    apply createTile_address in Hmade as (Hmatrix & _).
    pose proof (Hnumbered _ _ Hnext) as Hnumber.
    apply IH; [assumption | |]; rewrite Hmatrix, Hnumber; lia.
  - exact Hframe1.
  - destruct (if isTileTextureInMemory st tile || _ then _ else None);
      simpl; eauto.
Qed.

Lemma topLevelLoop_returns (st0 : State) (fuel : nat) (dc : DrawContext) :
  levelsNumbered (tileMatrixSet (layer st0)) ->
  subdividesIntoNextLevel ->
  is_Some (sector (layer st0)) ->
  0 <= lastLevel (layer st0) < Z.of_nat fuel ->
  forall tiles st,
    Forall (fun t => exists tile,
                t = Some tile /\ levelNumber (Tile.tileMatrix tile) = 0)
           tiles ->
    sameFrame st0 st ->
    exists st', topLevelLoop fuel dc tiles st = Returned st' /\ sameFrame st0 st'.
Proof.
  intros Hnumbered Hsubdivides Hsector Hfuel.
  induction tiles as [| t tiles IH]; intros st Hready Hframe.
  - exists st. by split.
  - apply Forall_cons in Hready as [(tile & -> & Hlevel) Hready]. simpl.
    destruct (isTileVisible dc tile); [| by apply IH].
    destruct (addTileOrDescendants_returns st0 Hnumbered Hsubdivides Hsector
                fuel dc tile (onLayer (setCurrentAncestorTile None) st))
      as (st' & -> & Hframe'); [assumption | lia | lia |].
    by apply IH.
Qed.

(** A runnable frame returns, given fuel for every level. *)
Lemma assembleTiles_returns (fuel : nat) (dc : DrawContext) (st : State) :
  runnable st ->
  topLevelTilesReady st ->
  (length (tileMatrix (tileMatrixSet (layer st))) <= fuel)%nat ->
  exists st', assembleTiles fuel dc st = Returned st'.
Proof.
  intros (Hcrs & Hsector & Hlevels & Hnumbered & Hsubdivides) Hready Hfuel.
  unfold assembleTiles.
  set (st0 := onLayer (setCurrentTiles []) st).
  assert (0 <= lastLevel (layer st0) < Z.of_nat fuel) as Hlast.
  { unfold lastLevel. simpl.
    destruct (tileMatrix (tileMatrixSet (layer st))); [done | simpl in *; lia]. }
  assert (exists st1 tiles,
            match topLevelTiles (layer st0) with
            | None | Some [] => createTopLevelTiles st0
            | Some _ => Returned st0
            end = Returned st1
            /\ sameFrame st0 st1
            /\ topLevelTiles (layer st1) = Some tiles
            /\ Forall (fun t => exists tile,
                           t = Some tile
                           /\ levelNumber (Tile.tileMatrix tile) = 0) tiles)
    as (st1 & tiles & -> & Hframe & Htiles & Hall).
  { assert (exists st1 tiles,
              createTopLevelTiles st0 = Returned st1
              /\ sameFrame st0 st1
              /\ topLevelTiles (layer st1) = Some tiles
              /\ Forall (fun t => exists tile,
                             t = Some tile
                             /\ levelNumber (Tile.tileMatrix tile) = 0) tiles)
      as Hcreate.
    { unfold createTopLevelTiles, at_. simpl.
      destruct (tileMatrix (tileMatrixSet (layer st))) as [| tm0 levels] eqn:Htm;
        [done |].
      simpl.
      destruct (pushTopLevelTiles_made (layer st0) tm0) with
        (cells := matrixCells tm0) (tiles := @nil (option Tile.t))
        as (made & Hpush & Hmade).
      { intros row column. by apply createTile_supported. }
      change (layer st0) with (setCurrentTiles [] (layer st)) in Hpush.
      rewrite Hpush. simpl. do 2 eexists.
      split; [reflexivity |]. split; [by unfold sameFrame |].
      split; [reflexivity |].
      apply Forall_fmap. eapply Forall_impl; [exact Hmade |].
      intros tile Hmatrix. simpl. exists tile. split; [reflexivity |].
      rewrite Hmatrix. apply (Hnumbered 0%nat). by rewrite Htm. }
    destruct (topLevelTiles (layer st0)) as [[| t ts] |] eqn:Htop;
      [exact Hcreate | | exact Hcreate].
    exists st0, (t :: ts). split; [reflexivity |].
    split; [by unfold sameFrame |]. split; [exact Htop |].
    apply Hready. exact Htop. }
  rewrite Htiles. simpl.
  destruct (topLevelLoop_returns st0 fuel dc Hnumbered Hsubdivides Hsector Hlast
              tiles st1 Hall Hframe) as (st' & -> & _).
  eauto.
Qed.

(** *** The two claims on the traversal *)

(** C2 (as amended).  A call of [addTileOrDescendants] entered with an
    ancestor of record, at any depth, for any tile and state, leaves the same
    ancestor in [currentAncestorTile] when it returns; so does a call entered
    without one that accepts its tile.  A call entered without an ancestor
    of record that makes its tile the ancestor leaves the tile in the field:
    the [finally] block restores a previous ancestor only if there was one.
    With levels numbered by position and subdivision into the next level,
    the call does return, given fuel for the levels below the tile. *)
Theorem addTileOrDescendants_ancestor_of_record (fuel : nat) (dc : DrawContext)
    (tile : Tile.t) (st : State) :
  (forall a st',
     currentAncestorTile (layer st) = Some a ->
     addTileOrDescendants fuel dc tile st = Returned st' ->
     currentAncestorTile (layer st') = Some a)
  /\ (forall st',
        currentAncestorTile (layer st) = None ->
        tileMeetsRenderingCriteria (layer st) dc tile = true ->
        addTileOrDescendants fuel dc tile st = Returned st' ->
        currentAncestorTile (layer st') = None)
  /\ (forall st',
        currentAncestorTile (layer st) = None ->
        tileMeetsRenderingCriteria (layer st) dc tile = false ->
        recordsAncestor st tile = true ->
        addTileOrDescendants fuel dc tile st = Returned st' ->
        currentAncestorTile (layer st') = Some tile)
  /\ (levelsNumbered (tileMatrixSet (layer st)) ->
      subdividesIntoNextLevel ->
      is_Some (sector (layer st)) ->
      0 <= levelNumber (Tile.tileMatrix tile) <= lastLevel (layer st) ->
      lastLevel (layer st) - levelNumber (Tile.tileMatrix tile) < Z.of_nat fuel ->
      exists st', addTileOrDescendants fuel dc tile st = Returned st').
Proof.
  repeat split.
  - intros a st' Ha Hrun.
    pose proof (addTileOrDescendants_keeps_ancestor fuel dc tile st a Ha) as Hkeep.
    by rewrite Hrun in Hkeep.
  - intros st' Ha Hmeets Hrun. destruct fuel as [| fuel]; [discriminate |].
    simpl in Hrun. rewrite Hmeets in Hrun. injection Hrun as <-.
    by rewrite (proj1 (proj2 (addTile_pushes dc tile st))).
  - intros st' Ha Hmeets Hrecords Hrun.
    pose proof (addTileOrDescendants_leaves_tile fuel dc tile st Ha Hmeets
                  Hrecords) as Hleft.
    by rewrite Hrun in Hleft.
  - intros Hnumbered Hsubdivides Hsector Hlevel Hfuel.
    destruct (addTileOrDescendants_returns st Hnumbered Hsubdivides Hsector
                fuel dc tile st (sameFrame_refl st) Hlevel Hfuel)
      as (st' & Hrun & _).
    eauto.
Qed.

Lemma resident_kept (cache : GpuResourceCache) :
  Kept (fun st =>
          gpuResourceCache st = cache
          /\ Forall (resident cache) (currentTiles (layer st))).
Proof.
  constructor; try (intros; assumption).
  - intros dc tile st [Hcache Hall].
    destruct (addTile_pushes dc tile st)
      as ((_ & _ & _ & Hcache') & _ & pushed & -> & Hpushed).
    split; [congruence |]. apply Forall_app. split; [assumption |].
    destruct Hpushed
      as [[-> Htexture] | [(ancestor & -> & _ & _ & Hmem) | [-> _]]].
    + constructor; [| constructor]. left. by rewrite <- Hcache.
    + constructor; [| constructor]. right.
      unfold isTileTextureInMemory in Hmem. by rewrite <- Hcache.
    + constructor.
  - intros st [Hcache _]. split; [exact Hcache | constructor].
Qed.

Lemma tileMeetsRenderingCriteria_sameFrame (dc : DrawContext)
    (tile : Tile.t) (st st' : State) :
  sameFrame st st' ->
  tileMeetsRenderingCriteria (layer st') dc tile
  = tileMeetsRenderingCriteria (layer st) dc tile.
Proof.
  intros (Htms & _ & Hdetail & _).
  unfold tileMeetsRenderingCriteria, detailFor. by rewrite Htms, Hdetail.
Qed.

(** What [addTile] pushes, told from the state it is called in. *)
Lemma addTile_currentTiles (dc : DrawContext) (tile : Tile.t) (st : State) :
  currentTiles (layer (addTile dc tile st))
  = currentTiles (layer st)
    ++ match resourceForKey (gpuResourceCache st) (Tile.imagePath tile) with
       | Some _ => [tile]
       | None =>
           match currentAncestorTile (layer st) with
           | Some ancestor =>
               if isTileTextureInMemory st ancestor then [ancestor] else []
           | None => []
           end
       end.
Proof.
  unfold addTile.
  destruct (resourceForKey _ _) as [texture |].
  - assert (currentTiles (layer (pushCurrentTile tile st))
            = currentTiles (layer st) ++ [tile]) as Hpush
      by (by destruct st as [[] ? ? ?]).
    destruct (isTextureExpired _ _); [| exact Hpush].
    destruct (retrieveTileImage_frame tile (pushCurrentTile tile st))
      as (_ & _ & ->). exact Hpush.
  - destruct (retrieveTileImage_frame tile st)
      as ((_ & _ & _ & Hcache) & -> & Htiles).
    destruct (currentAncestorTile (layer st)) as [ancestor |];
      [| by rewrite Htiles, app_nil_r].
    unfold isTileTextureInMemory. rewrite Hcache.
    destruct (containsResource _ _); [| by rewrite Htiles, app_nil_r].
    rewrite <- Htiles. by destruct (retrieveTileImage tile st) as [[] ? ? ?].
Qed.

(** The loop over the sub-tiles of an ancestor of record whose texture is
    in memory, when the sub-tiles it accepts have no texture. *)
Lemma childLoop_falls_back (fuel : nat) (dc : DrawContext)
    (ancestor : Tile.t) (layerSector : Sector) (subTiles : list Tile.t) :
  forall st,
    sector (layer st) = Some layerSector ->
    currentAncestorTile (layer st) = Some ancestor ->
    isTileTextureInMemory st ancestor = true ->
    let accepted :=
      List.filter
        (fun child =>
           intersects layerSector (Tile.sector child) && isTileVisible dc child)
        subTiles in
    Forall
      (fun child =>
         tileMeetsRenderingCriteria (layer st) dc child = true
         /\ resourceForKey (gpuResourceCache st) (Tile.imagePath child) = None)
      accepted ->
    exists st',
      childLoop (addTileOrDescendants (S fuel) dc) dc subTiles st = Returned st'
      /\ currentTiles (layer st')
         = currentTiles (layer st) ++ replicate (length accepted) ancestor.
Proof.
  induction subTiles as [| child subTiles IH];
    intros st Hsector Hancestor Hmemory accepted Haccepted.
  { exists st. split; [reflexivity |]. simpl. by rewrite app_nil_r. }
  subst accepted. cbn [childLoop List.filter] in *. rewrite Hsector.
  destruct (intersects layerSector (Tile.sector child)
            && isTileVisible dc child); [| by apply IH].
  apply Forall_cons in Haccepted as [[Hmeets Hnone] Haccepted].
  cbn [addTileOrDescendants]. rewrite Hmeets.
  destruct (addTile_pushes dc child st) as (Hframe & Hrecord & _).
  pose proof (addTile_currentTiles dc child st) as Hpushed.
  rewrite Hnone, Hancestor, Hmemory in Hpushed.
  destruct Hframe as (Htms & Hsec & Hdetail & Hcache).
  destruct (IH (addTile dc child st)) as (st' & Hloop & Htiles).
  - by rewrite Hsec.
  - by rewrite Hrecord.
  - unfold isTileTextureInMemory in *. by rewrite Hcache.
  - eapply Forall_impl; [exact Haccepted |].
    intros other [Hother Hmissing]. split.
    + rewrite <- Hother. apply tileMeetsRenderingCriteria_sameFrame.
      by repeat split.
    + by rewrite Hcache.
  - exists st'. split; [exact Hloop |].
    rewrite Htiles, Hpushed, <- app_assoc. reflexivity.
Qed.

(** C4 (as amended).  For every frame, each accepted tile contributes the
    one entry [addTile] pushes for it: the tile itself when its texture is
    cached, otherwise the ancestor of record when the texture of that
    ancestor is in memory, otherwise nothing.  Every entry of the list
    [assembleTiles] has assembled when it returns has its texture in the GPU
    resource cache, and a runnable frame does return.  Nothing removes
    duplicates: in the loop of [addTileOrDescendants] over the sub-tiles of
    an ancestor of record whose texture is in memory, the ancestor is pushed
    once for every accepted sub-tile without a texture of its own. *)
Theorem assembleTiles_render_list (dc : DrawContext) (st : State) :
  (forall tile,
     currentTiles (layer (addTile dc tile st))
     = currentTiles (layer st)
       ++ match resourceForKey (gpuResourceCache st) (Tile.imagePath tile) with
          | Some _ => [tile]
          | None =>
              match currentAncestorTile (layer st) with
              | Some ancestor =>
                  if isTileTextureInMemory st ancestor then [ancestor] else []
              | None => []
              end
          end)
  /\ (forall fuel st',
        assembleTiles fuel dc st = Returned st' ->
        gpuResourceCache st' = gpuResourceCache st
        /\ Forall (resident (gpuResourceCache st)) (currentTiles (layer st')))
  /\ (runnable st -> topLevelTilesReady st ->
      forall fuel,
        (length (tileMatrix (tileMatrixSet (layer st))) <= fuel)%nat ->
        exists st', assembleTiles fuel dc st = Returned st')
  /\ (forall fuel ancestor layerSector subTiles,
        sector (layer st) = Some layerSector ->
        currentAncestorTile (layer st) = Some ancestor ->
        isTileTextureInMemory st ancestor = true ->
        let accepted :=
          List.filter
            (fun child =>
               intersects layerSector (Tile.sector child)
               && isTileVisible dc child)
            subTiles in
        Forall
          (fun child =>
             tileMeetsRenderingCriteria (layer st) dc child = true
             /\ resourceForKey (gpuResourceCache st) (Tile.imagePath child)
                = None)
          accepted ->
        exists st',
          childLoop (addTileOrDescendants (S fuel) dc) dc subTiles st
          = Returned st'
          /\ currentTiles (layer st')
             = currentTiles (layer st) ++ replicate (length accepted) ancestor).
Proof.
  split; [| split; [| split]].
  - intros tile. apply addTile_currentTiles.
  - intros fuel st' Hrun.
    pose proof (assembleTiles_after_reset _ fuel dc st
                  (resident_kept (gpuResourceCache st))) as Hafter.
    rewrite Hrun in Hafter. apply Hafter. split; [reflexivity | constructor].
  - intros Hrunnable Hready fuel Hfuel. by apply assembleTiles_returns.
  - intros fuel ancestor layerSector subTiles Hsector Hancestor Hmemory.
    by apply childLoop_falls_back.
Qed.

End Descent.

(** *** The sample world is runnable *)

Lemma sample_subdivides : @subdividesIntoNextLevel Sample.collaborators.
Proof.
  intros tile next factory cache child Hin.
  change (subdivideToCache tile (Some next) factory cache)
    with (Sample.subdivide tile (Some next) factory cache) in Hin.
  unfold Sample.subdivide in Hin. cbn [fst] in Hin.
  apply list_elem_of_omap in Hin as ([row column] & _ & Hmade).
  exists row, column. by destruct (factory next row column) as [[made |] |];
    simplify_eq.
Qed.

Lemma sample_levelsNumbered : levelsNumbered Sample.geographic2.
Proof.
  intros i m Hm. destruct i as [| [| i]]; simpl in Hm; by simplify_eq.
Qed.

Lemma sample_runnable (cache : gmap string Image) :
  runnable (Sample.start Sample.geographic2 cache).
Proof.
  unfold runnable. split; [by_evaluation |].
  split; [exists (mkSector (-90) 90 (-180) 180); by_evaluation |].
  split; [discriminate |].
  split; [exact sample_levelsNumbered | exact sample_subdivides].
Qed.

Lemma addTileOrDescendants_ancestor_of_record_witness :
  let st := onLayer (setCurrentAncestorTile (Some Sample.polarTile))
              (Sample.start Sample.geographic2 ∅) in
  exists st',
    addTileOrDescendants 2 Sample.near (Sample.topLeftTile Sample.geographic2) st
      = Returned st'
    /\ currentAncestorTile (layer st') = Some Sample.polarTile.
Proof.
  intros st.
  destruct (addTileOrDescendants_ancestor_of_record 2 Sample.near
              (Sample.topLeftTile Sample.geographic2) st)
    as (Hkeeps & _ & _ & Hreturns).
  destruct Hreturns as [st' Hrun].
  - exact sample_levelsNumbered.
  - exact sample_subdivides.
  - exists (mkSector (-90) 90 (-180) 180). by_evaluation.
  - split; discriminate.
  - reflexivity.
  - exists st'. split; [exact Hrun |].
    apply (Hkeeps Sample.polarTile st'); [reflexivity | exact Hrun].
Defined.

(** C2 (as stated) fails: entered without an ancestor of record for a tile
    of level 0 that must subdivide, [addTileOrDescendants] returns with the
    tile in [currentAncestorTile], not with the null it was entered with. *)
Lemma addTileOrDescendants_does_not_restore_null :
  let st := Sample.start Sample.geographic2 ∅ in
  currentAncestorTile (layer st) = None
  /\ ancestorLeft
       (addTileOrDescendants 2 Sample.near
          (Sample.topLeftTile Sample.geographic2) st)
     = Some (Some (Sample.topLeftTile Sample.geographic2)).
Proof. split; by_evaluation. Qed.

Lemma assembleTiles_render_list_witness :
  let st := Sample.start Sample.geographic2
              {[Tile.imagePath (Sample.topLeftTile Sample.geographic2)
                  := Sample.pixel]} in
  exists st',
    assembleTiles 2 Sample.near st = Returned st'
    /\ Forall (resident (gpuResourceCache st)) (currentTiles (layer st')).
Proof.
  intros st.
  destruct (assembleTiles_render_list Sample.near st)
    as (_ & Hresident & Hreturns & _).
  destruct (Hreturns (sample_runnable _)) with (fuel := 2%nat) as [st' Hrun].
  - intros tiles Htiles. discriminate.
  - vm_compute. lia.
  - exists st'. split; [exact Hrun |]. by apply (Hresident 2%nat).
Defined.

(** C4 (as stated) fails: when the texture of a tile of level 0 is cached
    and the tile must subdivide, each of its four children, accepted without
    a texture of its own, pushes that tile; the render list holds it four
    times. *)
Lemma assembleTiles_repeats_the_ancestor :
  let ancestor := Sample.topLeftTile Sample.geographic2 in
  let st := Sample.start Sample.geographic2
              {[Tile.imagePath ancestor := Sample.pixel]} in
  renderList (assembleTiles 2 Sample.near st)
    = Some [ancestor; ancestor; ancestor; ancestor]
  /\ ~ NoDup [ancestor; ancestor; ancestor; ancestor].
Proof.
  split; [by_evaluation |].
  intros Hnodup. apply NoDup_cons in Hnodup as [Hnot _].
  apply Hnot. apply list_elem_of_here.
Qed.

(** ** Mercator unprojection *)

Lemma cell_bound (w h x y : nat) :
  (x < w)%nat -> (y < h)%nat ->
  0 <= Z.of_nat x + Z.of_nat y * Z.of_nat w < Z.of_nat w * Z.of_nat h.
Proof. intros Hx Hy. nia. Qed.

Lemma cell_inj (w x y x' y' : nat) :
  (x < w)%nat -> (x' < w)%nat ->
  Z.of_nat x + Z.of_nat y * Z.of_nat w = Z.of_nat x' + Z.of_nat y' * Z.of_nat w ->
  x = x' /\ y = y'.
Proof.
  intros Hx Hx' Heq.
  destruct (Nat.lt_trichotomy y y') as [Hlt | [-> | Hgt]].
  - nia.
  - split; [nia | reflexivity].
  - nia.
Qed.

Lemma clamp_unit (value : Q) : (0 <= clamp value 0 1 <= 1)%Q.
Proof.
  unfold clamp.
  destruct (Qlt_le_dec 1 value) as [Hhigh | Hhigh]; [split; discriminate |].
  destruct (Qlt_le_dec value 0) as [Hlow | Hlow]; [split; discriminate |].
  by split.
Qed.

Section Unprojection.

Context {W : Collaborators}.

Lemma length_setByte (d : list Z) (k v : Z) :
  length (setByte d k v) = length d.
Proof. unfold setByte. destruct (k <? 0); [reflexivity | apply length_insert]. Qed.

Lemma getByte_setByte_same (d : list Z) (k v : Z) :
  0 <= k < Z.of_nat (length d) -> getByte (setByte d k v) k = v.
Proof.
  intros Hk. unfold getByte, setByte.
  destruct (Z.ltb_spec k 0); [lia |].
  rewrite list_lookup_insert_eq by lia. reflexivity.
Qed.

Lemma getByte_setByte_other (d : list Z) (k k' v : Z) :
  k <> k' -> getByte (setByte d k v) k' = getByte d k'.
Proof.
  intros Hne. unfold getByte, setByte.
  destruct (Z.ltb_spec k' 0); [reflexivity |].
  destruct (Z.ltb_spec k 0); [reflexivity |].
  rewrite list_lookup_insert_ne by lia. reflexivity.
Qed.

Lemma length_copyPixel (src : list Z) (w : nat) (srcRow : Z) (y x : nat)
    (dest : list Z) :
  length (copyPixel src w srcRow y x dest) = length dest.
Proof. unfold copyPixel. by rewrite !length_setByte. Qed.

(** One pass of the loop on [x] writes the four channels of the pixel
    [(x, y)] and nothing else. *)
Lemma copyPixel_channel (src : list Z) (w h : nat) (srcRow : Z) (y x : nat)
    (dest : list Z) (x' y' : nat) (c : Z) :
  length dest = (4 * w * h)%nat ->
  (x < w)%nat -> (y < h)%nat -> (x' < w)%nat -> 0 <= c < 4 ->
  getByte (copyPixel src w srcRow y x dest)
    (4 * (Z.of_nat x' + Z.of_nat y' * Z.of_nat w) + c)
  = if decide (x' = x /\ y' = y)
    then getByte src (4 * (Z.of_nat x + srcRow * Z.of_nat w) + c)
    else getByte dest (4 * (Z.of_nat x' + Z.of_nat y' * Z.of_nat w) + c).
Proof.
  intros Hlen Hx Hy Hx' Hc. unfold copyPixel.
  pose proof (cell_bound w h x y Hx Hy) as Hbound.
  assert (Z.of_nat (length dest) = 4 * (Z.of_nat w * Z.of_nat h)) as HlenZ
    by (rewrite Hlen; lia).
  set (kDest := Z.of_nat x + Z.of_nat y * Z.of_nat w) in *.
  set (kSrc := Z.of_nat x + srcRow * Z.of_nat w).
  destruct (decide (x' = x /\ y' = y)) as [[-> ->] | Hother].
  - fold kDest.
    assert (c = 0 \/ c = 1 \/ c = 2 \/ c = 3) as [-> | [-> | [-> | ->]]] by lia.
    + rewrite !getByte_setByte_other by lia. rewrite !Z.add_0_r.
      rewrite getByte_setByte_same by lia. reflexivity.
    + rewrite !getByte_setByte_other by lia.
      rewrite getByte_setByte_same by (rewrite !length_setByte; lia).
      reflexivity.
    + rewrite !getByte_setByte_other by lia.
      rewrite getByte_setByte_same by (rewrite !length_setByte; lia).
      reflexivity.
    + rewrite getByte_setByte_same by (rewrite !length_setByte; lia).
      reflexivity.
  - assert (Z.of_nat x' + Z.of_nat y' * Z.of_nat w <> kDest) as Hne.
    { intros Heq. apply Hother. by apply (cell_inj w). }
    set (k' := Z.of_nat x' + Z.of_nat y' * Z.of_nat w) in *.
    rewrite !getByte_setByte_other by lia. reflexivity.
Qed.

(** The loop on [x], up to any column. *)
Lemma rowLoop_channel (src : list Z) (w h : nat) (srcRow : Z) (y : nat)
    (dest : list Z) (n : nat) :
  length dest = (4 * w * h)%nat -> (y < h)%nat -> (n <= w)%nat ->
  let dest' :=
    fold_left (fun dest x => copyPixel src w srcRow y x dest) (seq 0 n) dest in
  length dest' = length dest
  /\ forall (x' y' : nat) (c : Z),
       (x' < w)%nat -> 0 <= c < 4 ->
       getByte dest' (4 * (Z.of_nat x' + Z.of_nat y' * Z.of_nat w) + c)
       = if decide (x' < n /\ y' = y)%nat
         then getByte src (4 * (Z.of_nat x' + srcRow * Z.of_nat w) + c)
         else getByte dest (4 * (Z.of_nat x' + Z.of_nat y' * Z.of_nat w) + c).
Proof.
  intros Hlen Hy. induction n as [| n IH]; intros Hn dest'.
  - subst dest'. cbn [seq fold_left]. split; [reflexivity |].
    intros x' y' c Hx' Hc. rewrite decide_False by lia. reflexivity.
  - destruct IH as [IHlen IHget]; [lia |].
    subst dest'. rewrite seq_S, fold_left_app. cbn [fold_left Nat.add].
    split; [by rewrite length_copyPixel |].
    intros x' y' c Hx' Hc.
    rewrite (copyPixel_channel src w h) by (rewrite ?IHlen; auto; lia).
    destruct (decide (x' = n /\ y' = y)) as [[-> ->] | Hother].
    + rewrite decide_True by lia. reflexivity.
    + rewrite IHget by assumption.
      destruct (decide (x' < n /\ y' = y)%nat) as [Hin | Hout].
      * rewrite decide_True by lia. reflexivity.
      * rewrite decide_False by lia. reflexivity.
Qed.

(** The loop on [y], up to any row. *)
Lemma destLoop_channel (sector : Sector) (image : Image) (dest : list Z)
    (m : nat) :
  length dest = (4 * width image * height image)%nat ->
  (m <= height image)%nat ->
  let dest' :=
    fold_left (fun dest y => unprojectRow sector image y dest) (seq 0 m) dest in
  length dest' = length dest
  /\ forall (x' y' : nat) (c : Z),
       (x' < width image)%nat -> 0 <= c < 4 ->
       getByte dest'
         (4 * (Z.of_nat x' + Z.of_nat y' * Z.of_nat (width image)) + c)
       = if decide (y' < m)%nat
         then getByte (data image)
                (4 * (Z.of_nat x'
                      + sourceRow sector (height image) y'
                        * Z.of_nat (width image)) + c)
         else getByte dest
                (4 * (Z.of_nat x' + Z.of_nat y' * Z.of_nat (width image)) + c).
Proof.
  intros Hlen. induction m as [| m IH]; intros Hm dest'.
  - subst dest'. cbn [seq fold_left]. split; [reflexivity |].
    intros x' y' c Hx' Hc. rewrite decide_False by lia. reflexivity.
  - destruct IH as [IHlen IHget]; [lia |].
    subst dest'. rewrite seq_S, fold_left_app. cbn [fold_left Nat.add].
    unfold unprojectRow at 1.
    match goal with
    | |- context [fold_left _ (seq 0 (width image)) ?d] =>
        destruct (rowLoop_channel (data image) (width image) (height image)
                    (sourceRow sector (height image) m) m d (width image))
          as [Hrowlen Hrowget]; [by rewrite IHlen | lia | lia |]
    end.
    split; [by rewrite Hrowlen |].
    intros x' y' c Hx' Hc. rewrite Hrowget by assumption.
    destruct (decide (x' < width image /\ y' = m)%nat) as [[_ ->] | Hother].
    + rewrite decide_True by lia. reflexivity.
    + rewrite IHget by assumption.
      destruct (decide (y' < m)%nat) as [Hin | Hout].
      * rewrite decide_True by lia. reflexivity.
      * rewrite decide_False by lia. reflexivity.
Qed.

(** The source row lies within the image. *)
Lemma sourceRow_bounds (sector : Sector) (h y : nat) :
  (1 <= h)%nat -> 0 <= sourceRow sector h y < Z.of_nat h.
Proof.
  intros Hh. unfold sourceRow.
  set (dy := clamp _ 0 1). pose proof (clamp_unit
    (1 - (gudermannianInverse
            ((1 - inject_Z (Z.of_nat y) / (inject_Z (Z.of_nat h) - 1))
             * deltaLatitude sector + minLatitude sector)
          - gudermannianInverse (minLatitude sector))
         / (gudermannianInverse (maxLatitude sector)
            - gudermannianInverse (minLatitude sector)))%Q) as [Hlow Hhigh].
  fold dy in Hlow, Hhigh.
  assert (inject_Z (Z.of_nat h) - 1 == inject_Z (Z.of_nat h - 1))%Q as Hrows.
  { unfold Z.sub. rewrite inject_Z_plus. reflexivity. }
  assert (0 <= inject_Z (Z.of_nat h - 1))%Q as Hnonneg.
  { change 0%Q with (inject_Z 0). rewrite <- Zle_Qle. lia. }
  split.
  - change 0 with (Qfloor 0). apply Qfloor_resp_le.
    rewrite Hrows. by apply Qmult_le_0_compat.
  - apply Z.le_lt_trans with (Z.of_nat h - 1); [| lia].
    rewrite <- (Qfloor_Z (Z.of_nat h - 1)). apply Qfloor_resp_le.
    rewrite Hrows.
    rewrite <- (Qmult_1_l (inject_Z (Z.of_nat h - 1))) at 2.
    by apply Qmult_le_compat_r.
Qed.

(** C6.  For a source image at least 2 rows high and the sector of a
    Mercator tile with minLatitude below maxLatitude, [createTexture3857]
    makes its texture of a destination image as wide and as high as the
    source, in which every destination row [y] is one source row,
    [srcRow = floor (clamp (1 - (g (lat y) - g minLatitude) /
    (g maxLatitude - g minLatitude), 0, 1) * (height - 1))] with [g] the
    inverse Gudermannian function, a row of the image; the four channels of
    the destination pixel [(x, y)] are those of the source pixel
    [(x, srcRow)], for every column [x]. *)
Theorem createTexture3857_resamples_rows (tile : Tile.t) (image : Image) :
  (2 <= height image)%nat ->
  (minLatitude (Tile.sector tile) < maxLatitude (Tile.sector tile))%Q ->
  (forall a b, (a < b)%Q -> (gudermannianInverse a < gudermannianInverse b)%Q) ->
  let sector := Tile.sector tile in
  let dest := destImageData sector image in
  let rows := (inject_Z (Z.of_nat (height image)) - 1)%Q in
  createTexture3857 tile image = newTexture dest
  /\ width dest = width image
  /\ height dest = height image
  /\ length (data dest) = (4 * width image * height image)%nat
  /\ forall y : nat,
       (y < height image)%nat ->
       let lat :=
         ((1 - inject_Z (Z.of_nat y) / rows) * deltaLatitude sector
          + minLatitude sector)%Q in
       let srcRow :=
         Qfloor
           (clamp
              (1 - (gudermannianInverse lat
                    - gudermannianInverse (minLatitude sector))
                   / (gudermannianInverse (maxLatitude sector)
                      - gudermannianInverse (minLatitude sector)))
              0 1
            * rows)%Q in
       sourceRow sector (height image) y = srcRow
       /\ 0 <= srcRow < Z.of_nat (height image)
       /\ forall (x : nat) (c : Z),
            (x < width image)%nat -> 0 <= c < 4 ->
            getByte (data dest)
              (4 * (Z.of_nat x + Z.of_nat y * Z.of_nat (width image)) + c)
            = getByte (data image)
                (4 * (Z.of_nat x + srcRow * Z.of_nat (width image)) + c).
Proof.
  intros Hheight _ _ sector dest rows.
  destruct (destLoop_channel sector image
              (replicate (4 * width image * height image) 0) (height image))
    as [Hlen Hget]; [apply length_replicate | lia |].
  split; [reflexivity |]. split; [reflexivity |]. split; [reflexivity |].
  split.
  { subst dest. cbn [data destImageData]. rewrite Hlen. apply length_replicate. }
  intros y Hy lat srcRow.
  change srcRow with (sourceRow sector (height image) y).
  split; [reflexivity |]. split; [apply sourceRow_bounds; lia |].
  intros x c Hx Hc. subst dest. cbn [data destImageData].
  rewrite Hget by assumption. rewrite decide_True by assumption. reflexivity.
Qed.

End Unprojection.

Lemma createTexture3857_resamples_rows_witness :
  let dest :=
    destImageData (W := Sample.collaborators)
      (Tile.sector Sample.polarTile) Sample.strip in
  createTexture3857 (W := Sample.collaborators) Sample.polarTile Sample.strip
    = newTexture dest
  /\ width dest = 1%nat /\ height dest = 2%nat
  /\ sourceRow (W := Sample.collaborators) (Tile.sector Sample.polarTile) 2 1 = 1
  /\ getByte (data dest) 4 = getByte (data Sample.strip) 4.
Proof.
  intros dest.
  destruct (createTexture3857_resamples_rows (W := Sample.collaborators)
              Sample.polarTile Sample.strip)
    as (Htexture & Hwidth & Hheight & _ & Hrows).
  - apply le_n.
  - reflexivity.
  - intros a b Hab. exact Hab.
  - destruct (Hrows 1%nat) as (_ & _ & Hpixel); [apply le_n |].
    split; [exact Htexture |]. split; [exact Hwidth |].
    split; [exact Hheight |]. split.
    + vm_compute. reflexivity.
    + apply (Hpixel 0%nat 0); [apply le_n | lia].
Defined.

(** * Further properties *)

(** ** Configurations and construction *)

Lemma arrayIndexOf_found (a : list string) (x : string) :
  (Js.arrayIndexOf a x >=? 0) = true <-> x ∈ a.
Proof.
  rewrite Z.geb_leb. split.
  - intros Hfound. destruct (decide (x ∈ a)) as [Hin | Hnot]; [assumption |].
    apply arrayIndexOf_negative in Hnot.
    apply Z.leb_le in Hfound. apply Z.ltb_lt in Hnot. lia.
  - intros Hin. destruct (Z.leb_spec 0 (Js.arrayIndexOf a x)) as [| Hneg];
      [reflexivity |].
    apply Z.ltb_lt in Hneg. apply arrayIndexOf_negative in Hneg. contradiction.
Qed.

Lemma chooseResourceUrl_found (f : string) (urls : list Caps.ResourceUrl)
    (template : string) :
  chooseResourceUrl (Some f) urls = Some template ->
  exists r, r ∈ urls /\ Caps.format r = f /\ Caps.template r = Some template.
Proof.
  induction urls as [| r urls IH]; [discriminate |]. simpl.
  destruct (String.eqb_spec f (Caps.format r)) as [-> | _].
  - intros Htemplate. exists r. split; [apply list_elem_of_here | by split].
  - intros Hrest. destruct (IH Hrest) as (r' & Hin & Hformat & Htemplate).
    exists r'. split; [by apply list_elem_of_further | by split].
Qed.

Lemma chooseResourceUrl_none (f : string) (urls : list Caps.ResourceUrl) :
  Forall (fun r => Caps.format r <> f) urls ->
  chooseResourceUrl (Some f) urls = None.
Proof.
  induction 1 as [| r urls Hr _ IH]; [reflexivity |]. simpl.
  destruct (String.eqb_spec f (Caps.format r)) as [-> | _]; [contradiction |].
  exact IH.
Qed.

(** What a successful [createConfigurationFromLayer] has gone through. *)
Lemma createConfigurationFromLayer_inv (fixGetMapString : string -> string)
    (caps : Caps.t) (config : Config.t) :
  createConfigurationFromLayer fixGetMapString (Some caps) = Ok config ->
  Js.truthy (chooseImageFormat (Caps.formats caps)) = true
  /\ Config.imageFormat config = chooseImageFormat (Caps.formats caps)
  /\ Config.resourceUrl config
     = match Caps.resourceUrl caps with
       | Some (r :: rs) =>
           chooseResourceUrl (chooseImageFormat (Caps.formats caps)) (r :: rs)
       | _ => None
       end
  /\ Config.serviceUrl config
     = match Caps.resourceUrl caps with
       | Some (r :: rs) => None
       | _ =>
           if Js.truthy (Caps.getGetTileKvpAddress caps)
           then option_map fixGetMapString (Caps.getGetTileKvpAddress caps)
           else Caps.getGetTileKvpAddress caps
       end
  /\ (Js.truthy (Config.resourceUrl config) = true
      \/ Js.truthy (Config.serviceUrl config) = true)
  /\ Config.wgs84BoundingBox config = Caps.wgs84BoundingBox caps
  /\ Config.boundingBox config = Caps.boundingBox caps
  /\ Config.layerIdentifier config = Caps.identifier caps.
Proof.
  unfold createConfigurationFromLayer.
  destruct (Js.truthy (chooseImageFormat _)) eqn:Hformat; [| discriminate].
  cbn [negb].
  set (urls := match Caps.resourceUrl caps with
               | Some (r :: rs) => _
               | _ => _
               end).
  assert (urls = (match Caps.resourceUrl caps with
                  | Some (r :: rs) =>
                      chooseResourceUrl (chooseImageFormat (Caps.formats caps))
                        (r :: rs)
                  | _ => None
                  end,
                  match Caps.resourceUrl caps with
                  | Some (r :: rs) => None
                  | _ =>
                      if Js.truthy (Caps.getGetTileKvpAddress caps)
                      then option_map fixGetMapString
                             (Caps.getGetTileKvpAddress caps)
                      else Caps.getGetTileKvpAddress caps
                  end)) as Hurls.
  { subst urls. by destruct (Caps.resourceUrl caps) as [[| r rs] |]. }
  destruct urls as [resourceUrl serviceUrl]. injection Hurls as -> ->.
  destruct (negb _ && negb _) eqn:Hurl; [discriminate |].
  destruct (convertTileMatrixSets _) as [sets |]; [| discriminate].
  destruct (0 <? length sets)%nat; [| discriminate].
  destruct (fold_left selectStep sets (None, None)) as [highest tms].
  intros [= <-]. cbn. repeat split.
  apply andb_false_iff in Hurl as [Hurl | Hurl];
    apply negb_false_iff in Hurl; auto.
Qed.

(** X1.  A layer the constructor returns has a non-empty image format and a
    resource or service URL, holds the tile matrix set of the configuration,
    has a sector whenever its tile matrix set is in EPSG:4326, and starts
    with no current tile, no retrieval in flight, no top-level tile and its
    tiles marked invalid. *)
Theorem WmtsLayer_constructed {W : Collaborators} (config : option Config.t)
    (layer : Layer) :
  WmtsLayer config = Ok layer ->
  exists c,
    config = Some c
    /\ Config.imageFormat c = Some (imageFormat layer)
    /\ imageFormat layer <> EmptyString
    /\ resourceUrl layer = Config.resourceUrl c
    /\ serviceUrl layer = Config.serviceUrl c
    /\ (Js.truthy (resourceUrl layer) = true
        \/ Js.truthy (serviceUrl layer) = true)
    /\ Config.tileMatrixSet c = Some (tileMatrixSet layer)
    /\ (isEpsg4326Crs (supportedCRS (tileMatrixSet layer)) = true ->
        is_Some (sector layer))
    /\ (is_Some (Config.wgs84BoundingBox c) -> is_Some (sector layer))
    /\ currentTiles layer = [] /\ currentRetrievals layer = []
    /\ currentTilesInvalid layer = true
    /\ topLevelTiles layer = None /\ currentAncestorTile layer = None.
Proof.
  unfold WmtsLayer. destruct config as [c |]; [| discriminate].
  destruct (Config.imageFormat c) as [format |] eqn:Hformat; [| discriminate].
  destruct (String.eqb_spec format EmptyString) as [| Hnonempty];
    [discriminate |].
  destruct (negb _ && negb _) eqn:Hurl; [discriminate |].
  destruct (Config.tileMatrixSet c) as [tms |] eqn:Htms; [| discriminate].
  destruct (constructorSector c tms) as [s |] eqn:Hsector; [| discriminate].
  intros [= <-]. exists c. cbn. repeat split; auto.
  - apply andb_false_iff in Hurl as [Hurl | Hurl];
      apply negb_false_iff in Hurl; auto.
  - intros Hcrs. unfold constructorSector in Hsector. rewrite Hcrs in Hsector.
    destruct (Config.wgs84BoundingBox c) as [wgs84 |],
      (Config.boundingBox c) as [boxes |],
      (tmsBoundingBox tms) as [box |];
      try destruct (isEpsg4326Crs (crs box)); simplify_eq; eauto.
  - intros [b Hb]. unfold constructorSector in Hsector. rewrite Hb in Hsector.
    simplify_eq. eauto.
Qed.

Lemma WmtsLayer_constructed_witness :
  exists c,
    Some (Sample.config Sample.geographic2) = Some c
    /\ Config.imageFormat c
       = Some (imageFormat (Sample.layerFor Sample.geographic2))
    /\ imageFormat (Sample.layerFor Sample.geographic2) <> EmptyString
    /\ resourceUrl (Sample.layerFor Sample.geographic2) = Config.resourceUrl c
    /\ serviceUrl (Sample.layerFor Sample.geographic2) = Config.serviceUrl c
    /\ (Js.truthy (resourceUrl (Sample.layerFor Sample.geographic2)) = true
        \/ Js.truthy (serviceUrl (Sample.layerFor Sample.geographic2)) = true)
    /\ Config.tileMatrixSet c
       = Some (tileMatrixSet (Sample.layerFor Sample.geographic2))
    /\ (isEpsg4326Crs
          (supportedCRS (tileMatrixSet (Sample.layerFor Sample.geographic2)))
        = true ->
        is_Some (sector (Sample.layerFor Sample.geographic2)))
    /\ (is_Some (Config.wgs84BoundingBox c) ->
        is_Some (sector (Sample.layerFor Sample.geographic2)))
    /\ currentTiles (Sample.layerFor Sample.geographic2) = []
    /\ currentRetrievals (Sample.layerFor Sample.geographic2) = []
    /\ currentTilesInvalid (Sample.layerFor Sample.geographic2) = true
    /\ topLevelTiles (Sample.layerFor Sample.geographic2) = None
    /\ currentAncestorTile (Sample.layerFor Sample.geographic2) = None.
Proof.
  apply (WmtsLayer_constructed (Some (Sample.config Sample.geographic2))).
  by_evaluation.
Defined.

Lemma chooseImageFormat_priority (formats : list string) (f : string) :
  chooseImageFormat formats = Some f ->
  (f ∈ formats)
  /\ (("image/png"%string ∈ formats) -> f = "image/png"%string)
  /\ (("image/png"%string ∉ formats) -> ("image/jpeg"%string ∈ formats) ->
      f = "image/jpeg"%string)
  /\ (("image/png"%string ∉ formats) -> ("image/jpeg"%string ∉ formats) ->
      ("image/tiff"%string ∈ formats) -> f = "image/tiff"%string)
  /\ (("image/png"%string ∉ formats) -> ("image/jpeg"%string ∉ formats) ->
      ("image/tiff"%string ∉ formats) -> ("image/gif"%string ∈ formats) ->
      f = "image/gif"%string)
  /\ (("image/png"%string ∉ formats) -> ("image/jpeg"%string ∉ formats) ->
      ("image/tiff"%string ∉ formats) -> ("image/gif"%string ∉ formats) ->
      head formats = Some f).
Proof.
  unfold chooseImageFormat.
  assert (forall x, (Js.arrayIndexOf formats x >=? 0) = false -> x ∉ formats)
    as Hmissing.
  { intros x Hnot Hin. apply arrayIndexOf_found in Hin. congruence. }
  destruct (Js.arrayIndexOf formats "image/png" >=? 0) eqn:Hpng.
  { apply arrayIndexOf_found in Hpng. intros [= <-].
    repeat split; intros; done. }
  apply Hmissing in Hpng.
  destruct (Js.arrayIndexOf formats "image/jpeg" >=? 0) eqn:Hjpeg.
  { apply arrayIndexOf_found in Hjpeg. intros [= <-].
    repeat split; intros; done. }
  apply Hmissing in Hjpeg.
  destruct (Js.arrayIndexOf formats "image/tiff" >=? 0) eqn:Htiff.
  { apply arrayIndexOf_found in Htiff. intros [= <-].
    repeat split; intros; done. }
  apply Hmissing in Htiff.
  destruct (Js.arrayIndexOf formats "image/gif" >=? 0) eqn:Hgif.
  { apply arrayIndexOf_found in Hgif. intros [= <-].
    repeat split; intros; done. }
  apply Hmissing in Hgif.
  intros Hhead. repeat split; intros; try done.
  destruct formats as [| g formats]; [discriminate |].
  injection Hhead as ->. apply list_elem_of_here.
Qed.

(** X2.  The image format of a configuration is one of the formats the
    capabilities list, and it is not empty: image/png when listed, else
    image/jpeg, else image/tiff, else image/gif, else the first format
    listed. *)
Theorem createConfigurationFromLayer_imageFormat
    (fixGetMapString : string -> string) (caps : Caps.t) (config : Config.t) :
  createConfigurationFromLayer fixGetMapString (Some caps) = Ok config ->
  exists f,
    Config.imageFormat config = Some f
    /\ f <> EmptyString
    /\ (f ∈ Caps.formats caps)
    /\ (("image/png"%string ∈ Caps.formats caps) -> f = "image/png"%string)
    /\ (("image/png"%string ∉ Caps.formats caps) ->
        ("image/jpeg"%string ∈ Caps.formats caps) -> f = "image/jpeg"%string)
    /\ (("image/png"%string ∉ Caps.formats caps) ->
        ("image/jpeg"%string ∉ Caps.formats caps) ->
        ("image/tiff"%string ∈ Caps.formats caps) -> f = "image/tiff"%string)
    /\ (("image/png"%string ∉ Caps.formats caps) ->
        ("image/jpeg"%string ∉ Caps.formats caps) ->
        ("image/tiff"%string ∉ Caps.formats caps) ->
        ("image/gif"%string ∈ Caps.formats caps) -> f = "image/gif"%string)
    /\ (("image/png"%string ∉ Caps.formats caps) ->
        ("image/jpeg"%string ∉ Caps.formats caps) ->
        ("image/tiff"%string ∉ Caps.formats caps) ->
        ("image/gif"%string ∉ Caps.formats caps) ->
        head (Caps.formats caps) = Some f).
Proof.
  intros Hok.
  destruct (createConfigurationFromLayer_inv _ _ _ Hok) as (Htruthy & -> & _).
  destruct (chooseImageFormat (Caps.formats caps)) as [f |] eqn:Hf;
    [| discriminate].
  exists f. split; [reflexivity |]. split.
  - simpl in Htruthy. intros ->. discriminate.
  - by apply chooseImageFormat_priority.
Qed.

(** X3.  A configuration never holds both a resource URL and a service URL.
    When the capabilities list resource URLs, the configuration holds the
    template of one listed for the chosen image format; the service URL is
    only taken, completed, when no resource URL is listed.  When resource
    URLs are listed but none for the chosen format, no configuration is
    made, whatever the service address. *)
Theorem createConfigurationFromLayer_urls
    (fixGetMapString : string -> string) (caps : Caps.t) :
  (forall config,
     createConfigurationFromLayer fixGetMapString (Some caps) = Ok config ->
     (Config.serviceUrl config = None
      /\ exists r urls template,
           Caps.resourceUrl caps = Some urls /\ (r ∈ urls)
           /\ Some (Caps.format r) = Config.imageFormat config
           /\ Caps.template r = Some template
           /\ template <> EmptyString
           /\ Config.resourceUrl config = Some template)
     \/ (Config.resourceUrl config = None
         /\ (Caps.resourceUrl caps = None \/ Caps.resourceUrl caps = Some [])
         /\ exists address,
              Caps.getGetTileKvpAddress caps = Some address
              /\ Config.serviceUrl config = Some (fixGetMapString address)
              /\ fixGetMapString address <> EmptyString))
  /\ (forall r urls f,
        Caps.resourceUrl caps = Some (r :: urls) ->
        chooseImageFormat (Caps.formats caps) = Some f ->
        Forall (fun r => Caps.format r <> f) (r :: urls) ->
        exists e,
          createConfigurationFromLayer fixGetMapString (Some caps) = Throw e).
Proof.
  split.
  - intros config Hok.
    destruct (createConfigurationFromLayer_inv _ _ _ Hok)
      as (Htruthy & Hformat & Hresource & Hservice & Hurl & _).
    destruct (chooseImageFormat (Caps.formats caps)) as [f |] eqn:Hf;
      [| discriminate].
    destruct (Caps.resourceUrl caps) as [[| r rs] |] eqn:Hurls.
    + right. rewrite Hresource, Hservice in *. split; [reflexivity |].
      split; [by right |].
      destruct Hurl as [Hurl | Hurl]; [discriminate |].
      destruct (Caps.getGetTileKvpAddress caps) as [address |];
        [| discriminate].
      destruct (Js.truthy (Some address)) eqn:Haddress;
        [| rewrite Haddress in Hurl; discriminate].
      exists address. repeat split. simpl in Hurl.
      intros Hempty. rewrite Hempty in Hurl. discriminate.
    + left. rewrite Hresource, Hservice in *. split; [reflexivity |].
      destruct Hurl as [Hurl | Hurl]; [| discriminate].
      destruct (chooseResourceUrl (Some f) (r :: rs)) as [template |] eqn:Hchosen;
        [| discriminate].
      destruct (chooseResourceUrl_found _ _ _ Hchosen)
        as (r' & Hin & Hrformat & Htemplate).
      exists r', (r :: rs), template. rewrite Hformat, Hrformat.
      repeat split; auto. intros ->. discriminate.
    + right. rewrite Hresource, Hservice in *. split; [reflexivity |].
      split; [by left |].
      destruct Hurl as [Hurl | Hurl]; [discriminate |].
      destruct (Caps.getGetTileKvpAddress caps) as [address |];
        [| discriminate].
      destruct (Js.truthy (Some address)) eqn:Haddress;
        [| rewrite Haddress in Hurl; discriminate].
      exists address. repeat split. simpl in Hurl.
      intros Hempty. rewrite Hempty in Hurl. discriminate.
  - intros r urls f Hurls Hf Hnone.
    destruct (createConfigurationFromLayer fixGetMapString (Some caps))
      as [config | e] eqn:Hok; [| eauto].
    destruct (createConfigurationFromLayer_inv _ _ _ Hok)
      as (_ & _ & Hresource & Hservice & Hurl & _).
    rewrite Hurls, Hf, chooseResourceUrl_none in Hresource by assumption.
    rewrite Hurls in Hservice. rewrite Hresource, Hservice in Hurl.
    destruct Hurl; discriminate.
Qed.

Lemma createConfigurationFromLayer_imageFormat_witness :
  exists f,
    Config.imageFormat (Sample.config (converted Sample.geographic2)) = Some f
    /\ f <> EmptyString /\ (f ∈ ["image/jpeg"; "image/png"]%string).
Proof.
  destruct (createConfigurationFromLayer_imageFormat (fun s => s)
              (Sample.caps [Sample.geographic2])
              (Sample.config (converted Sample.geographic2)))
    as (f & Hf & Hnonempty & Hin & _).
  - vm_compute. reflexivity.
  - exists f. auto.
Defined.

Lemma createConfigurationFromLayer_urls_witness :
  Config.serviceUrl (Sample.config (converted Sample.geographic2)) = None
  /\ exists template,
       Config.resourceUrl (Sample.config (converted Sample.geographic2))
       = Some template.
Proof.
  destruct (createConfigurationFromLayer_urls (fun s => s)
              (Sample.caps [Sample.geographic2])) as [Hurls _].
  destruct (Hurls (Sample.config (converted Sample.geographic2)))
    as [(Hservice & r & urls & template & _ & _ & _ & _ & _ & Hresource)
       | (Hresource & _)].
  - vm_compute. reflexivity.
  - split; [exact Hservice | eauto].
  - discriminate.
Defined.

(** X4.  The constructor accepts every configuration that
    [createConfigurationFromLayer] makes from capabilities with a WGS84
    bounding box.  The layer has a sector, its tile matrix set is one that
    [convertTileMatrixSets] kept, in a supported coordinate system and with
    at least two levels. *)
Theorem negotiated_configuration_constructs {W : Collaborators}
    (fixGetMapString : string -> string) (caps : Caps.t) (config : Config.t) :
  createConfigurationFromLayer fixGetMapString (Some caps) = Ok config ->
  is_Some (Caps.wgs84BoundingBox caps) ->
  exists layer set,
    WmtsLayer (Some config) = Ok layer
    /\ is_Some (sector layer)
    /\ (set ∈ Caps.getLayerSupportedTileMatrixSets caps)
    /\ tileMatrixSet layer = converted set
    /\ supportedCrs (supportedCRS (tileMatrixSet layer)) = true
    /\ (2 <= length (tileMatrix (tileMatrixSet layer)))%nat.
Proof.
  intros Hok [box Hbox].
  destruct (createConfigurationFromLayer_inv _ _ _ Hok)
    as (Htruthy & Hformat & _ & _ & Hurl & Hwgs84 & _).
  pose proof (createConfigurationFromLayer_tileMatrixSet _ _ _ Hok) as Htms.
  destruct (Config.tileMatrixSet config) as [tms |] eqn:Hset.
  2: { exfalso. unfold createConfigurationFromLayer in Hok.
       destruct (negb _); [discriminate |].
       destruct (match Caps.resourceUrl caps with
                 | Some (r :: rs) => _
                 | _ => _
                 end) as [resourceUrl serviceUrl].
       destruct (negb _ && negb _); [discriminate |].
       simpl convertTileMatrixSets in Hok. rewrite convertStep_fold in Hok.
       simpl app in Hok. symmetry in Htms. apply last_None in Htms.
       rewrite Htms in Hok. discriminate. }
  symmetry in Htms. apply last_Some in Htms as [sets Htms].
  assert (tms ∈ converted <$> filter survives
                  (Caps.getLayerSupportedTileMatrixSets caps)) as Hin.
  { rewrite Htms. apply elem_of_app. right. apply list_elem_of_here. }
  apply list_elem_of_fmap in Hin as (set & -> & Hin).
  apply list_elem_of_filter in Hin as [[Hcrs Hlevels] Hin].
  unfold WmtsLayer. rewrite Hformat.
  destruct (chooseImageFormat (Caps.formats caps)) as [f |]; [| discriminate].
  simpl in Htruthy. apply negb_true_iff in Htruthy. rewrite Htruthy.
  assert (negb (Js.truthy (Config.resourceUrl config))
          && negb (Js.truthy (Config.serviceUrl config)) = false) as ->.
  { destruct Hurl as [-> | ->]; [reflexivity | apply andb_false_r]. }
  rewrite Hset. unfold constructorSector. rewrite Hwgs84, Hbox.
  eexists _, set. split; [reflexivity |]. cbn.
  repeat split; eauto.
Qed.

Lemma negotiated_configuration_constructs_witness :
  exists layer set,
    WmtsLayer (W := Sample.collaborators)
      (Some (Sample.config (converted Sample.geographic2))) = Ok layer
    /\ is_Some (sector layer)
    /\ (set ∈ [Sample.geographic2])
    /\ tileMatrixSet layer = converted set
    /\ supportedCrs (supportedCRS (tileMatrixSet layer)) = true
    /\ (2 <= length (tileMatrix (tileMatrixSet layer)))%nat.
Proof.
  apply (negotiated_configuration_constructs (fun s => s)
           (Sample.caps [Sample.geographic2])).
  - vm_compute. reflexivity.
  - eexists. reflexivity.
Defined.

(** ** Negotiating twice *)

Lemma even_rem2 (a : Z) : Z.even a = true -> Z.rem a 2 = 0.
Proof.
  intros Heven. apply Z.even_spec in Heven as [k ->].
  rewrite Z.mul_comm. apply Z.rem_mul. discriminate.
Qed.

(** A pass of the level loop after level 0 appends a conforming level that
    doubles the previous height, or follows no height. *)
Lemma levelStep_pushes (crs : string) (j : nat) (m : TileMatrix)
    (kept : list TileMatrix) (previousHeight : Z) :
  supportedCrs crs = true ->
  (0 < j)%nat ->
  conforming crs m ->
  previousHeight = 0 \/ 2 * previousHeight = matrixHeight m ->
  levelStep crs j m (kept, previousHeight) = (kept ++ [m], matrixHeight m).
Proof.
  intros Hcrs Hj (Haspect & Hh & Hw & Hsquare & H256) Hprevious.
  unfold levelStep. destruct (Nat.eqb_spec j 0) as [-> | _]; [lia |].
  unfold aspectRatioMatches in Haspect.
  rewrite (even_rem2 _ Hh), (even_rem2 _ Hw), Hsquare. cbn [Z.eqb negb orb].
  rewrite Z.eqb_refl. rewrite <- Hsquare, H256. cbn [Z.eqb negb Pos.eqb].
  assert ((previousHeight =? 0) || (2 * previousHeight =? matrixHeight m) = true)
    as ->.
  { destruct Hprevious as [-> | <-]; [reflexivity |].
    rewrite Z.eqb_refl. apply orb_true_r. }
  destruct (isEpsg3857Crs crs) eqn:H3857.
  - rewrite Haspect, Z.eqb_refl. reflexivity.
  - assert (isEpsg4326Crs crs || isOGCCrs84 crs = true) as ->.
    { unfold supportedCrs in Hcrs. rewrite H3857 in Hcrs.
      destruct (isEpsg4326Crs crs); simpl in *; auto. }
    rewrite Haspect, Z.mul_comm, Z.eqb_refl. reflexivity.
Qed.

(** The level loop keeps every level of a conforming doubling chain. *)
Lemma levelLoop_keeps_chain (crs : string) (levels : list TileMatrix) :
  supportedCrs crs = true ->
  forall (j : nat) (m0 : TileMatrix) (kept : list TileMatrix),
    (0 < j)%nat ->
    Forall (conforming crs) levels ->
    doublingNonZero (kept ++ levels) ->
    fst (levelLoop crs j levels (m0 :: kept, lastHeight kept))
    = m0 :: kept ++ levels.
Proof.
  intros Hcrs. induction levels as [| m levels IH];
    intros j m0 kept Hj Hall Hchain.
  - by rewrite app_nil_r.
  - apply Forall_cons in Hall as [Hm Hall]. cbn [levelLoop].
    assert (lastHeight kept = 0 \/ 2 * lastHeight kept = matrixHeight m)
      as Hprevious.
    { unfold lastHeight. destruct (last kept) as [a |] eqn:Hlast; [| by left].
      destruct (decide (matrixHeight a = 0)) as [| Hnz]; [by left | right].
      rewrite last_lookup in Hlast.
      assert (length kept <> 0)%nat as Hlen by (by destruct kept).
      symmetry. apply (Hchain (pred (length kept)) a m); [| | assumption].
      - by rewrite lookup_app_l by lia.
      - rewrite lookup_app_r by lia.
        by replace (S (pred (length kept)) - length kept)%nat with 0%nat by lia. }
    rewrite (levelStep_pushes crs j m (m0 :: kept)) by assumption.
    rewrite <- app_comm_cons.
    replace (matrixHeight m) with (lastHeight (kept ++ [m]))
      by apply lastHeight_snoc.
    rewrite IH; [by rewrite <- app_assoc | lia | assumption |].
    by rewrite <- app_assoc.
Qed.

Lemma compatibleLevels_converted (set : TileMatrixSet) :
  supportedCrs (supportedCRS set) = true ->
  compatibleLevels (converted set) = compatibleLevels set.
Proof.
  intros Hcrs.
  destruct (compatibleLevels_spec set Hcrs) as (_ & _ & Hall & Hchain).
  unfold compatibleLevels at 1. cbn [converted convertedTileMatrixSet
    supportedCRS tileMatrix].
  destruct (compatibleLevels set) as [| m0 kept]; [reflexivity |].
  cbn [levelLoop levelStep Nat.eqb app].
  apply (levelLoop_keeps_chain (supportedCRS set) kept Hcrs 1 m0 []);
    [lia | exact Hall | exact Hchain].
Qed.

Lemma converted_idempotent (set : TileMatrixSet) :
  supportedCrs (supportedCRS set) = true ->
  converted (converted set) = converted set.
Proof.
  intros Hcrs. unfold converted at 1 3, convertedTileMatrixSet.
  rewrite compatibleLevels_converted by assumption.
  cbn [converted convertedTileMatrixSet tmsIdentifier supportedCRS
       wellKnownScaleSet tmsBoundingBox].
  by destruct (Js.truthy (wellKnownScaleSet set)) eqn:Hscale; rewrite ?Hscale.
Qed.

(** X5.  Negotiating the sets that a negotiation kept keeps them all and
    changes none: [convertTileMatrixSets] is idempotent. *)
Theorem convertTileMatrixSets_idempotent (caps : Caps.t)
    (sets : list TileMatrixSet) :
  convertTileMatrixSets (Some caps) = Ok sets ->
  convertTileMatrixSets
    (Some (Caps.mk (Caps.identifier caps) (Caps.style caps)
             (Caps.dimension caps) (Caps.formats caps) (Caps.resourceUrl caps)
             (Caps.getGetTileKvpAddress caps) (Caps.boundingBox caps)
             (Caps.wgs84BoundingBox caps) (Caps.titles caps) sets))
  = Ok sets.
Proof.
  intros [= <-]. cbn. f_equal. rewrite !convertStep_fold. cbn [app].
  induction (Caps.getLayerSupportedTileMatrixSets caps) as [| set input IH];
    [reflexivity |].
  rewrite filter_cons. destruct (decide (survives set)) as [[Hcrs Hlen] |];
    [| exact IH].
  rewrite fmap_cons, filter_cons.
  rewrite decide_True.
  - rewrite fmap_cons, IH. by rewrite converted_idempotent.
  - split; [exact Hcrs |]. by rewrite compatibleLevels_converted.
Qed.

Lemma convertTileMatrixSets_idempotent_witness :
  convertTileMatrixSets
    (Some (Sample.caps [converted Sample.geographic3]))
  = Ok [converted Sample.geographic3].
Proof.
  apply (convertTileMatrixSets_idempotent
           (Sample.caps [Sample.geographic3; Sample.utm])).
  vm_compute. reflexivity.
Defined.

(** ** The geographic grid *)

Section Grid.

Context {W : Collaborators}.

(** The tile of a geographic layer, with its edges. *)
Lemma createTile_geographic (layer : Layer) (layerSector : Sector)
    (tm : TileMatrix) (r c : Z) :
  sector layer = Some layerSector ->
  geographic layer ->
  let dLat := (deltaLatitude layerSector / inject_Z (matrixHeight tm))%Q in
  let dLon := (deltaLongitude layerSector / inject_Z (matrixWidth tm))%Q in
  let maxLat := (cornerLatitude layer tm - inject_Z r * dLat)%Q in
  let minLon := (cornerLongitude layer tm + dLon * inject_Z c)%Q in
  createTile layer tm r c
  = Ok (Some (makeTile layer
                (mkSector (maxLat - dLat) maxLat minLon (minLon + dLon))
                tm r c)).
Proof.
  intros Hsector [H4326 | (H4326 & H3857 & H84)];
    unfold cornerLatitude, cornerLongitude; rewrite H4326.
  - rewrite createTile_4326 by assumption. unfold createTile4326.
    by rewrite Hsector.
  - rewrite createTile_crs84 by assumption. unfold createTileCrs84.
    by rewrite Hsector.
Qed.

Lemma Qdiv_nonneg (a : Q) (n : Z) : (0 <= a)%Q -> 0 < n -> (0 <= a / inject_Z n)%Q.
Proof.
  intros Ha Hn. apply Qmult_le_0_compat; [assumption |].
  apply Qinv_le_0_compat. change 0%Q with (inject_Z 0).
  rewrite <- Zle_Qle. lia.
Qed.

(** X6.  In exact arithmetic (the edges as rationals, before the rounding
    of the program's doubles): in a geographic layer every tile of a matrix
    is as high as the layer's sector divided by the matrix height and as
    wide as the sector divided by the matrix width; when the layer's sector
    is well formed its edges are in order. *)
Theorem geographic_tile_extent (layer : Layer) (layerSector : Sector)
    (tm : TileMatrix) (r c : Z) :
  sector layer = Some layerSector ->
  geographic layer ->
  0 < matrixWidth tm -> 0 < matrixHeight tm ->
  exists tile,
    createTile layer tm r c = Ok (Some tile)
    /\ (deltaLatitude (Tile.sector tile)
        == deltaLatitude layerSector / inject_Z (matrixHeight tm))%Q
    /\ (deltaLongitude (Tile.sector tile)
        == deltaLongitude layerSector / inject_Z (matrixWidth tm))%Q
    /\ ((minLatitude layerSector <= maxLatitude layerSector)%Q ->
        (minLatitude (Tile.sector tile) <= maxLatitude (Tile.sector tile))%Q)
    /\ ((minLongitude layerSector <= maxLongitude layerSector)%Q ->
        (minLongitude (Tile.sector tile) <= maxLongitude (Tile.sector tile))%Q).
Proof.
  intros Hsector Hgeo Hw Hh.
  rewrite (createTile_geographic layer layerSector) by assumption.
  eexists. split; [reflexivity |]. cbn.
  set (dLat := (deltaLatitude layerSector / inject_Z (matrixHeight tm))%Q).
  set (dLon := (deltaLongitude layerSector / inject_Z (matrixWidth tm))%Q).
  repeat split.
  - unfold deltaLatitude at 1. cbn. ring.
  - unfold deltaLongitude at 1. cbn. ring.
  - intros Hordered.
    assert (0 <= dLat)%Q as Hd.
    { apply Qdiv_nonneg; [| assumption].
      apply Qle_minus_iff in Hordered. exact Hordered. }
    apply Qle_minus_iff. eapply Qle_trans; [exact Hd |].
    apply Qle_lteq. right. ring.
  - intros Hordered.
    assert (0 <= dLon)%Q as Hd.
    { apply Qdiv_nonneg; [| assumption].
      apply Qle_minus_iff in Hordered. exact Hordered. }
    apply Qle_minus_iff. eapply Qle_trans; [exact Hd |].
    apply Qle_lteq. right. ring.
Qed.

(** X7.  In exact arithmetic (the edges as rationals, before the rounding
    of the program's doubles): in a geographic layer the first row of a
    matrix starts at the latitude of its top-left corner and the first
    column at its longitude; the last row ends the height of the layer's
    sector below, and the last column the width of the sector to the right:
    the matrix covers an extent of exactly the size of the layer's
    sector. *)
Theorem geographic_grid_extent (layer : Layer) (layerSector : Sector)
    (tm : TileMatrix) :
  sector layer = Some layerSector ->
  geographic layer ->
  0 < matrixWidth tm -> 0 < matrixHeight tm ->
  exists first final,
    createTile layer tm 0 0 = Ok (Some first)
    /\ createTile layer tm (matrixHeight tm - 1) (matrixWidth tm - 1)
       = Ok (Some final)
    /\ (maxLatitude (Tile.sector first) == cornerLatitude layer tm)%Q
    /\ (minLongitude (Tile.sector first) == cornerLongitude layer tm)%Q
    /\ (minLatitude (Tile.sector final)
        == cornerLatitude layer tm - deltaLatitude layerSector)%Q
    /\ (maxLongitude (Tile.sector final)
        == cornerLongitude layer tm + deltaLongitude layerSector)%Q.
Proof.
  intros Hsector Hgeo Hw Hh.
  rewrite !(createTile_geographic layer layerSector) by assumption.
  do 2 eexists. split; [reflexivity |]. split; [reflexivity |]. cbn.
  assert (~ inject_Z (matrixHeight tm) == 0)%Q as Hh0.
  { change 0%Q with (inject_Z 0). rewrite inject_Z_injective. lia. }
  assert (~ inject_Z (matrixWidth tm) == 0)%Q as Hw0.
  { change 0%Q with (inject_Z 0). rewrite inject_Z_injective. lia. }
  repeat split.
  - ring.
  - ring.
  - unfold Z.sub. rewrite inject_Z_plus.
    change (inject_Z (Z.opp 1)) with (Qopp 1).
    field. exact Hh0.
  - unfold Z.sub. rewrite inject_Z_plus.
    change (inject_Z (Z.opp 1)) with (Qopp 1).
    field. exact Hw0.
Qed.

End Grid.

Lemma geographic_tile_extent_witness :
  exists tile,
    createTile (Sample.layerFor Sample.geographic3) (Sample.level 1 4 2) 1 3
      = Ok (Some tile)
    /\ (deltaLatitude (Tile.sector tile) == 90)%Q
    /\ (deltaLongitude (Tile.sector tile) == 90)%Q.
Proof.
  destruct (geographic_tile_extent (Sample.layerFor Sample.geographic3)
              (mkSector (-90) 90 (-180) 180) (Sample.level 1 4 2) 1 3)
    as (tile & Htile & Hlat & Hlon & _).
  - by_evaluation.
  - left. by_evaluation.
  - reflexivity.
  - reflexivity.
  - exists tile. split; [exact Htile |]. split.
    + rewrite Hlat. reflexivity.
    + rewrite Hlon. reflexivity.
Defined.

Lemma geographic_grid_extent_witness :
  exists first final,
    createTile (Sample.layerFor Sample.geographic3) (Sample.level 1 4 2) 0 0
      = Ok (Some first)
    /\ createTile (Sample.layerFor Sample.geographic3) (Sample.level 1 4 2)
         (2 - 1) (4 - 1) = Ok (Some final)
    /\ (maxLatitude (Tile.sector first) == 90)%Q
    /\ (minLongitude (Tile.sector first) == -180)%Q
    /\ (minLatitude (Tile.sector final) == -90)%Q
    /\ (maxLongitude (Tile.sector final) == 180)%Q.
Proof.
  destruct (geographic_grid_extent (Sample.layerFor Sample.geographic3)
              (mkSector (-90) 90 (-180) 180) (Sample.level 1 4 2))
    as (first & final & Hfirst & Hfinal & H1 & H2 & H3 & H4).
  - by_evaluation.
  - left. by_evaluation.
  - reflexivity.
  - reflexivity.
  - exists first, final. split; [exact Hfirst |]. split; [exact Hfinal |].
    rewrite H1, H2, H3, H4. repeat split; reflexivity.
Defined.

(** ** Image paths *)

Lemma append_cancel (p a b : string) : (p +:+ a = p +:+ b)%string -> a = b.
Proof. induction p as [| x p IH]; simpl; [auto |]. intros [= H]. auto. Qed.

(** Two strings cut at the first occurrence of a character are equal only
    piece by piece. *)
Lemma append_split (sep : ascii) (a a' b b' : string) :
  ~ occurs sep a -> ~ occurs sep a' ->
  (a +:+ String sep b = a' +:+ String sep b')%string ->
  a = a' /\ b = b'.
Proof.
  revert a'. induction a as [| x a IH]; intros [| x' a'] Ha Ha'; simpl.
  - intros [= ->]. auto.
  - intros [= -> _]. exfalso. apply Ha'. by left.
  - intros [= -> _]. exfalso. apply Ha. by left.
  - intros [= -> Hrest]. destruct (IH a') as [-> ->]; auto.
    + intros H. apply Ha. by right.
    + intros H. apply Ha'. by right.
Qed.

Lemma string_of_uint_chars (a : ascii) (d : Decimal.uint) :
  occurs a (NilEmpty.string_of_uint d) -> decimalChar a = true.
Proof.
  induction d; simpl; try contradiction; intros [-> | H]; auto.
Qed.

Lemma ofZ_chars (a : ascii) (z : Z) :
  occurs a (Js.ofZ z) -> decimalChar a = true.
Proof.
  unfold Js.ofZ, NilZero.string_of_int, NilZero.string_of_uint.
  destruct (Z.to_int z) as [d | d]; destruct d; simpl;
    repeat (intros [-> | H]; [reflexivity | revert H]);
    try contradiction; apply string_of_uint_chars.
Qed.

Lemma ofZ_injective (z z' : Z) : Js.ofZ z = Js.ofZ z' -> z = z'.
Proof.
  unfold Js.ofZ. intros Heq.
  assert (forall z, Z.to_int z <> Decimal.Pos Decimal.Nil
                    /\ Z.to_int z <> Decimal.Neg Decimal.Nil) as Hnonnil.
  { intros y. split; intros Hnil; pose proof (DecimalZ.of_to y) as Hy;
      rewrite Hnil in Hy; simpl in Hy; subst y; discriminate. }
  assert (Some (Z.to_int z) = Some (Z.to_int z')) as [= Hint].
  { rewrite <- (NilZero.isi (Z.to_int z)) by apply Hnonnil.
    rewrite <- (NilZero.isi (Z.to_int z')) by apply Hnonnil.
    by rewrite Heq. }
  rewrite <- (DecimalZ.of_to z), <- (DecimalZ.of_to z'). by rewrite Hint.
Qed.

Section Paths.

Context {W : Collaborators}.

Lemma createTile_imagePath (layer : Layer) (tm : TileMatrix) (row column : Z)
    (tile : Tile.t) :
  createTile layer tm row column = Ok (Some tile) ->
  Tile.imagePath tile
  = (cachePath layer +:+ "-layer/" +:+ identifier tm +:+ "/"
     +:+ Js.ofZ row +:+ "/" +:+ Js.ofZ column +:+ "."
     +:+ suffixForMimeType (imageFormat layer))%string.
Proof.
  unfold createTile, createTile4326, createTileCrs84, createTile3857.
  destruct (isEpsg4326Crs _).
  { destruct (sector layer); intros [= <-]; reflexivity. }
  destruct (isEpsg3857Crs _).
  { intros [= <-]; reflexivity. }
  destruct (isOGCCrs84 _); [| discriminate].
  destruct (sector layer); intros [= <-]; reflexivity.
Qed.

(** X8.  Within a layer, two tiles of one matrix have the same image path,
    the key of their textures and retrievals, only if they have the same
    row and the same column. *)
Theorem imagePath_injective (layer : Layer) (tm : TileMatrix)
    (row column row' column' : Z) (tile tile' : Tile.t) :
  createTile layer tm row column = Ok (Some tile) ->
  createTile layer tm row' column' = Ok (Some tile') ->
  Tile.imagePath tile = Tile.imagePath tile' ->
  row = row' /\ column = column'.
Proof.
  intros Htile Htile' Hpath.
  rewrite (createTile_imagePath _ _ _ _ _ Htile),
    (createTile_imagePath _ _ _ _ _ Htile') in Hpath.
  do 4 apply append_cancel in Hpath.
  apply append_split in Hpath as [Hrow Hrest].
  - apply append_split in Hrest as [Hcolumn _].
    + split; by apply ofZ_injective.
    + intros H. by apply ofZ_chars in H.
    + intros H. by apply ofZ_chars in H.
  - intros H. by apply ofZ_chars in H.
  - intros H. by apply ofZ_chars in H.
Qed.

End Paths.

Lemma imagePath_injective_witness :
  let tile := Sample.topLeftTile Sample.geographic2 in
  createTile (Sample.layerFor Sample.geographic2) (Sample.level 0 2 1) 0 0
    = Ok (Some tile)
  /\ Tile.row tile = 0 /\ Tile.column tile = 0
  /\ 0 = 0 /\ 0 = 0.
Proof.
  intros tile.
  assert (createTile (Sample.layerFor Sample.geographic2)
            (Sample.level 0 2 1) 0 0 = Ok (Some tile)) as Htile
    by by_evaluation.
  split; [exact Htile |]. split; [reflexivity |]. split; [reflexivity |].
  exact (imagePath_injective (Sample.layerFor Sample.geographic2)
           (Sample.level 0 2 1) 0 0 0 0 tile tile Htile Htile eq_refl).
Defined.

(** ** Requests, loads and failures *)

Lemma append_nonempty (a b : string) :
  b <> EmptyString -> (a +:+ b)%string <> EmptyString.
Proof. intros Hb. destruct a; simpl; [assumption | discriminate]. Qed.

Section Requests.

Context {W : Collaborators}.

(** A URL built from the service address is never empty. *)
Lemma resourceUrlForTile_kvp (layer : Layer) (tile : Tile.t) (format : string) :
  Js.truthy (resourceUrl layer) = false ->
  resourceUrlForTile layer tile format <> EmptyString.
Proof.
  intros Hkvp. unfold resourceUrlForTile. rewrite Hkvp.
  apply append_nonempty. discriminate.
Qed.

(** X9.  [retrieveTileImage] for a tile whose image path is neither in
    flight nor absent starts exactly one image load, for the URL of the
    tile, and adds the path to the retrievals in flight, whenever that URL
    is not empty; and a URL built from the service address never is.  When
    the URL is empty it starts no load and marks the current tiles
    invalid. *)
Theorem retrieveTileImage_requests (tile : Tile.t) (st : State) :
  Tile.imagePath tile ∉ currentRetrievals (layer st) ->
  fst (isResourceAbsent (absentResourceList (layer st)) (Tile.imagePath tile))
    = false ->
  let url := resourceUrlForTile (layer st) tile (imageFormat (layer st)) in
  let st' := retrieveTileImage tile st in
  (Js.truthy (resourceUrl (layer st)) = false -> url <> EmptyString)
  /\ (url <> EmptyString ->
      imageLoads st'
        = imageLoads st ++ [mkRetrieval url tile (Tile.imagePath tile)]
      /\ currentRetrievals (layer st')
         = currentRetrievals (layer st) ++ [Tile.imagePath tile]
      /\ currentTilesInvalid (layer st') = currentTilesInvalid (layer st))
  /\ (url = EmptyString ->
      imageLoads st' = imageLoads st
      /\ currentRetrievals (layer st') = currentRetrievals (layer st)
      /\ currentTilesInvalid (layer st') = true).
Proof.
  intros Hnew Hpresent url st'.
  split; [apply resourceUrlForTile_kvp |].
  subst st'. unfold retrieveTileImage.
  apply arrayIndexOf_negative in Hnew. rewrite Hnew.
  destruct (isResourceAbsent _ _) as [absent absentList].
  simpl in Hpresent. subst absent.
  change (resourceUrlForTile
            (layer (onLayer (setAbsentResourceList absentList) st)) tile
            (imageFormat (layer (onLayer (setAbsentResourceList absentList) st))))
    with url.
  split; intros Hurl.
  - destruct (String.eqb_spec url EmptyString); [contradiction |]. by cbn.
  - rewrite Hurl. by cbn.
Qed.

(** X10.  When the GPU resource cache keeps what is put in it, a tile
    whose image has loaded is pushed itself by the next [addTile], not an
    ancestor in its place. *)
Theorem loaded_tile_is_pushed (dc : DrawContext) (url : string)
    (tile : Tile.t) (image : Image) (st : State) :
  cacheKeepsResource ->
  is_Some (createTexture (layer st) tile image) ->
  let loaded := onload (mkRetrieval url tile (Tile.imagePath tile)) image st in
  currentTiles (layer (addTile dc tile loaded))
  = currentTiles (layer st) ++ [tile].
Proof.
  intros Hcache [texture Htexture] loaded.
  assert (resourceForKey (gpuResourceCache loaded) (Tile.imagePath tile)
          = Some texture) as Hresource.
  { subst loaded. unfold onload. simpl. rewrite Htexture. apply Hcache. }
  assert (currentTiles (layer loaded) = currentTiles (layer st)) as Htiles.
  { subst loaded. unfold onload. simpl. rewrite Htexture.
    destruct (removeFromCurrentRetrievals_only (Tile.imagePath tile) (layer st))
      as [retrievals Hremove].
    simpl. rewrite Hremove. reflexivity. }
  destruct (addTile_pushes dc tile loaded) as (_ & _ & pushed & -> & Hpushed).
  rewrite Htiles. f_equal.
  destruct Hpushed as [[-> _] | [(ancestor & _ & Hnone & _) | [_ Hnone]]];
    [reflexivity | congruence | congruence].
Qed.

(** X11.  When the absent list remembers what is marked absent, the tile of
    a retrieval that failed is not requested again by [retrieveTileImage]:
    no load starts and no retrieval is added. *)
Theorem failed_tile_is_not_requested (url : string) (tile : Tile.t)
    (st : State) :
  absentListRemembers ->
  let failed := onerror (mkRetrieval url tile (Tile.imagePath tile)) st in
  imageLoads (retrieveTileImage tile failed) = imageLoads st
  /\ currentRetrievals (layer (retrieveTileImage tile failed))
     = currentRetrievals (layer failed).
Proof.
  intros Habsent failed.
  assert (fst (isResourceAbsent (absentResourceList (layer failed))
                 (Tile.imagePath tile)) = true) as Hmarked.
  { subst failed. unfold onerror. simpl. apply Habsent. }
  assert (imageLoads failed = imageLoads st) as <- by reflexivity.
  split; destruct (retrieveTileImage_absent tile failed Hmarked) as [-> | ->];
    reflexivity.
Qed.

End Requests.

Lemma sample_cacheKeepsResource : @cacheKeepsResource Sample.collaborators.
Proof. intros cache key texture size. apply lookup_insert_eq. Qed.

Lemma sample_absentListRemembers : @absentListRemembers Sample.collaborators.
Proof.
  intros absent key. simpl. apply bool_decide_eq_true. set_solver.
Qed.

Lemma retrieveTileImage_requests_witness :
  let tile := Sample.topLeftTile Sample.geographic2 in
  let st := Sample.start Sample.geographic2 ∅ in
  let url := resourceUrlForTile (layer st) tile (imageFormat (layer st)) in
  imageLoads (retrieveTileImage tile st)
    = imageLoads st ++ [mkRetrieval url tile (Tile.imagePath tile)]
  /\ currentRetrievals (layer (retrieveTileImage tile st))
     = currentRetrievals (layer st) ++ [Tile.imagePath tile]
  /\ currentTilesInvalid (layer (retrieveTileImage tile st))
     = currentTilesInvalid (layer st).
Proof.
  intros tile st url.
  destruct (retrieveTileImage_requests tile st) as (_ & Hrequests & _).
  - apply not_elem_of_nil.
  - by_evaluation.
  - apply Hrequests. intros Hempty. vm_compute in Hempty. discriminate.
Defined.

(** The replacement patterns of [String.prototype.replace] apply to the
    identifiers put in a template: a style [a$$b] is requested as [a$b],
    and with the style [$'] the template [{Style}] gives the empty URL. *)
Lemma resourceUrlForTile_replacement_patterns :
  let config style template :=
    {| Config.layerIdentifier := Some "imagery"%string;
       Config.styleIdentifier := Some style;
       Config.timeString := None;
       Config.imageFormat := Some "image/png"%string;
       Config.resourceUrl := Some template;
       Config.serviceUrl := None;
       Config.tileMatrixSet := Some Sample.geographic2;
       Config.boundingBox := None;
       Config.wgs84BoundingBox := Some Sample.world;
       Config.title := None |} in
  let url style template :=
    match WmtsLayer (W := Sample.collaborators)
            (Some (config style template)) with
    | Ok layer => Some (resourceUrlForTile layer Sample.polarTile "image/png")
    | Throw _ => None
    end in
  url "a$$b"%string "https://tiles.example/{Style}/{TileMatrix}.png"%string
  = Some "https://tiles.example/a$b/0.png"%string
  /\ url "$'"%string "{Style}"%string = Some EmptyString.
Proof. split; vm_compute; reflexivity. Qed.

Lemma loaded_tile_is_pushed_witness :
  let tile := Sample.topLeftTile Sample.geographic2 in
  let st := Sample.start Sample.geographic2 ∅ in
  let loaded :=
    onload (mkRetrieval "https://tiles.example" tile (Tile.imagePath tile))
      Sample.pixel st in
  currentTiles (layer (addTile Sample.near tile loaded))
  = currentTiles (layer st) ++ [tile].
Proof.
  intros tile st.
  apply (loaded_tile_is_pushed Sample.near "https://tiles.example" tile
           Sample.pixel st).
  - exact sample_cacheKeepsResource.
  - exists Sample.pixel. by_evaluation.
Defined.

Lemma failed_tile_is_not_requested_witness :
  let tile := Sample.topLeftTile Sample.geographic2 in
  let st := Sample.start Sample.geographic2 ∅ in
  let failed :=
    onerror (mkRetrieval "https://tiles.example" tile (Tile.imagePath tile)) st in
  imageLoads (retrieveTileImage tile failed) = imageLoads st
  /\ currentRetrievals (layer (retrieveTileImage tile failed))
     = currentRetrievals (layer failed).
Proof.
  intros tile st.
  apply (failed_tile_is_not_requested "https://tiles.example" tile st).
  exact sample_absentListRemembers.
Defined.

(** ** Frames *)

Lemma length_bind_constant {A B : Type} (f : A -> list B) (k : nat)
    (l : list A) :
  (forall x, length (f x) = k) -> length (l ≫= f) = (length l * k)%nat.
Proof.
  intros Hf. induction l as [| x l IH]; [reflexivity |].
  rewrite bind_cons, length_app, Hf, IH. simpl. lia.
Qed.

(** The loops of [createTopLevelTiles] visit every cell of the matrix, and
    as many cells as the matrix has. *)
Lemma matrixCells_spec (tm : TileMatrix) :
  (forall j i, (j, i) ∈ matrixCells tm <->
               0 <= j < matrixHeight tm /\ 0 <= i < matrixWidth tm)
  /\ length (matrixCells tm)
     = (Z.to_nat (matrixHeight tm) * Z.to_nat (matrixWidth tm))%nat.
Proof.
  unfold matrixCells. split.
  - intros j i. rewrite list_elem_of_bind. split.
    + intros (j' & Hcell & Hj). apply list_elem_of_bind in Hcell
        as (i' & Hcell & Hi).
      apply list_elem_of_singleton in Hcell as [= -> ->].
      apply elem_of_seqZ in Hj, Hi. lia.
    + intros [Hj Hi]. exists j. split; [| apply elem_of_seqZ; lia].
      apply list_elem_of_bind. exists i.
      split; [apply list_elem_of_singleton; reflexivity |].
      apply elem_of_seqZ. lia.
  - rewrite (length_bind_constant _ (Z.to_nat (matrixWidth tm))).
    + by rewrite length_seqZ.
    + intros j. rewrite (length_bind_constant _ 1%nat) by reflexivity.
      rewrite length_seqZ. lia.
Qed.

Section Frames.

Context {W : Collaborators}.

Lemma onlyRequests_refl (st : State) : onlyRequests st st.
Proof. unfold onlyRequests, sameFrame. by repeat split. Qed.

Lemma onlyRequests_trans (st0 st1 st2 : State) :
  onlyRequests st0 st1 -> onlyRequests st1 st2 -> onlyRequests st0 st2.
Proof.
  intros (Hframe & Hredraw & Hloads & Hretrievals)
         (Hframe' & Hredraw' & Hloads' & Hretrievals').
  split; [by eapply sameFrame_trans |].
  split; [congruence |].
  split; by etrans.
Qed.

Lemma retrieveTileImage_onlyRequests (tile : Tile.t) (st : State) :
  onlyRequests st (retrieveTileImage tile st).
Proof.
  split; [apply retrieveTileImage_frame |].
  destruct (retrieveTileImage_cases tile st)
    as [[_ ->] | (_ & l & Hcur & _ & _ & _ & _ & _ & [-> | [url ->]])];
    cbn; rewrite ?Hcur; repeat split; try done; by apply prefix_app_r.
Qed.

Lemma pushCurrentTile_onlyRequests (tile : Tile.t) (st : State) :
  onlyRequests st (pushCurrentTile tile st).
Proof.
  destruct st as [[] ? ? ?]. unfold onlyRequests, sameFrame. by repeat split.
Qed.

Lemma addTile_onlyRequests (dc : DrawContext) (tile : Tile.t) (st : State) :
  onlyRequests st (addTile dc tile st).
Proof.
  unfold addTile. destruct (resourceForKey _ _) as [texture |].
  - eapply onlyRequests_trans; [apply (pushCurrentTile_onlyRequests tile) |].
    destruct (isTextureExpired _ _); [| apply onlyRequests_refl].
    apply retrieveTileImage_onlyRequests.
  - pose proof (retrieveTileImage_onlyRequests tile st) as Hrequests.
    destruct (currentAncestorTile _); [| assumption].
    destruct (isTileTextureInMemory _ _); [| assumption].
    eapply onlyRequests_trans; [exact Hrequests |].
    apply pushCurrentTile_onlyRequests.
Qed.

Lemma onlyRequests_kept (st0 : State) : Kept (onlyRequests st0).
Proof.
  constructor; try (intros; assumption).
  intros dc tile st Hst. eapply onlyRequests_trans; [exact Hst |].
  apply addTile_onlyRequests.
Qed.

(** X12.  Whether it returns or throws, a frame leaves alone the GPU
    resource cache, the tile matrix set, the sector and the detail control of
    the layer, and sends no redraw event; the image loads and the
    retrievals in flight that there were are still there, in their place:
    a frame cancels nothing. *)
Theorem assembleTiles_only_requests (fuel : nat) (dc : DrawContext)
    (st : State) :
  after (onlyRequests st) (assembleTiles fuel dc st).
Proof.
  apply assembleTiles_after; [apply onlyRequests_kept | apply onlyRequests_refl].
Qed.

Lemma pushTopLevelTiles_cells (layer : Layer) (tm : TileMatrix) :
  (forall row column, exists tile,
      createTile layer tm row column = Ok (Some tile)) ->
  forall cells tiles,
    exists made,
      pushTopLevelTiles layer tm cells tiles = (tiles ++ (Some <$> made), None)
      /\ (fun tile => (Tile.row tile, Tile.column tile)) <$> made = cells
      /\ Forall (fun tile => Tile.tileMatrix tile = tm) made.
Proof.
  intros Hmake. induction cells as [| [j i] cells IH]; intros tiles.
  - exists []. simpl. by rewrite app_nil_r.
  - simpl. destruct (Hmake j i) as [tile Htile]. rewrite Htile.
    destruct (IH (tiles ++ [Some tile])) as (made & -> & Hcells & Hmade).
    exists (tile :: made). rewrite <- app_assoc. split; [reflexivity |].
    apply createTile_address in Htile as (Hmatrix & Hrow & Hcolumn).
    split; [by rewrite fmap_cons, Hrow, Hcolumn, Hcells |].
    by constructor.
Qed.

(** X13.  For a layer in a supported coordinate system that has a sector,
    [createTopLevelTiles] returns and makes one tile of the first matrix of
    the tile matrix set for every cell of that matrix, row after row: as
    many tiles as the matrix has rows times columns. *)
Theorem createTopLevelTiles_cells (st : State) (tm : TileMatrix) :
  supportedCrs (supportedCRS (tileMatrixSet (layer st))) = true ->
  is_Some (sector (layer st)) ->
  head (tileMatrix (tileMatrixSet (layer st))) = Some tm ->
  exists made,
    createTopLevelTiles st
    = Returned (onLayer (setTopLevelTiles (Some (Some <$> made))) st)
    /\ (fun tile => (Tile.row tile, Tile.column tile)) <$> made = matrixCells tm
    /\ Forall (fun tile => Tile.tileMatrix tile = tm) made
    /\ length made
       = (Z.to_nat (matrixHeight tm) * Z.to_nat (matrixWidth tm))%nat
    /\ (forall j i,
          0 <= j < matrixHeight tm -> 0 <= i < matrixWidth tm ->
          exists tile, tile ∈ made /\ Tile.row tile = j /\ Tile.column tile = i).
Proof.
  intros Hcrs Hsector Htm. unfold createTopLevelTiles, at_. simpl.
  destruct (tileMatrix (tileMatrixSet (layer st))) as [| tm0 levels];
    [discriminate |].
  injection Htm as ->. simpl.
  destruct (pushTopLevelTiles_cells (layer st) tm) with
    (cells := matrixCells tm) (tiles := @nil (option Tile.t))
    as (made & -> & Hcells & Hmade).
  { intros row column. by apply createTile_supported. }
  exists made. simpl. split; [reflexivity |]. split; [exact Hcells |].
  split; [exact Hmade |]. destruct (matrixCells_spec tm) as [Hin Hlength].
  split.
  - rewrite <- Hlength, <- Hcells. by rewrite length_fmap.
  - intros j i Hj Hi.
    assert ((j, i) ∈ matrixCells tm) as Hcell by (by apply Hin).
    rewrite <- Hcells in Hcell.
    apply list_elem_of_fmap in Hcell as (tile & [= -> ->] & Htile). eauto.
Qed.

Lemma pushTopLevelTiles_undefined (layer : Layer) (tm : TileMatrix) :
  (forall row column, createTile layer tm row column = Ok None) ->
  forall cells tiles,
    pushTopLevelTiles layer tm cells tiles
    = (tiles ++ replicate (length cells) None, None).
Proof.
  intros Hmake. induction cells as [| [j i] cells IH]; intros tiles.
  - simpl. by rewrite app_nil_r.
  - simpl. rewrite Hmake, IH, <- app_assoc. reflexivity.
Qed.

(** X14.  A layer whose tile matrix set is in none of the supported
    coordinate systems cannot assemble its tiles: when the first matrix has
    a cell and no top-level tile exists yet, [assembleTiles] throws a
    TypeError on the first top-level tile, which is undefined, leaving the
    render list empty and starting no image load. *)
Theorem assembleTiles_unsupported_crs (fuel : nat) (dc : DrawContext)
    (st : State) (tm : TileMatrix) :
  supportedCrs (supportedCRS (tileMatrixSet (layer st))) = false ->
  default [] (topLevelTiles (layer st)) = [] ->
  head (tileMatrix (tileMatrixSet (layer st))) = Some tm ->
  0 < matrixHeight tm -> 0 < matrixWidth tm ->
  exists st',
    assembleTiles fuel dc st = Thrown (TypeError "tile is undefined") st'
    /\ currentTiles (layer st') = []
    /\ imageLoads st' = imageLoads st
    /\ topLevelTiles (layer st')
       = Some (replicate
                 (Z.to_nat (matrixHeight tm) * Z.to_nat (matrixWidth tm)) None).
Proof.
  intros Hcrs Htop Htm Hh Hw.
  assert (assembleTiles fuel dc st
          = match createTopLevelTiles (onLayer (setCurrentTiles []) st) with
            | Returned st =>
                topLevelLoop fuel dc (default [] (topLevelTiles (layer st))) st
            | o => o
            end) as ->.
  { unfold assembleTiles. simpl.
    destruct (topLevelTiles (layer st)) as [[| top tiles] |];
      simpl in Htop; try discriminate;
      by destruct (createTopLevelTiles _). }
  unfold createTopLevelTiles, at_. simpl.
  destruct (tileMatrix (tileMatrixSet (layer st))) as [| tm0 levels];
    [discriminate |].
  injection Htm as ->. simpl.
  rewrite pushTopLevelTiles_undefined.
  2: { intros row column. unfold supportedCrs in Hcrs.
       apply orb_false_iff in Hcrs as [Hcrs H84].
       apply orb_false_iff in Hcrs as [H4326 H3857].
       unfold createTile. simpl. by rewrite H4326, H3857, H84. }
  destruct (matrixCells_spec tm) as [_ ->]. simpl.
  assert (exists n,
    (Z.to_nat (matrixHeight tm) * Z.to_nat (matrixWidth tm))%nat = S n)
    as [n Hcells].
  { exists (Nat.pred (Z.to_nat (matrixHeight tm) * Z.to_nat (matrixWidth tm))).
    nia. }
  rewrite Hcells. simpl. eexists. split; [reflexivity |]. by simpl.
Qed.

Lemma topLevelLoop_invisible (fuel : nat) (dc : DrawContext)
    (tiles : list Tile.t) :
  Forall (fun tile => isTileVisible dc tile = false) tiles ->
  forall st,
    currentAncestorTile (layer st) = None ->
    topLevelLoop fuel dc (Some <$> tiles) st = Returned st.
Proof.
  induction 1 as [| tile tiles Htile _ IH]; intros st Hancestor;
    [reflexivity |].
  simpl. rewrite Htile.
  assert (onLayer (setCurrentAncestorTile None) st = st) as ->.
  { destruct st as [[] ? ? ?]. simpl in Hancestor. by subst. }
  by apply IH.
Qed.

(** X15.  When the top-level tiles exist and none of them is visible, a
    frame returns whatever the depth of the pyramid: it only empties the
    render list and clears the ancestor of record; no tile is subdivided, no
    image is requested. *)
Theorem assembleTiles_nothing_visible (fuel : nat) (dc : DrawContext)
    (st : State) (tiles : list Tile.t) :
  tiles <> [] ->
  topLevelTiles (layer st) = Some (Some <$> tiles) ->
  Forall (fun tile => isTileVisible dc tile = false) tiles ->
  assembleTiles fuel dc st
  = Returned
      (onLayer (setCurrentAncestorTile None) (onLayer (setCurrentTiles []) st)).
Proof.
  intros Hsome Htop Hinvisible. unfold assembleTiles.
  assert (topLevelTiles (layer (onLayer (setCurrentTiles []) st))
          = Some (Some <$> tiles)) as Htop'
    by (destruct st as [[] ? ? ?]; exact Htop).
  cbv zeta. rewrite Htop'.
  destruct tiles as [| tile tiles]; [done |].
  apply Forall_cons in Hinvisible as [Htile Hinvisible].
  rewrite fmap_cons. cbn [default topLevelLoop]. rewrite Htop'.
  rewrite fmap_cons. cbn [default id topLevelLoop]. rewrite Htile.
  apply topLevelLoop_invisible; [exact Hinvisible |].
  by destruct st as [[] ? ? ?].
Qed.

End Frames.

Lemma createTopLevelTiles_cells_witness :
  let st := Sample.start Sample.geographic3 ∅ in
  let tm := Sample.level 0 2 1 in
  exists made,
    createTopLevelTiles st
    = Returned (onLayer (setTopLevelTiles (Some (Some <$> made))) st)
    /\ (fun tile => (Tile.row tile, Tile.column tile)) <$> made = matrixCells tm
    /\ Forall (fun tile => Tile.tileMatrix tile = tm) made
    /\ length made
       = (Z.to_nat (matrixHeight tm) * Z.to_nat (matrixWidth tm))%nat
    /\ (forall j i,
          0 <= j < matrixHeight tm -> 0 <= i < matrixWidth tm ->
          exists tile, tile ∈ made /\ Tile.row tile = j /\ Tile.column tile = i).
Proof.
  intros st tm.
  apply (createTopLevelTiles_cells (W := Sample.collaborators) st tm).
  - by_evaluation.
  - exists (mkSector (-90) 90 (-180) 180). by_evaluation.
  - by_evaluation.
Defined.

Lemma assembleTiles_unsupported_crs_witness :
  let st := Sample.start Sample.utm ∅ in
  exists st',
    assembleTiles 3 Sample.near st = Thrown (TypeError "tile is undefined") st'
    /\ currentTiles (layer st') = []
    /\ imageLoads st' = imageLoads st
    /\ topLevelTiles (layer st') = Some [None].
Proof.
  intros st.
  apply (assembleTiles_unsupported_crs (W := Sample.collaborators) 3
           Sample.near st (Sample.level 0 1 1)).
  - by_evaluation.
  - by_evaluation.
  - by_evaluation.
  - reflexivity.
  - reflexivity.
Defined.

Lemma assembleTiles_nothing_visible_witness :
  length (default [] (topLevelTiles (layer Flat.start))) = 2%nat
  /\ assembleTiles (W := Flat.collaborators) 0 4%Q Flat.start
     = Returned
         (onLayer (setCurrentAncestorTile None)
            (onLayer (setCurrentTiles []) Flat.start)).
Proof.
  split; [by_evaluation |].
  apply (assembleTiles_nothing_visible (W := Flat.collaborators) 0 4%Q
           Flat.start
           (omap id (default [] (topLevelTiles (layer Flat.start))))).
  - intros Hnone. vm_compute in Hnone. discriminate.
  - by_evaluation.
  - apply (bool_decide_unpack _). vm_cast_no_check I.
Defined.

(** ** The order of the rows of an unprojected image *)

Lemma clamp_monotone (a b : Q) :
  (a <= b)%Q -> (clamp a 0 1 <= clamp b 0 1)%Q.
Proof.
  intros Hab. unfold clamp.
  destruct (Qlt_le_dec 1 a), (Qlt_le_dec 1 b), (Qlt_le_dec a 0),
    (Qlt_le_dec b 0); lra.
Qed.

Lemma clamp_proper (a b : Q) :
  (a == b)%Q -> (clamp a 0 1 == clamp b 0 1)%Q.
Proof.
  intros Hab. apply Qle_antisym; apply clamp_monotone; lra.
Qed.

Section RowOrder.

Context {W : Collaborators}.

Variable sector : Sector.
Variable h : nat.

Hypothesis two_rows : (2 <= h)%nat.
Hypothesis northward : (minLatitude sector <= maxLatitude sector)%Q.
Hypothesis monotone :
  forall a b, (a <= b)%Q -> (gudermannianInverse a <= gudermannianInverse b)%Q.
Hypothesis stretched :
  (gudermannianInverse (minLatitude sector)
   < gudermannianInverse (maxLatitude sector))%Q.

Lemma gudermannianInverse_proper (a b : Q) :
  (a == b)%Q -> (gudermannianInverse a == gudermannianInverse b)%Q.
Proof. intros Hab. apply Qle_antisym; apply monotone; lra. Qed.

Lemma rows_positive : (0 < inject_Z (Z.of_nat h) - 1)%Q.
Proof.
  assert (inject_Z 2 <= inject_Z (Z.of_nat h))%Q as Hh
    by (rewrite <- Zle_Qle; lia).
  change (inject_Z 2) with 2%Q in Hh. lra.
Qed.

Lemma Qdiv_monotone (a b d : Q) :
  (0 < d)%Q -> (a <= b)%Q -> (a / d <= b / d)%Q.
Proof.
  intros Hd Hab. unfold Qdiv. apply Qmult_le_compat_r; [exact Hab |].
  apply Qinv_le_0_compat. lra.
Qed.

Lemma sourceRow_top : sourceRow sector h 0 = 0.
Proof.
  pose proof rows_positive as Hrows. unfold sourceRow. cbv zeta.
  set (rows := (inject_Z (Z.of_nat h) - 1)%Q) in *.
  set (tMin := gudermannianInverse (minLatitude sector)) in *.
  set (tMax := gudermannianInverse (maxLatitude sector)) in *.
  match goal with
  | |- Qfloor (clamp (1 - (gudermannianInverse ?lat - _) / _) 0 1 * _)%Q = _ =>
      assert (gudermannianInverse lat == tMax)%Q as Hg
  end.
  { apply gudermannianInverse_proper. unfold deltaLatitude.
    change (inject_Z (Z.of_nat 0)) with 0%Q.
    assert (0 / rows == 0)%Q as -> by (field; lra). ring. }
  match goal with
  | |- Qfloor (clamp ?dy 0 1 * _)%Q = _ =>
      assert (dy == 0)%Q as Hdy by (rewrite Hg; field; lra);
      pose proof (clamp_proper _ _ Hdy) as Hclamp
  end.
  change (clamp 0 0 1) with 0%Q in Hclamp.
  rewrite Hclamp, Qmult_0_l. reflexivity.
Qed.

Lemma sourceRow_bottom : sourceRow sector h (h - 1) = Z.of_nat h - 1.
Proof.
  pose proof rows_positive as Hrows. unfold sourceRow. cbv zeta.
  assert (inject_Z (Z.of_nat (h - 1)) == inject_Z (Z.of_nat h) - 1)%Q as Hlast.
  { replace (Z.of_nat (h - 1)) with (Z.of_nat h + - 1) by lia.
    rewrite inject_Z_plus. reflexivity. }
  set (rows := (inject_Z (Z.of_nat h) - 1)%Q) in *.
  set (tMin := gudermannianInverse (minLatitude sector)) in *.
  set (tMax := gudermannianInverse (maxLatitude sector)) in *.
  match goal with
  | |- Qfloor (clamp (1 - (gudermannianInverse ?lat - _) / _) 0 1 * _)%Q = _ =>
      assert (gudermannianInverse lat == tMin)%Q as Hg
  end.
  { apply gudermannianInverse_proper. rewrite Hlast.
    assert (rows / rows == 1)%Q as -> by (field; lra). ring. }
  match goal with
  | |- Qfloor (clamp ?dy 0 1 * _)%Q = _ =>
      assert (dy == 1)%Q as Hdy by (rewrite Hg; field; lra);
      pose proof (clamp_proper _ _ Hdy) as Hclamp
  end.
  change (clamp 1 0 1) with 1%Q in Hclamp.
  rewrite Hclamp, Qmult_1_l. subst rows.
  assert (inject_Z (Z.of_nat h) - 1 == inject_Z (Z.of_nat h - 1))%Q as ->.
  { unfold Z.sub. rewrite inject_Z_plus. reflexivity. }
  apply Qfloor_Z.
Qed.

Lemma sourceRow_monotone (y1 y2 : nat) :
  (y1 <= y2)%nat -> sourceRow sector h y1 <= sourceRow sector h y2.
Proof.
  intros Hy. pose proof rows_positive as Hrows. unfold sourceRow. cbv zeta.
  set (rows := (inject_Z (Z.of_nat h) - 1)%Q) in *.
  set (tMin := gudermannianInverse (minLatitude sector)) in *.
  set (tMax := gudermannianInverse (maxLatitude sector)) in *.
  assert (inject_Z (Z.of_nat y1) / rows <= inject_Z (Z.of_nat y2) / rows)%Q
    as Hsy.
  { apply Qdiv_monotone; [exact Hrows |]. rewrite <- Zle_Qle. lia. }
  set (a1 := (inject_Z (Z.of_nat y1) / rows)%Q) in *.
  set (a2 := (inject_Z (Z.of_nat y2) / rows)%Q) in *.
  assert ((1 - a2) * deltaLatitude sector <= (1 - a1) * deltaLatitude sector)%Q
    as Hlat.
  { apply Qmult_le_compat_r; [lra | unfold deltaLatitude; lra]. }
  assert (gudermannianInverse
            ((1 - a2) * deltaLatitude sector + minLatitude sector)
          <= gudermannianInverse
               ((1 - a1) * deltaLatitude sector + minLatitude sector))%Q
    as Hg by (apply monotone; lra).
  set (g1 := gudermannianInverse
               ((1 - a1) * deltaLatitude sector + minLatitude sector)) in *.
  set (g2 := gudermannianInverse
               ((1 - a2) * deltaLatitude sector + minLatitude sector)) in *.
  assert ((g2 - tMin) / (tMax - tMin) <= (g1 - tMin) / (tMax - tMin))%Q
    as Hdy by (apply Qdiv_monotone; lra).
  apply Qfloor_resp_le. apply Qmult_le_compat_r; [| lra].
  apply clamp_monotone. lra.
Qed.

End RowOrder.

(** X16.  Where the inverse Gudermannian function does not decrease and
    tells the two parallels of the sector apart, unprojecting an image of
    two rows or more never exchanges two rows: the source row of a
    destination row does not decrease with the row; and the first and the
    last row of the image stay where they are. *)
Theorem createTexture3857_keeps_row_order {W : Collaborators} (tile : Tile.t)
    (image : Image) :
  (2 <= height image)%nat ->
  (minLatitude (Tile.sector tile) <= maxLatitude (Tile.sector tile))%Q ->
  (forall a b,
      (a <= b)%Q -> (gudermannianInverse a <= gudermannianInverse b)%Q) ->
  (gudermannianInverse (minLatitude (Tile.sector tile))
   < gudermannianInverse (maxLatitude (Tile.sector tile)))%Q ->
  let dest := destImageData (Tile.sector tile) image in
  (forall y1 y2 : nat,
      (y1 <= y2)%nat ->
      sourceRow (Tile.sector tile) (height image) y1
      <= sourceRow (Tile.sector tile) (height image) y2)
  /\ forall y : nat,
       y = 0%nat \/ y = (height image - 1)%nat ->
       sourceRow (Tile.sector tile) (height image) y = Z.of_nat y
       /\ forall (x : nat) (c : Z),
            (x < width image)%nat -> 0 <= c < 4 ->
            getByte (data dest)
              (4 * (Z.of_nat x + Z.of_nat y * Z.of_nat (width image)) + c)
            = getByte (data image)
                (4 * (Z.of_nat x + Z.of_nat y * Z.of_nat (width image)) + c).
Proof.
  intros Hheight Hnorth Hmonotone Hstretched dest. split.
  { intros y1 y2. by apply sourceRow_monotone. }
  intros y Hy.
  assert (sourceRow (Tile.sector tile) (height image) y = Z.of_nat y) as Hrow.
  { destruct Hy as [-> | ->].
    - by apply sourceRow_top.
    - rewrite sourceRow_bottom by assumption. lia. }
  split; [exact Hrow |]. intros x c Hx Hc.
  destruct (destLoop_channel (Tile.sector tile) image
              (replicate (4 * width image * height image) 0) (height image))
    as [_ Hget]; [apply length_replicate | lia |].
  subst dest. cbn [data destImageData]. rewrite Hget by assumption.
  rewrite decide_True by (destruct Hy; lia). by rewrite Hrow.
Qed.

Lemma createTexture3857_keeps_row_order_witness :
  let dest :=
    destImageData (W := Sample.collaborators)
      (Tile.sector Sample.polarTile) Sample.strip in
  sourceRow (W := Sample.collaborators) (Tile.sector Sample.polarTile) 2 0
  <= sourceRow (W := Sample.collaborators) (Tile.sector Sample.polarTile) 2 1
  /\ getByte (data dest) (4 * (0 + 1 * 1) + 2)
     = getByte (data Sample.strip) (4 * (0 + 1 * 1) + 2).
Proof.
  intros dest.
  destruct (createTexture3857_keeps_row_order (W := Sample.collaborators)
              Sample.polarTile Sample.strip) as [Horder Hkept].
  - apply le_n.
  - discriminate.
  - intros a b Hab. exact Hab.
  - reflexivity.
  - split.
    + apply (Horder 0%nat 1%nat). apply le_S, le_n.
    + destruct (Hkept 1%nat) as [_ Hpixel]; [right; reflexivity |].
      apply (Hpixel 0%nat 2); [apply le_n | lia].
Defined.

(** ** Frames of the renderer *)

Section Frames2.

Context {W : Collaborators}.

Variable Matrix : Type.
Variable equals : Matrix -> Matrix -> bool.

(** The traversal of a layer addressed with key-value pairs never marks
    the current tiles invalid. *)
Lemma kvp_valid_kept :
  Kept (fun st => Js.truthy (resourceUrl (layer st)) = false
                  /\ currentTilesInvalid (layer st) = false).
Proof.
  assert (forall tile st,
    Js.truthy (resourceUrl (layer st)) = false
    /\ currentTilesInvalid (layer st) = false ->
    Js.truthy (resourceUrl (layer (retrieveTileImage tile st))) = false
    /\ currentTilesInvalid (layer (retrieveTileImage tile st)) = false)
    as Hretrieve.
  { intros tile st [Hkvp Hvalid]. unfold retrieveTileImage.
    destruct (Js.arrayIndexOf _ _ <? 0); [| by split].
    destruct (isResourceAbsent _ _) as [absent absentList].
    destruct absent; [by destruct st as [[] ? ? ?] |].
    destruct (String.eqb _ EmptyString) eqn:Hurl;
      [| by destruct st as [[] ? ? ?]].
    apply String.eqb_eq in Hurl. apply resourceUrlForTile_kvp in Hurl; [done |].
    by destruct st as [[] ? ? ?]. }
  assert (forall tile st,
    Js.truthy (resourceUrl (layer st)) = false
    /\ currentTilesInvalid (layer st) = false ->
    Js.truthy (resourceUrl (layer (pushCurrentTile tile st))) = false
    /\ currentTilesInvalid (layer (pushCurrentTile tile st)) = false)
    as Hpush by (intros tile st; by destruct st as [[] ? ? ?]).
  constructor.
  - intros dc tile st Hst. unfold addTile.
    destruct (resourceForKey _ _) as [texture |].
    + destruct (isTextureExpired _ _); auto.
    + destruct (currentAncestorTile _); auto.
      destruct (isTileTextureInMemory _ _); auto.
  - intros a st. by destruct st as [[] ? ? ?].
  - intros c st. by destruct st as [[] ? ? ?].
  - intros t st. by destruct st as [[] ? ? ?].
  - intros st. by destruct st as [[] ? ? ?].
Qed.

(** X17.  A frame drawn for the view of the frame before it, when that
    frame left the current tiles valid and no image has arrived since, does
    not assemble the tiles again, whatever the depth of the pyramid: the
    layer is left as it is and the render list of the frame before is drawn
    and counted once more. *)
Theorem doRender_steady_frame (fuel fuel' : nat) (dc : Frame Matrix)
    (this next : Renderer Matrix) :
  equals (modelviewProjection dc) (modelviewProjection dc) = true ->
  terrain dc = true ->
  doRender equals fuel dc this = Drawn next ->
  currentTilesInvalid (layer (state next)) = false ->
  doRender equals fuel' dc next
  = Drawn
      (if 0 <? Z.of_nat (length (currentTiles (layer (state next))))
       then
         mkRenderer (state next) (lasTtMVP next) (lastGlobeStateKey next) true
           (renderTiles next ++ [currentTiles (layer (state next))])
           (imageTileCount next
            + Z.of_nat (length (currentTiles (layer (state next)))))
       else next).
Proof.
  intros Hequals Hterrain Hfirst Hvalid.
  assert (lasTtMVP next = Some (modelviewProjection dc)
          /\ lastGlobeStateKey next = Some (globeStateKey dc)) as [Hmvp Hkey].
  { unfold doRender in Hfirst. rewrite Hterrain in Hfirst. simpl in Hfirst.
    destruct (if _ : bool then assembleTiles _ _ _ else _) as [st | e st |];
      [| discriminate | discriminate].
    destruct (0 <? _); by injection Hfirst as <-. }
  unfold doRender. rewrite Hterrain, Hvalid, Hmvp, Hkey, Hequals.
  rewrite String.eqb_refl. simpl.
  destruct (0 <? _); [reflexivity |].
  destruct next. simpl in *. by subst.
Qed.

(** X18.  On a layer addressed with key-value pairs, a frame with terrain
    that is drawn leaves the current tiles valid and records the view it
    was drawn for; a frame that fails has marked the current tiles valid
    all the same, and keeps the view that was recorded before it. *)
Theorem doRender_validates (fuel : nat) (dc : Frame Matrix)
    (this : Renderer Matrix) :
  Js.truthy (resourceUrl (layer (state this))) = false ->
  terrain dc = true ->
  (forall next,
      doRender equals fuel dc this = Drawn next ->
      currentTilesInvalid (layer (state next)) = false
      /\ lasTtMVP next = Some (modelviewProjection dc)
      /\ lastGlobeStateKey next = Some (globeStateKey dc))
  /\ (forall e next,
        doRender equals fuel dc this = Failed e next ->
        currentTilesInvalid (layer (state next)) = false
        /\ lasTtMVP next = lasTtMVP this
        /\ lastGlobeStateKey next = lastGlobeStateKey this).
Proof.
  intros Hkvp Hterrain.
  pose proof (assembleTiles_after _ fuel (drawContext dc)
                (onLayer (setCurrentTilesInvalid false) (state this))
                kvp_valid_kept) as Hrun.
  assert (Js.truthy
            (resourceUrl
               (layer (onLayer (setCurrentTilesInvalid false) (state this))))
          = false
          /\ currentTilesInvalid
               (layer (onLayer (setCurrentTilesInvalid false) (state this)))
             = false) as Hstart
    by (by destruct (state this) as [[] ? ? ?]).
  specialize (Hrun Hstart). clear Hstart.
  unfold doRender. rewrite Hterrain. simpl.
  destruct (_ || _ || _) eqn:Hstale.
  - destruct (assembleTiles _ _ _) as [st | e st |]; simpl in Hrun.
    + destruct Hrun as [_ Hvalid].
      destruct (0 <? _); (split; [| discriminate]); intros next Hnext;
        by injection Hnext as <-.
    + destruct Hrun as [_ Hvalid].
      split; [discriminate |]. intros e' next Hnext. by injection Hnext as _ <-.
    + split; discriminate.
  - apply orb_false_iff in Hstale as [Hstale _].
    apply orb_false_iff in Hstale as [Hvalid _].
    destruct (0 <? _); (split; [| discriminate]); intros next Hnext;
      by injection Hnext as <-.
Qed.

(** X19.  A frame, drawn or failed, cancels no retrieval and leaves the
    GPU resource cache and the geometry of the layer alone.  A drawn frame
    with terrain adds the length of its render list to the image tile
    count, and hands the list to the surface tile renderer exactly when it
    is not empty. *)
Theorem doRender_accounts (fuel : nat) (dc : Frame Matrix)
    (this : Renderer Matrix) :
  (forall next,
      doRender equals fuel dc this = Drawn next ->
      onlyRequests (state this) (state next)
      /\ (terrain dc = true ->
          imageTileCount next
          = imageTileCount this
            + Z.of_nat (length (currentTiles (layer (state next))))
          /\ renderTiles next
             = renderTiles this
               ++ match currentTiles (layer (state next)) with
                  | [] => []
                  | tiles => [tiles]
                  end))
  /\ (forall e next,
        doRender equals fuel dc this = Failed e next ->
        onlyRequests (state this) (state next)
        /\ imageTileCount next = imageTileCount this
        /\ renderTiles next = renderTiles this).
Proof.
  assert (after (onlyRequests (state this))
            (if currentTilesInvalid (layer (state this))
                || match lasTtMVP this with
                   | None => true
                   | Some last => negb (equals (modelviewProjection dc) last)
                   end
                || match lastGlobeStateKey this with
                   | None => true
                   | Some key => negb (String.eqb (globeStateKey dc) key)
                   end
             then
               assembleTiles fuel (drawContext dc)
                 (onLayer (setCurrentTilesInvalid false) (state this))
             else Returned (state this))) as Hrun.
  { destruct (_ || _ || _); [| apply onlyRequests_refl].
    apply assembleTiles_after; [apply onlyRequests_kept |].
    destruct (state this) as [[] ? ? ?]. unfold onlyRequests, sameFrame.
    by repeat split. }
  unfold doRender. destruct (terrain dc); simpl.
  2: { split; [| discriminate]. intros next [= <-].
       split; [apply onlyRequests_refl | discriminate]. }
  destruct (if _ : bool then assembleTiles _ _ _ else _) as [st | e st |];
    simpl in Hrun.
  - destruct (currentTiles (layer st)) as [| tile tiles] eqn:Htiles.
    + simpl. split; [| discriminate]. intros next [= <-]. simpl.
      rewrite Htiles. split; [exact Hrun |]. intros _. simpl.
      split; [lia |]. by rewrite app_nil_r.
    + replace (0 <? Z.of_nat (length (tile :: tiles))) with true
        by (symmetry; apply Z.ltb_lt; simpl; lia).
      split; [| discriminate]. intros next [= <-]. simpl. rewrite Htiles.
      split; [exact Hrun |]. by intros _.
  - split; [discriminate |]. intros e' next [= _ <-]. by simpl.
  - split; discriminate.
Qed.

End Frames2.

(** The first frame of the sample renderer is drawn. *)
Lemma kvp_drawn : doRender Z.eqb 2 Kvp.frame Kvp.renderer = Drawn Kvp.drawn.
Proof.
  assert (match doRender Z.eqb 2 Kvp.frame Kvp.renderer with
          | Drawn _ => true
          | _ => false
          end = true) as Hdrawn by by_evaluation.
  unfold Kvp.drawn.
  destruct (doRender Z.eqb 2 Kvp.frame Kvp.renderer);
    [reflexivity | discriminate | discriminate].
Qed.

Lemma doRender_steady_frame_witness :
  currentTiles (layer (state Kvp.drawn)) <> []
  /\ doRender Z.eqb 0 Kvp.frame Kvp.drawn
     = Drawn
         (mkRenderer (state Kvp.drawn) (lasTtMVP Kvp.drawn)
            (lastGlobeStateKey Kvp.drawn) true
            (renderTiles Kvp.drawn ++ [currentTiles (layer (state Kvp.drawn))])
            (imageTileCount Kvp.drawn
             + Z.of_nat (length (currentTiles (layer (state Kvp.drawn)))))).
Proof.
  split; [intros Hnone; vm_compute in Hnone; discriminate |].
  rewrite (doRender_steady_frame (W := Sample.collaborators) Z Z.eqb 2 0
             Kvp.frame Kvp.renderer Kvp.drawn).
  - by_evaluation.
  - reflexivity.
  - reflexivity.
  - exact kvp_drawn.
  - by_evaluation.
Defined.

Lemma doRender_validates_witness :
  currentTilesInvalid (layer (state Kvp.renderer)) = true
  /\ currentTilesInvalid (layer (state Kvp.drawn)) = false
  /\ lasTtMVP Kvp.drawn = Some 7
  /\ lastGlobeStateKey Kvp.drawn = Some "globe"%string.
Proof.
  split; [by_evaluation |].
  destruct (doRender_validates (W := Sample.collaborators) Z Z.eqb 2
              Kvp.frame Kvp.renderer) as [Hvalid _].
  - reflexivity.
  - reflexivity.
  - exact (Hvalid Kvp.drawn kvp_drawn).
Defined.

Lemma doRender_accounts_witness :
  imageTileCount Kvp.drawn
  = 0 + Z.of_nat (length (currentTiles (layer (state Kvp.drawn))))
  /\ imageLoads Kvp.start `prefix_of` imageLoads (state Kvp.drawn).
Proof.
  destruct (doRender_accounts (W := Sample.collaborators) Z Z.eqb 2
              Kvp.frame Kvp.renderer) as [Hdrawn _].
  destruct (Hdrawn Kvp.drawn kvp_drawn) as [Hrequests Hcount].
  split.
  - apply Hcount. reflexivity.
  - apply Hrequests.
Defined.

(** ** Dispatched retrievals *)

Section Dispatched.

Context {W : Collaborators}.






End Dispatched.


